(** * Content platform back end: models, services and controllers

    A shallow embedding of the back end of the content automation
    platform (Mongoose models [Content], [Analytics] and [User], the AI and
    Figma services, and the content and analytics controllers), followed by
    the properties of the written specification that were checked on it.

    Conventions of the embedding.
    - An [ObjectId] is a natural number; two ids are the same document
      reference exactly when their [toString()] renderings agree.
    - A [Date] is its epoch value in milliseconds.
    - A JavaScript [Number] that is only counted or incremented ([version],
      the rollup counters) is an integer of [Z] or [nat]; a [Number] that is
      computed with (sentiment scores, percentage changes, colour channels)
      is an IEEE 754 binary64 value, Rocq's primitive [float], whose
      operations are those of JavaScript.
    - An [async] controller is a function from the store to the store and
      either the error handed to [next] or the body handed to [res.json]:
      a write that was saved before a later step threw stays in the store. *)

From Stdlib Require Import ZArith String Ascii HexString List Lia Bool.
From Stdlib Require Import QArith Qcanon.
From Stdlib Require Import Uint63 Floats.PrimFloat Floats.FloatOps Floats.SpecFloat.
From stdpp Require Import base option list gmap strings sorting.

#[local] Set Warnings "-register-all".
Local Open Scope string_scope.
Local Open Scope Z_scope.

Abbreviation ObjectId := nat (only parsing).
Abbreviation Date := Z (only parsing).

(** ** Errors ([middlewares/errorHandler.js])

    [APIError] is the controllers' own error class, carrying the HTTP status
    it was constructed with.  [ValidationError] is the error Mongoose raises
    when [save()] meets a schema validator that fails, [CastError] the one
    a query raises for an [_id] that is no ObjectId, [MongoError] an error
    of the database server, and [TypeError] and [SyntaxError] are the
    JavaScript runtime's. *)
Inductive Error :=
| APIError (message : string) (statusCode : Z)
| ValidationError
| CastError
| MongoError
| TypeError
| SyntaxError.

(** The error taxonomy of the specification (its section 7). *)
Inductive ErrorKind :=
| KValidationError | KAuthenticationError | KAuthorizationError
| KNotFoundError | KConflictError | KRateLimitError
| KUpstreamServiceError | KInternalError.

(** How a thrown error reads in the specification's taxonomy: by the status
    code an [APIError] carries, a Mongoose validation failure being the
    caller's ([errorHandler] answers it with 400). *)
Definition kindOf (e : Error) : ErrorKind :=
  match e with
  | ValidationError => KValidationError
  | APIError _ 400 => KValidationError
  | APIError _ 401 => KAuthenticationError
  | APIError _ 403 => KAuthorizationError
  | APIError _ 404 => KNotFoundError
  | APIError _ 409 => KConflictError
  | APIError _ 429 => KRateLimitError
  | APIError _ 503 => KUpstreamServiceError
  | APIError _ _ => KInternalError
  | CastError | MongoError | TypeError | SyntaxError => KInternalError
  end.

(** ** The [Content] model ([models/Content.js]) *)

Module Revision.
  (** One element of [revisions]. *)
Record t := mk {
    content : string;
    modifiedBy : ObjectId;
    modifiedAt : Date;
    version : Z;
    changeLog : string
  }.
End Revision.

Module Channel.
  (** One element of [distribution.channels]. *)
Record t := mk {
    platform : string;
    status : string;
    publishedAt : option Date
  }.
End Channel.

Module Schedule.
Record t := mk { publishAt : Date; timezone : string }.
End Schedule.

Module Content.
Record t := mk {
    _id : ObjectId;
    type : string;
    content : string;
    status : string;
    author : ObjectId;
    company : ObjectId;
    channels : list Channel.t;
    schedule : option Schedule.t;
    version : Z;
    revisions : list Revision.t;
    isArchived : bool;
    createdAt : Date;
    title : string;
    prompt : string;
    aiModel : string
  }.

Definition set_content (v : string) (c : t) : t :=
    mk (_id c) (type c) v (status c) (author c) (company c) (channels c)
       (schedule c) (version c) (revisions c) (isArchived c) (createdAt c)
       (title c) (prompt c) (aiModel c).
Definition set_status (v : string) (c : t) : t :=
    mk (_id c) (type c) (content c) v (author c) (company c) (channels c)
       (schedule c) (version c) (revisions c) (isArchived c) (createdAt c)
       (title c) (prompt c) (aiModel c).
Definition set_channels (v : list Channel.t) (c : t) : t :=
    mk (_id c) (type c) (content c) (status c) (author c) (company c) v
       (schedule c) (version c) (revisions c) (isArchived c) (createdAt c)
       (title c) (prompt c) (aiModel c).
Definition set_schedule (v : option Schedule.t) (c : t) : t :=
    mk (_id c) (type c) (content c) (status c) (author c) (company c)
       (channels c) v (version c) (revisions c) (isArchived c) (createdAt c)
       (title c) (prompt c) (aiModel c).
Definition set_version (v : Z) (c : t) : t :=
    mk (_id c) (type c) (content c) (status c) (author c) (company c)
       (channels c) (schedule c) v (revisions c) (isArchived c) (createdAt c)
       (title c) (prompt c) (aiModel c).
Definition set_revisions (v : list Revision.t) (c : t) : t :=
    mk (_id c) (type c) (content c) (status c) (author c) (company c)
       (channels c) (schedule c) (version c) v (isArchived c) (createdAt c)
       (title c) (prompt c) (aiModel c).
Definition set_isArchived (v : bool) (c : t) : t :=
    mk (_id c) (type c) (content c) (status c) (author c) (company c)
       (channels c) (schedule c) (version c) (revisions c) v (createdAt c)
       (title c) (prompt c) (aiModel c).

  (** The schema's [enum] lists. *)
Definition statusEnum : list string := ["draft"; "published"; "archived"].
Definition platformEnum : list string :=
    ["website"; "twitter"; "linkedin"; "email"; "slack"].
Definition channelStatusEnum : list string :=
    ["pending"; "published"; "failed"].

Definition typeEnum : list string :=
    ["blog"; "social_post"; "email"; "design_doc"; "changelog";
     "internal_comm"].

  (** The schema validators, which [save()] runs on every path of a loaded
      document.  On the paths the controllers assign: [content] is
      [required] (an empty string fails it, as does an absent value, which
      the embedding writes as the empty string), [status] and the channels'
      [platform] and [status] are [enum]s. *)
Definition validChannel (ch : Channel.t) : bool :=
    bool_decide (Channel.platform ch ∈ platformEnum)
    && bool_decide (Channel.status ch ∈ channelStatusEnum).

Definition validateWritten (c : t) : bool :=
    negb (String.eqb (content c) "")
    && bool_decide (status c ∈ statusEnum)
    && forallb validChannel (channels c).

  (** On the paths no handler of the content controller assigns: [title],
      [metadata.prompt] and [metadata.aiModel] are [required], [type] is
      [required] and an [enum].  [author] and [company] are [required] as
      well; a document of the embedding always has them. *)
Definition validateKept (c : t) : bool :=
    negb (String.eqb (title c) "")
    && bool_decide (type c ∈ typeEnum)
    && negb (String.eqb (prompt c) "")
    && negb (String.eqb (aiModel c) "").

Definition validate (c : t) : bool :=
    validateWritten c && validateKept c.

  (** The in-memory part of [addRevision]: push the current body with the
      current version number, overwrite the body, increment the version.
      [now] is the [Date.now] default of [modifiedAt]. *)
Definition pushRevision (now : Date) (userId : ObjectId)
      (newContent changeLog : string) (this : t) : t :=
    let this1 :=
      set_revisions
        (revisions this ++
           [Revision.mk (content this) userId now (version this) changeLog])
        this in
    let this2 := set_content newContent this1 in
    set_version (version this2 + 1) this2.
End Content.

(** ** Calendar days of a [Date]

    [toDateString] renders the calendar day of a date in the server's time
    zone; the embedding keeps the day's index, of which the rendered string
    is a one-to-one image.  [tz] is the zone's offset from UTC in
    milliseconds. *)
Module JsDate.
Definition msPerDay : Z := 86400000.
Definition toDateString (tz : Z) (d : Date) : Z := (d + tz) / msPerDay.
  (** [d.setHours(0, 0, 0, 0)]. *)
Definition setHours0 (tz : Z) (d : Date) : Date :=
    (d + tz) / msPerDay * msPerDay - tz.
End JsDate.

(** What a request reads from its environment: the clock behind
    [new Date()] and [Date.now], and the server's time zone. *)
Record Clock := { now : Date; tz : Z }.

(** ** The [Analytics] model ([models/Analytics.js]) *)

Module View.
  (** An element of [metrics.views]; [timestamp] has the schema default
      [Date.now], so a stored view always carries one. *)
Record t := mk {
    timestamp : Date;
    source : option string;
    userAgent : option string
  }.
End View.

Module ViewData.
  (** The argument of [addView], before the schema default is applied. *)
Record t := mk {
    timestamp : option Date;
    source : option string;
    userAgent : option string
  }.
End ViewData.

Module Engagement.
  (** An element of [metrics.engagement.likes], [.shares] or [.comments],
      and the [data] handed to [addEngagement]; no default fills an absent
      [timestamp].  The three logs have a sub-schema each: a like has a
      timestamp and a user, a share a platform besides, a comment its
      content besides, and a field the sub-schema lacks is dropped when
      the entry is pushed. *)
Record t := mk {
    timestamp : option Date;
    userId : option ObjectId;
    platform : option string;
    content : option string
  }.
End Engagement.

Module Sample.
  (** An element of [sentiment.history]. *)
Record t := mk { timestamp : Date; score : float; source : string }.
End Sample.

Module Overall.
Record t := mk { score : option float; lastAnalyzed : option Date }.
End Overall.

Module DayMetrics.
  (** An element of [timeSeriesData]. *)
Record t := mk {
    date : Date;
    views : nat; likes : nat; shares : nat; comments : nat;
    sentiment : option float
  }.
End DayMetrics.

Module Daily.
  (** [aggregates.daily]. *)
Record t := mk {
    date : Date;
    views : nat; likes : nat; shares : nat; comments : nat;
    sentiment : option float
  }.
End Daily.

Module Analytics.
Record t := mk {
    contentId : ObjectId;
    company : ObjectId;
    views : list View.t;
    likes : list Engagement.t;
    shares : list Engagement.t;
    comments : list Engagement.t;
    overall : Overall.t;
    history : list Sample.t;
    timeSeriesData : list DayMetrics.t;
    daily : option Daily.t
  }.

  (** [new Analytics({ contentId, company })]. *)
Definition create (contentId company : ObjectId) : t :=
    mk contentId company [] [] [] [] (Overall.mk None None) [] [] None.

Definition set_views (v : list View.t) (a : t) : t :=
    mk (contentId a) (company a) v (likes a) (shares a) (comments a)
       (overall a) (history a) (timeSeriesData a) (daily a).
Definition set_likes (v : list Engagement.t) (a : t) : t :=
    mk (contentId a) (company a) (views a) v (shares a) (comments a)
       (overall a) (history a) (timeSeriesData a) (daily a).
Definition set_shares (v : list Engagement.t) (a : t) : t :=
    mk (contentId a) (company a) (views a) (likes a) v (comments a)
       (overall a) (history a) (timeSeriesData a) (daily a).
Definition set_comments (v : list Engagement.t) (a : t) : t :=
    mk (contentId a) (company a) (views a) (likes a) (shares a) v
       (overall a) (history a) (timeSeriesData a) (daily a).
Definition set_overall (v : Overall.t) (a : t) : t :=
    mk (contentId a) (company a) (views a) (likes a) (shares a) (comments a)
       v (history a) (timeSeriesData a) (daily a).
Definition set_history (v : list Sample.t) (a : t) : t :=
    mk (contentId a) (company a) (views a) (likes a) (shares a) (comments a)
       (overall a) v (timeSeriesData a) (daily a).
Definition set_timeSeriesData (v : list DayMetrics.t) (a : t) : t :=
    mk (contentId a) (company a) (views a) (likes a) (shares a) (comments a)
       (overall a) (history a) v (daily a).
Definition set_daily (v : option Daily.t) (a : t) : t :=
    mk (contentId a) (company a) (views a) (likes a) (shares a) (comments a)
       (overall a) (history a) (timeSeriesData a) v.

  (** [xs.filter(x => x.timestamp.toDateString() === today.toDateString())
      .length]; reading [toDateString] off an absent timestamp throws. *)
Definition sameDay (tz : Z) (today d : Date) : bool :=
    Z.eqb (JsDate.toDateString tz d) (JsDate.toDateString tz today).

Definition countViews (tz : Z) (today : Date) (vs : list View.t) : nat :=
    length (filter (fun v => sameDay tz today (View.timestamp v) = true) vs).

Fixpoint countEngagement (tz : Z) (today : Date) (es : list Engagement.t)
      : Error + nat :=
    match es with
    | [] => inr 0%nat
    | e :: es' =>
        match Engagement.timestamp e with
        | None => inl TypeError
        | Some d =>
            match countEngagement tz today es' with
            | inl err => inl err
            | inr n => inr (if sameDay tz today d then S n else n)
            end
        end
    end.

  (** [timeSeriesData.findIndex(d => d.date.toDateString() ===
      today.toDateString())], then overwrite at the index or push. *)
Fixpoint upsertDay (tz : Z) (today : Date) (entry : DayMetrics.t)
      (ts : list DayMetrics.t) : list DayMetrics.t :=
    match ts with
    | [] => [entry]
    | d :: ts' =>
        if sameDay tz today (DayMetrics.date d) then entry :: ts'
        else d :: upsertDay tz today entry ts'
    end.

Definition updateTimeSeriesData (clk : Clock) (this : t) : Error + t :=
    let today := JsDate.setHours0 (tz clk) (now clk) in
    let v := countViews (tz clk) today (views this) in
    match countEngagement (tz clk) today (likes this) with
    | inl e => inl e
    | inr l =>
    match countEngagement (tz clk) today (shares this) with
    | inl e => inl e
    | inr s =>
    match countEngagement (tz clk) today (comments this) with
    | inl e => inl e
    | inr c =>
        let todayMetrics :=
          DayMetrics.mk today v l s c (Overall.score (overall this)) in
        inr (set_timeSeriesData
               (upsertDay (tz clk) today todayMetrics (timeSeriesData this))
               this)
    end end end.

  (** [updateAggregates]: the time series, then [aggregates.daily]; the
      weekly and monthly aggregates are left out by the source. *)
Definition updateAggregates (clk : Clock) (this : t) : Error + t :=
    match updateTimeSeriesData clk this with
    | inl e => inl e
    | inr this1 =>
        let today := JsDate.setHours0 (tz clk) (now clk) in
        let v := countViews (tz clk) today (views this1) in
        match countEngagement (tz clk) today (likes this1) with
        | inl e => inl e
        | inr l =>
        match countEngagement (tz clk) today (shares this1) with
        | inl e => inl e
        | inr s =>
        match countEngagement (tz clk) today (comments this1) with
        | inl e => inl e
        | inr c =>
            inr (set_daily
                   (Some (Daily.mk today v l s c
                            (Overall.score (overall this1))))
                   this1)
        end end end
    end.

  (** [addView(viewData)]: push, [updateAggregates], [save()].  What the
      method has set by then are views, counts, dates and a sentiment read
      off the document itself, which the validators of [save()] accept;
      the result is the document as saved. *)
Definition addView (clk : Clock) (viewData : ViewData.t) (this : t)
      : Error + t :=
    let view :=
      View.mk (default (now clk) (ViewData.timestamp viewData))
              (ViewData.source viewData) (ViewData.userAgent viewData) in
    updateAggregates clk (set_views (views this ++ [view]) this).

  (** What the sub-schema of a log keeps of an entry. *)
Definition asLike (data : Engagement.t) : Engagement.t :=
    Engagement.mk (Engagement.timestamp data) (Engagement.userId data)
      None None.
Definition asShare (data : Engagement.t) : Engagement.t :=
    Engagement.mk (Engagement.timestamp data) (Engagement.userId data)
      (Engagement.platform data) None.
Definition asComment (data : Engagement.t) : Engagement.t :=
    Engagement.mk (Engagement.timestamp data) (Engagement.userId data)
      None (Engagement.content data).

  (** [addEngagement(type, data)]:
      [this.metrics.engagement[type].push(data)], [updateAggregates],
      [save()], which accepts what the method has set as it does for
      [addView].  A [type] that names no sub-log reads [undefined], and
      [push] on it throws. *)
Definition addEngagement (clk : Clock) (type : string)
      (data : Engagement.t) (this : t) : Error + t :=
    if String.eqb type "likes" then
      updateAggregates clk (set_likes (likes this ++ [asLike data]) this)
    else if String.eqb type "shares" then
      updateAggregates clk (set_shares (shares this ++ [asShare data]) this)
    else if String.eqb type "comments" then
      updateAggregates clk
        (set_comments (comments this ++ [asComment data]) this)
    else inl TypeError.

  (** [allScores.reduce((a, b) => a + b) / allScores.length]. *)
Definition reduceSum (xs : list float) : Error + float :=
    match xs with
    | [] => inl TypeError
    | x :: xs' => inr (fold_left PrimFloat.add xs' x)
    end.

Definition lengthNumber {A} (xs : list A) : float :=
    PrimFloat.of_uint63 (Uint63.of_Z (Z.of_nat (length xs))).

Definition mean (xs : list float) : Error + float :=
    match reduceSum xs with
    | inl e => inl e
    | inr s => inr (PrimFloat.div s (lengthNumber xs))
    end.

  (** [updateSentiment(score, source)]: push the sample, set the overall
      score to the mean, [updateAggregates], [save()].  A [Number] path
      refuses a value that is not a number: the cast fails where the value
      is assigned, and [save()] then rejects with a validation error and
      writes nothing.  That happens for a [score] that is not a number and
      for a mean that is not one. *)
Definition updateSentiment (clk : Clock) (score : float) (source : string)
      (this : t) : Error + t :=
    let this1 :=
      set_history (history this ++ [Sample.mk (now clk) score source]) this in
    let allScores := map Sample.score (history this1) in
    match mean allScores with
    | inl e => inl e
    | inr m =>
        match updateAggregates clk
                (set_overall (Overall.mk (Some m) (Some (now clk))) this1)
        with
        | inl e => inl e
        | inr this2 =>
            if PrimFloat.is_nan score || PrimFloat.is_nan m
            then inl ValidationError
            else inr this2
        end
    end.
End Analytics.

(** ** The store and the handlers' control flow *)

Module Store.
  (** The [contents] collection keyed by [_id], and the [analytics]
      collection in insertion order. *)
Record t := mk {
    contents : gmap nat Content.t;
    analytics : list Analytics.t
  }.
Definition set_contents (v : gmap nat Content.t) (s : t) : t :=
    mk v (analytics s).
Definition set_analytics (v : list Analytics.t) (s : t) : t :=
    mk (contents s) v.
End Store.

(** A handler body between [try] and [catch (error) { next(error) }]. *)
Definition Handler (A : Type) : Type := Store.t → Store.t * (Error + A).

Definition ret {A} (a : A) : Handler A := fun s => (s, inr a).
Definition throw {A} (e : Error) : Handler A := fun s => (s, inl e).
Definition bind {A B} (m : Handler A) (k : A → Handler B) : Handler B :=
  fun s =>
    match m s with
    | (s', inl e) => (s', inl e)
    | (s', inr a) => k a s'
    end.

Notation "x <- c ;; k" := (bind c (fun x => k))
  (at level 100, c at next level, right associativity).
Notation "c ;;; k" := (bind c (fun _ => k))
  (at level 100, right associativity).

(** [if (cond) throw e]. *)
Definition throwIf (cond : bool) (e : Error) : Handler unit :=
  if cond then throw e else ret tt.

(** What the content controller reads of [req.user]: [req.user._id],
    [req.user.company._id] and (in [checkRole]) [req.user.role].

    [authenticateToken] sets [req.user] to a document of the [User] model,
    whose [company] holds a name and a position and no [_id]: for every
    account the router serves, [req.user.company._id] reads [undefined],
    which is [None] here.  [Some id] is an account object whose company
    carries an [_id], the kind the handlers are written for. *)
Module ReqUser.
Record t := mk {
  _id : ObjectId;
  company : option ObjectId;
  role : string
}.

(** The condition [{ company: req.user.company._id }] of a query filter,
    on a stored artifact's company: [undefined] matches no artifact, the
    path being [required]. *)
Definition ofCompany (user : t) (company : ObjectId) : bool :=
  match ReqUser.company user with
  | Some id => Nat.eqb company id
  | None => false
  end.
End ReqUser.

(** A string read where JavaScript tests it for truthiness: absent and
    empty are both false. *)
Definition truthy (o : option string) : bool :=
  match o with
  | Some s => negb (String.eqb s "")
  | None => false
  end.

(** ** Model statics and methods that reach the store *)

Module ContentDb.
  (** [Content.findById(id)]. *)
Definition findById (id : ObjectId) : Handler (option Content.t) :=
    fun s => (s, inr (Store.contents s !! id)).

  (** [doc.save()]: validate, then write the document under its [_id]. *)
Definition save (c : Content.t) : Handler Content.t :=
    fun s =>
      if Content.validate c
      then (Store.set_contents (<[Content._id c := c]> (Store.contents s)) s,
            inr c)
      else (s, inl ValidationError).

  (** [contentSchema.methods.addRevision]. *)
Definition addRevision (clk : Clock) (userId : ObjectId)
      (newContent changeLog : string) (this : Content.t)
      : Handler Content.t :=
    save (Content.pushRevision (now clk) userId newContent changeLog this).

  (** The documents of the collection, for [find] and [countDocuments]. *)
Definition all (s : Store.t) : list Content.t :=
    (map_to_list (Store.contents s)).*2.
End ContentDb.

Module AnalyticsDb.
  (** [Analytics.findOneAndUpdate({ contentId }, { $push: { 'metrics.views':
      view } })]: the first document that matches gets the view appended;
      nothing else of it is touched, and no document method runs. *)
Fixpoint pushView (contentId : ObjectId) (view : View.t)
      (docs : list Analytics.t) : list Analytics.t :=
    match docs with
    | [] => []
    | a :: docs' =>
        if Nat.eqb (Analytics.contentId a) contentId
        then Analytics.set_views (Analytics.views a ++ [view]) a :: docs'
        else a :: pushView contentId view docs'
    end.

Definition findOneAndUpdate_pushView (contentId : ObjectId) (view : View.t)
      : Handler unit :=
    fun s =>
      (Store.set_analytics (pushView contentId view (Store.analytics s)) s,
       inr tt).

  (** [Analytics.getByDateRange]: [findOne({ contentId })
      .select('timeSeriesData').where('timeSeriesData.date').gte(startDate)
      .lte(endDate)].  A range condition on an array path holds when some
      element meets each bound. *)
Definition inRange (startDate endDate : Date) (a : Analytics.t) : bool :=
    existsb (fun d => Z.leb startDate (DayMetrics.date d))
            (Analytics.timeSeriesData a)
    && existsb (fun d => Z.leb (DayMetrics.date d) endDate)
               (Analytics.timeSeriesData a).

Definition getByDateRange (contentId : ObjectId) (startDate endDate : Date)
      : Handler (option (list DayMetrics.t)) :=
    fun s =>
      (s, inr (Analytics.timeSeriesData <$>
                 List.find (fun a => Nat.eqb (Analytics.contentId a) contentId
                                     && inRange startDate endDate a)
                           (Store.analytics s))).
End AnalyticsDb.

(** ** The content controller ([controllers/contentController.js]) *)

(** What a handler hands to [res.json]. *)
Inductive Response :=
| RContent (message : option string) (content : Content.t)
| RList (contents : list Content.t) (page limit : Z) (total : nat)
        (pages : option Z)
| RMessage (message : string)
| RAnalytics (timeSeriesData : list DayMetrics.t)
| RVersions (versions : list Revision.t)
| RVersion (version : Revision.t)
| RCount (message : string) (count : nat).

Module ContentController.
Import ContentDb.

Definition notFound : Error := APIError "Content not found" 404.
Definition unauthorized : Error := APIError "Unauthorized" 403.

  (** [const content = await Content.findById(id);
      if (!content) throw new APIError('Content not found', 404);]. *)
Definition load (id : ObjectId) : Handler Content.t :=
    o <- findById id ;;
    match o with
    | None => throw notFound
    | Some c => ret c
    end.

  (** [// Check ownership]: the caller must be the author. *)
Definition checkOwnership (user : ReqUser.t) (c : Content.t)
      : Handler unit :=
    throwIf (negb (Nat.eqb (Content.author c) (ReqUser._id user)))
            unauthorized.

  (** [// Check company access]: [content.company.toString() !==
      req.user.company._id.toString()].  Reading [toString] off
      [undefined] throws. *)
Definition checkCompany (user : ReqUser.t) (c : Content.t)
      : Handler unit :=
    match ReqUser.company user with
    | None => throw TypeError
    | Some company =>
        throwIf (negb (Nat.eqb (Content.company c) company)) unauthorized
    end.

  (** [improveContent].  [improve] stands for [aiService.improveContent],
      an outbound call: [None] is its failure, which it rethrows as a 500
      [APIError]. *)
Definition improveContent (clk : Clock)
      (improve : string → string → option string)
      (user : ReqUser.t) (contentId : ObjectId) (feedback : string)
      : Handler Response :=
    content <- load contentId ;;
    checkOwnership user content ;;;
    match improve (Content.content content) feedback with
    | None => throw (APIError "Error improving content" 500)
    | Some improvedContent =>
        content <- addRevision clk (ReqUser._id user) improvedContent
                     ("Improved based on feedback: " +:+ feedback) content ;;
        ret (RContent (Some "Content improved successfully") content)
    end.

  (** The query of [listContent] and of [countDocuments]. *)
Definition matchesList (user : ReqUser.t) (type status : option string)
      (c : Content.t) : bool :=
    ReqUser.ofCompany user (Content.company c)
    && negb (Content.isArchived c)
    && (if truthy type
        then String.eqb (Content.type c) (default "" type) else true)
    && (if truthy status
        then String.eqb (Content.status c) (default "" status) else true).

  (** [.sort({ createdAt: -1 })]. *)
Definition newestFirst (a b : Content.t) : Prop :=
    Content.createdAt b ≤ Content.createdAt a.
#[global] Instance newestFirst_dec : RelDecision newestFirst :=
    fun a b => decide (Content.createdAt b ≤ Content.createdAt a).

  (** A cursor's [skip(n)] and [limit(n)]: a negative skip is refused by the
      server, a limit of zero is no limit, a negative limit counts as its
      absolute value. *)
Definition cursorLimit {A} (n : Z) (l : list A) : list A :=
    if Z.eqb n 0 then l else take (Z.to_nat (Z.abs n)) l.

Definition listContent (user : ReqUser.t) (type status : option string)
      (page limit : Z) : Handler Response :=
    fun s =>
      let matching := List.filter (matchesList user type status) (all s) in
      let skip := (page - 1) * limit in
      if Z.ltb skip 0
      then (s, inl MongoError)
      else
        let contents :=
          cursorLimit limit
            (drop (Z.to_nat skip) (merge_sort newestFirst matching)) in
        let total := length matching in
        (s, inr (RList contents page limit total
                   (if Z.eqb limit 0 then None
                    else Some (- ((- Z.of_nat total) / limit))))).

  (** [getContent]: the view is appended with [findOneAndUpdate]. *)
Definition getContent (clk : Clock) (user : ReqUser.t) (id : ObjectId)
      (userAgent : option string) : Handler Response :=
    content <- load id ;;
    checkCompany user content ;;;
    AnalyticsDb.findOneAndUpdate_pushView (Content._id content)
      (View.mk (now clk) (Some "api") userAgent) ;;;
    ret (RContent None content).

  (** [updateContent]; [newContent] and [status] are [req.body.content]
      and [req.body.status]. *)
Definition updateContent (clk : Clock) (user : ReqUser.t) (id : ObjectId)
      (newContent : string) (status : option string) : Handler Response :=
    content <- load id ;;
    checkOwnership user content ;;;
    content <- addRevision clk (ReqUser._id user) (Content.content content)
                 "Manual update" content ;;
    let content := Content.set_content newContent content in
    let content :=
      if truthy status
      then Content.set_status (default "" status) content else content in
    content <- save content ;;
    ret (RContent (Some "Content updated successfully") content).

  (** [deleteContent]. *)
Definition deleteContent (user : ReqUser.t) (id : ObjectId)
      : Handler Response :=
    content <- load id ;;
    checkOwnership user content ;;;
    save (Content.set_isArchived true content) ;;;
    ret (RMessage "Content archived successfully").

  (** [publishContent]. *)
Definition publishedChannels (clk : Clock) (channels : list string)
      : list Channel.t :=
    map (fun channel => Channel.mk channel "published" (Some (now clk)))
        channels.

Definition publishContent (clk : Clock) (user : ReqUser.t) (id : ObjectId)
      (channels : list string) : Handler Response :=
    content <- load id ;;
    checkOwnership user content ;;;
    let content :=
      Content.set_channels (publishedChannels clk channels) content in
    let content := Content.set_status "published" content in
    content <- save content ;;
    ret (RContent (Some "Content published successfully") content).

  (** [scheduleContent]; [publishAt] is [new Date(req.body.publishAt)],
      [None] when that is an invalid date, which [save()] refuses. *)
Definition scheduleContent (user : ReqUser.t) (id : ObjectId)
      (publishAt : option Date) (timezone : string) (channels : list string)
      : Handler Response :=
    content <- load id ;;
    checkOwnership user content ;;;
    match publishAt with
    | None => throw ValidationError
    | Some at_ =>
        let content :=
          Content.set_schedule (Some (Schedule.mk at_ timezone)) content in
        let content :=
          Content.set_channels
            (map (fun channel => Channel.mk channel "pending" None) channels)
            content in
        content <- save content ;;
        ret (RContent (Some "Content scheduled successfully") content)
    end.

  (** [getContentAnalytics]; the dates are the parsed query parameters. *)
Definition getContentAnalytics (clk : Clock) (id : ObjectId)
      (startDate endDate : option Date) : Handler Response :=
    analytics <- AnalyticsDb.getByDateRange id
                   (default (now clk - 30 * 24 * 60 * 60 * 1000) startDate)
                   (default (now clk) endDate) ;;
    match analytics with
    | None => throw (APIError "Analytics not found" 404)
    | Some ts => ret (RAnalytics ts)
    end.

  (** [getContentVersions]. *)
Definition getContentVersions (id : ObjectId) : Handler Response :=
    content <- load id ;;
    ret (RVersions (Content.revisions content)).

  (** [content.revisions.find(rev => rev.version ===
      parseInt(req.params.version))]; [version] is the value of the
      [parseInt], [None] for [NaN], which no version equals. *)
Definition findVersion (version : option Z) (c : Content.t)
      : option Revision.t :=
    match version with
    | None => None
    | Some n =>
        List.find (fun rev => Z.eqb (Revision.version rev) n)
                  (Content.revisions c)
    end.

Definition versionNotFound : Error := APIError "Version not found" 404.

  (** [getContentVersion]. *)
Definition getContentVersion (id : ObjectId) (version : option Z)
      : Handler Response :=
    content <- load id ;;
    match findVersion version content with
    | None => throw versionNotFound
    | Some v => ret (RVersion v)
    end.

  (** [restoreContentVersion]; [rawVersion] is [req.params.version] as
      written, [version] its [parseInt]. *)
Definition restoreContentVersion (clk : Clock) (user : ReqUser.t)
      (id : ObjectId) (rawVersion : string) (version : option Z)
      : Handler Response :=
    content <- load id ;;
    match findVersion version content with
    | None => throw versionNotFound
    | Some v =>
        content <- addRevision clk (ReqUser._id user)
                     (Content.content content)
                     ("Restored to version " +:+ rawVersion) content ;;
        let content := Content.set_content (Revision.content v) content in
        content <- save content ;;
        ret (RContent (Some "Content version restored successfully") content)
    end.

  (** The filter of the two bulk operations. *)
Definition matchesBulk (user : ReqUser.t) (contentIds : list ObjectId)
      (c : Content.t) : bool :=
    bool_decide (Content._id c ∈ contentIds)
    && ReqUser.ofCompany user (Content.company c).

  (** [Promise.all(contents.map(async content => { ...; return
      content.save(); }))]: every save is started; the first rejection is
      the one thrown. *)
Fixpoint saveAll (cs : list Content.t) : Handler unit :=
    match cs with
    | [] => ret tt
    | c :: cs' =>
        fun s =>
          match save c s with
          | (s1, inl e) => (fst (saveAll cs' s1), inl e)
          | (s1, inr _) => saveAll cs' s1
          end
    end.

  (** [bulkPublishContent]. *)
Definition bulkPublishContent (clk : Clock) (user : ReqUser.t)
      (contentIds : list ObjectId) (channels : list string)
      : Handler Response :=
    fun s =>
      let contents := List.filter (matchesBulk user contentIds) (all s) in
      match contents with
      | [] => (s, inl (APIError "No content found" 404))
      | _ =>
          (saveAll
             (map (fun content =>
                     Content.set_status "published"
                       (Content.set_channels (publishedChannels clk channels)
                          content))
                  contents) ;;;
           ret (RCount "Contents published successfully" (length contents))) s
      end.

  (** [bulkArchiveContent]: [updateMany] with [$set: { isArchived: true }];
      the count is [modifiedCount].  The schema has [timestamps: true], so
      the update also sets [updatedAt] to the time of the call on every
      document it matches, and each of them counts as modified, archived
      before or not.  The embedding does not keep [updatedAt]. *)
Definition bulkArchiveContent (user : ReqUser.t)
      (contentIds : list ObjectId) : Handler Response :=
    fun s =>
      let hit c := matchesBulk user contentIds c in
      let modified := List.filter hit (all s) in
      (Store.set_contents
         ((fun c => if hit c then Content.set_isArchived true c else c)
            <$> Store.contents s) s,
       inr (RCount "Contents archived successfully" (length modified))).
End ContentController.

(** ** The content routes ([routes/content.js])

    A request after [authenticateToken], as the router dispatches it, for
    thirteen of the sixteen routes: [POST /generate], [POST
    /:id/figma/sync] and [GET /:id/figma/elements] are not covered.  An id
    in a request is a well-formed ObjectId.  The [express-validator]
    chains of the routes only record their findings; no handler below
    reads them, so they do not appear. *)
Inductive Request :=
| Improve (contentId : ObjectId) (feedback : string)
| ListContent (type status : option string) (page limit : Z)
| GetContent (id : ObjectId) (userAgent : option string)
| UpdateContent (id : ObjectId) (content : string) (status : option string)
| DeleteContent (id : ObjectId)
| PublishContent (id : ObjectId) (channels : list string)
| ScheduleContent (id : ObjectId) (publishAt : option Date)
    (timezone : string) (channels : list string)
| GetContentAnalytics (id : ObjectId) (startDate endDate : option Date)
| GetContentVersions (id : ObjectId)
| GetContentVersion (id : ObjectId) (version : option Z)
| RestoreContentVersion (id : ObjectId) (rawVersion : string)
    (version : option Z)
| BulkPublish (contentIds : list ObjectId) (channels : list string)
| BulkArchive (contentIds : list ObjectId).

(** [checkRole(roles)]. *)
Definition checkRole (roles : list string) (user : ReqUser.t)
    : Handler unit :=
  throwIf (negb (bool_decide (ReqUser.role user ∈ roles)))
          (APIError "Unauthorized access" 403).

(** [POST /bulk/publish] never reaches [bulkPublishContent]: the router
    tries its routes in the order they were added, and [POST /:id/publish],
    added before, matches the path with [id = "bulk"].  [publishContent]
    then asks [Content.findById("bulk")], which rejects with a
    [CastError], and nothing is read or written. *)
Definition publishBulk : Handler Response := throw CastError.

Definition route (clk : Clock) (improve : string → string → option string)
    (user : ReqUser.t) (req : Request) : Handler Response :=
  match req with
  | Improve contentId feedback =>
      ContentController.improveContent clk improve user contentId feedback
  | ListContent type status page limit =>
      ContentController.listContent user type status page limit
  | GetContent id userAgent =>
      ContentController.getContent clk user id userAgent
  | UpdateContent id content status =>
      ContentController.updateContent clk user id content status
  | DeleteContent id => ContentController.deleteContent user id
  | PublishContent id channels =>
      ContentController.publishContent clk user id channels
  | ScheduleContent id publishAt timezone channels =>
      ContentController.scheduleContent user id publishAt timezone channels
  | GetContentAnalytics id startDate endDate =>
      ContentController.getContentAnalytics clk id startDate endDate
  | GetContentVersions id => ContentController.getContentVersions id
  | GetContentVersion id version =>
      ContentController.getContentVersion id version
  | RestoreContentVersion id rawVersion version =>
      ContentController.restoreContentVersion clk user id rawVersion version
  | BulkPublish contentIds channels => publishBulk
  | BulkArchive contentIds =>
      checkRole ["admin"] user ;;;
      ContentController.bulkArchiveContent user contentIds
  end.

(** ** Plain JavaScript values

    What [JSON.parse] returns and what Mongoose's [toObject()] returns: an
    object keeps its keys in insertion order, and a [Date] (which only
    [toObject()] produces) is kept apart from a number.  A JSON number is
    the rational it denotes, so that the two zeros, which [JSON.stringify]
    prints alike, are one value. *)
Inductive jsval :=
| VNull
| VBool (b : bool)
| VNum (q : Qc)
| VStr (s : string)
| VDate (d : Date)
| VArr (items : list jsval)
| VObj (members : list (string * jsval)).

(** Equality of plain values is equality of their [JSON.stringify]
    renderings: member by member, in key order. *)
Fixpoint jsval_eqb (a b : jsval) : bool :=
  match a, b with
  | VNull, VNull => true
  | VBool x, VBool y => Bool.eqb x y
  | VNum x, VNum y => Qc_eq_bool x y
  | VStr x, VStr y => String.eqb x y
  | VDate x, VDate y => Z.eqb x y
  | VArr xs, VArr ys =>
      (fix each (xs ys : list jsval) : bool :=
         match xs, ys with
         | [], [] => true
         | x :: xs', y :: ys' => jsval_eqb x y && each xs' ys'
         | _, _ => false
         end) xs ys
  | VObj xs, VObj ys =>
      (fix each (xs ys : list (string * jsval)) : bool :=
         match xs, ys with
         | [], [] => true
         | (k, x) :: xs', (k', y) :: ys' =>
             String.eqb k k' && jsval_eqb x y && each xs' ys'
         | _, _ => false
         end) xs ys
  | _, _ => false
  end.

(** Induction on plain values, through arrays and objects. *)
Lemma jsval_nested_ind (P : jsval → Prop) :
  P VNull → (∀ b, P (VBool b)) → (∀ q, P (VNum q)) → (∀ s, P (VStr s)) →
  (∀ d, P (VDate d)) →
  (∀ items, Forall P items → P (VArr items)) →
  (∀ members, Forall (fun kv => P (snd kv)) members → P (VObj members)) →
  ∀ v, P v.
Proof.
  intros Hnull Hbool Hnum Hstr Hdate Harr Hobj.
  fix IH 1. intros [|b|q|s|d|items|members].
  - exact Hnull.
  - apply Hbool.
  - apply Hnum.
  - apply Hstr.
  - apply Hdate.
  - apply Harr. induction items as [|x items IHl]; constructor.
    + apply IH.
    + exact IHl.
  - apply Hobj. induction members as [|[k x] members IHl]; constructor.
    + apply IH.
    + exact IHl.
Qed.

Lemma jsval_eqb_eq a b : jsval_eqb a b = true ↔ a = b.
Proof.
  revert b.
  induction a as [|x|x|x|x|xs IH|xs IH] using jsval_nested_ind;
    intros [|y|y|y|y|ys|ys]; simpl;
    try (split; [discriminate|intros [=]]); try (split; reflexivity).
  - rewrite Bool.eqb_true_iff. split; congruence.
  - split; [intros H; f_equal; by apply Qc_eq_bool_correct|].
    intros E. injection E as E. unfold Qc_eq_bool.
    destruct (Qcanon.Qc_eq_dec x y); congruence.
  - rewrite String.eqb_eq. split; congruence.
  - rewrite Z.eqb_eq. split; congruence.
  - revert ys. induction IH as [|x xs Hx _ IHl]; intros [|y ys];
      try (split; [discriminate|intros [=]]); try (split; reflexivity).
    rewrite andb_true_iff, Hx, IHl. split.
    + intros [-> [= ->]]. reflexivity.
    + intros [= -> ->]. auto.
  - revert ys. induction IH as [|[k x] xs Hx _ IHl]; intros [|[k' y] ys];
      try (split; [discriminate|intros [=]]); try (split; reflexivity).
    simpl in Hx.
    rewrite !andb_true_iff, String.eqb_eq, Hx, IHl. split.
    + intros [[-> ->] [= ->]]. reflexivity.
    + intros [= -> -> ->]. auto.
Qed.

#[global] Instance jsval_eq_decision : EqDecision jsval :=
  fun a b =>
    match jsval_eqb a b as r return jsval_eqb a b = r → Decision (a = b) with
    | true => fun H => left (proj1 (jsval_eqb_eq a b) H)
    | false =>
        fun H => right (fun E =>
                   Bool.diff_false_true
                     (eq_trans (eq_sym H) (proj2 (jsval_eqb_eq a b) E)))
    end eq_refl.

(** Every key that occurs in a value, at any depth. *)
Fixpoint keysOf (v : jsval) : list string :=
  match v with
  | VArr items => flat_map keysOf items
  | VObj members => flat_map (fun kv => fst kv :: keysOf (snd kv)) members
  | _ => []
  end.

(** [JSON.parse(JSON.stringify(v))] for a plain value [v]: a [Date] comes
    back as the string [toISOString] gave. *)
Fixpoint reparse (toISOString : Date → string) (v : jsval) : jsval :=
  match v with
  | VDate d => VStr (toISOString d)
  | VArr items => VArr (map (reparse toISOString) items)
  | VObj members =>
      VObj (map (fun kv => (fst kv, reparse toISOString (snd kv))) members)
  | _ => v
  end.

(** ** The [User] model ([models/User.js]) *)

Module FigmaIntegration.
Record t := mk {
  accessToken : option string;
  refreshToken : option string;
  tokenExpiry : option Date;
  lastSync : option Date
}.
End FigmaIntegration.

Module User.
Record t := mk {
  _id : ObjectId;
  email : string;
  password : option string;
  name : string;
  role : string;
  company_name : string;
  company_position : option string;
  tone : string;
  language : string;
  notify_email : bool;
  notify_contentGeneration : bool;
  notify_figmaSync : bool;
  figmaIntegration : option FigmaIntegration.t;
  apiKey : option string;
  lastLogin : option Date;
  isActive : bool;
  createdAt : Date;
  updatedAt : Date
}.

(** An optional path appears in the plain object only when it is set. *)
Definition field (k : string) (o : option jsval) : list (string * jsval) :=
  match o with
  | Some v => [(k, v)]
  | None => []
  end.

Definition figmaObject (f : FigmaIntegration.t) : jsval :=
  VObj (field "accessToken" (VStr <$> FigmaIntegration.accessToken f)
        ++ field "refreshToken" (VStr <$> FigmaIntegration.refreshToken f)
        ++ field "tokenExpiry" (VDate <$> FigmaIntegration.tokenExpiry f)
        ++ field "lastSync" (VDate <$> FigmaIntegration.lastSync f)).

(** [this.toObject()]: the document as a plain object, one key per schema
    path that holds a value, the [_id] as the number that stands for it.
    [password] is absent on a document that was loaded with
    [select('-password')]. *)
Definition toObject (u : t) : gmap string jsval :=
  list_to_map
    ([("_id", VNum (Q2Qc (inject_Z (Z.of_nat (_id u)))));
      ("email", VStr (email u))]
     ++ field "password" (VStr <$> password u)
     ++ [("name", VStr (name u));
         ("role", VStr (role u));
         ("company",
          VObj ([("name", VStr (company_name u))]
                ++ field "position" (VStr <$> company_position u)));
         ("settings",
          VObj [("contentPreferences",
                 VObj [("tone", VStr (tone u));
                       ("language", VStr (language u))]);
                ("notifications",
                 VObj [("email", VBool (notify_email u));
                       ("contentGeneration",
                        VBool (notify_contentGeneration u));
                       ("figmaSync", VBool (notify_figmaSync u))])])]
     ++ field "figmaIntegration" (figmaObject <$> figmaIntegration u)
     ++ field "apiKey" (VStr <$> apiKey u)
     ++ field "lastLogin" (VDate <$> lastLogin u)
     ++ [("isActive", VBool (isActive u));
         ("createdAt", VDate (createdAt u));
         ("updatedAt", VDate (updatedAt u))]).

(** The three [delete]s of [toJSON]. *)
Definition deleteSensitive (obj : gmap string jsval) : gmap string jsval :=
  delete "figmaIntegration" (delete "apiKey" (delete "password" obj)).

(** [userSchema.methods.toJSON]. *)
Definition toJSON (u : t) : gmap string jsval :=
  deleteSensitive (toObject u).
End User.

(** What may happen to a serialized account afterwards: the JSON text is
    parsed and printed again, or the object is serialized through [toJSON]'s
    deletions once more. *)
Inductive Pass := Reparse | Reserialize.

Definition runPass (toISOString : Date → string) (p : Pass)
    (obj : gmap string jsval) : gmap string jsval :=
  match p with
  | Reparse => reparse toISOString <$> obj
  | Reserialize => User.deleteSensitive obj
  end.

Definition runPasses (toISOString : Date → string) (ps : list Pass)
    (obj : gmap string jsval) : gmap string jsval :=
  fold_left (fun o p => runPass toISOString p o) ps obj.

(** The names under which an account keeps its credential hash, its API
    key and its design-tool tokens. *)
Definition sensitiveKeys : list string :=
  ["password"; "apiKey"; "figmaIntegration"; "accessToken"; "refreshToken"].

(** ** The AI service ([utils/aiService.js]) *)

Module AIService.

(** [this.promptTemplates], character for character. *)
Definition template_blog : string :=
  "Write a professional blog post about {topic}. 
                  Tone: {tone}
                  Target audience: {audience}
                  Key points to cover: {points}".

Definition template_social_post : string :=
  "Create a engaging social media post about {topic}.
                         Platform: {platform}
                         Tone: {tone}
                         Include hashtags: {hashtags}".

Definition template_email : string :=
  "Write a {type} email about {topic}.
                    Tone: {tone}
                    Target audience: {audience}
                    Call to action: {cta}".

Definition template_design_doc : string :=
  "Create a detailed design documentation for {topic}.
                        Include sections for:
                        - Overview
                        - Technical specifications
                        - Implementation details
                        - Design considerations".

Definition template_changelog : string :=
  "Write a changelog entry for {topic}.
                       Type: {type}
                       Version: {version}
                       Include sections for:
                       - New features
                       - Improvements
                       - Bug fixes".

Definition template_internal_comm : string :=
  "Create an internal communication about {topic}.
                          Type: {type}
                          Audience: {audience}
                          Key message: {message}".

Definition promptTemplates (type : string) : option string :=
  if String.eqb type "blog" then Some template_blog
  else if String.eqb type "social_post" then Some template_social_post
  else if String.eqb type "email" then Some template_email
  else if String.eqb type "design_doc" then Some template_design_doc
  else if String.eqb type "changelog" then Some template_changelog
  else if String.eqb type "internal_comm" then Some template_internal_comm
  else None.

(** *** Text replacement

    [text.replace(new RegExp(pattern, 'g'), replacement)] for a pattern
    that stands for itself and a replacement that holds no [$]: every
    occurrence, found from left to right without overlap, gives way to the
    replacement.  Strings are handled as their lists of characters.  For
    a pattern with characters special to [RegExp], or a replacement with
    a dollar sign, which [replace] reads as a reference to the match, the
    function is not what the code computes: the properties that read a
    replaced text are stated for plain keys and values free of dollar
    signs. *)
Fixpoint isPrefix (p s : list ascii) : bool :=
  match p, s with
  | [], _ => true
  | _ :: _, [] => false
  | a :: p', b :: s' => Ascii.eqb a b && isPrefix p' s'
  end.

(** [skip] counts the characters of a match that are still to be passed
    over. *)
Fixpoint replaceAllFrom (pat rep : list ascii) (skip : nat)
    (s : list ascii) : list ascii :=
  match s with
  | [] => []
  | c :: s' =>
      match skip with
      | S k => replaceAllFrom pat rep k s'
      | O =>
          if isPrefix pat s
          then rep ++ replaceAllFrom pat rep (length pat - 1) s'
          else c :: replaceAllFrom pat rep 0 s'
      end
  end.

Definition replaceAll (pat rep s : string) : string :=
  string_of_list_ascii
    (replaceAllFrom (list_ascii_of_string pat) (list_ascii_of_string rep) 0
       (list_ascii_of_string s)).

(** [s.includes(needle)]. *)
Fixpoint includesFrom (needle s : list ascii) : bool :=
  isPrefix needle s
  || match s with
     | [] => false
     | _ :: s' => includesFrom needle s'
     end.

Definition includes (s needle : string) : bool :=
  includesFrom (list_ascii_of_string needle) (list_ascii_of_string s).

(** *** Keys as regular expressions

    [formatPrompt] builds the pattern as [{key}] and hands it to [RegExp]
    unescaped.  Between braces, digits with an optional comma and more
    digits are a quantifier with nothing before it to repeat, which
    [RegExp] refuses with a [SyntaxError]; any other key free of the
    characters that are special to [RegExp] makes a pattern that matches
    the text [{key}] and nothing else.  Keys that hold special characters
    are beyond what the embedding covers: it treats them as literal too. *)
Definition isDigit (c : ascii) : bool :=
  let n := nat_of_ascii c in (48 <=? n)%nat && (n <=? 57)%nat.

Definition regexSpecial (c : ascii) : bool :=
  bool_decide (c ∈ list_ascii_of_string "\^$.|?*+()[]{}").

Fixpoint allDigits (s : list ascii) : bool :=
  match s with
  | [] => true
  | c :: s' => isDigit c && allDigits s'
  end.

(** After the first digits of a quantifier: more digits, then the end, or
    a comma and digits to the end. *)
Fixpoint quantifierTail (s : list ascii) : bool :=
  match s with
  | [] => true
  | c :: s' =>
      if isDigit c then quantifierTail s'
      else Ascii.eqb c "," && allDigits s'
  end.

Definition isQuantifier (key : string) : bool :=
  match list_ascii_of_string key with
  | [] => false
  | c :: s' => isDigit c && quantifierTail s'
  end.

Definition plainKey (key : string) : bool :=
  forallb (fun c => negb (regexSpecial c)) (list_ascii_of_string key).

Definition placeholder (key : string) : string := "{" +:+ key +:+ "}".

(** [formatPrompt(type, params)]; [params] lists the object's keys in
    [Object.keys] order, each with its value as [replace] renders it.  A
    type without a template reads [undefined], on which the first [replace]
    throws; with no key at all [undefined] is what is returned. *)
Definition formatStep (template : Error + option string)
    (kv : string * string) : Error + option string :=
  match template with
  | inl e => inl e
  | inr None => inl TypeError
  | inr (Some t) =>
      if isQuantifier (fst kv) then inl SyntaxError
      else inr (Some (replaceAll (placeholder (fst kv)) (snd kv) t))
  end.

Definition formatPrompt (type : string) (params : list (string * string))
    : Error + option string :=
  fold_left formatStep params (inr (promptTemplates type)).

(** The outcome of [this.openai.chat.completions.create]: a completion
    with its text and token count, an error that carries a [response],
    with the message at [response.data.error.message] if there is one to
    read, or any other failure, a completion without choices or usage
    included. *)
Inductive Completion :=
| Completed (content : string) (total_tokens : nat)
| ErrorResponse (message : option string)
| Failure.

Module Generated.
Record t := mk {
  content : string;
  prompt : option string;
  aiModel : string;
  total_tokens : nat
}.
End Generated.

(** [generateContent(type, params)].  [create] stands for the outbound
    call, given the prompt; the merged generation parameters and the
    processing time, which no property below reads, are left out. *)
Definition generateContent (create : option string → Completion)
    (type : string) (params : list (string * string))
    : Error + Generated.t :=
  match formatPrompt type params with
  | inl _ => inl (APIError "Error generating content" 500)
  | inr prompt =>
      match create prompt with
      | Completed content tokens =>
          inr (Generated.mk content prompt "gpt-4" tokens)
      | ErrorResponse (Some message) =>
          inl (APIError ("OpenAI API Error: " +:+ message) 503)
      | ErrorResponse None => inl TypeError
      | Failure => inl (APIError "Error generating content" 500)
      end
  end.

End AIService.

(** ** The Figma service ([utils/figmaService.js]) *)

Module Color.
Record t := mk { r : float; g : float; b : float }.
End Color.

Module Fill.
(** An element of [node.fills]; only a solid fill is read for its colour. *)
Record t := mk { type : string; color : option Color.t }.
End Fill.

Module Typography.
(** The object [traverseNodes] builds from [node.style]; a field the style
    lacks is [undefined], and [JSON.stringify] leaves its key out. *)
Record t := mk {
  fontFamily : option jsval;
  fontSize : option jsval;
  fontWeight : option jsval;
  lineHeight : option jsval
}.
#[global] Instance eq_dec : EqDecision t.
Proof.
  intros [a b c d] [a' b' c' d'].
  destruct (decide (a = a')) as [Ha|Ha]; [|right; congruence].
  destruct (decide (b = b')) as [Hb|Hb]; [|right; congruence].
  destruct (decide (c = c')) as [Hc|Hc]; [|right; congruence].
  destruct (decide (d = d')) as [Hd|Hd]; [|right; congruence].
  left. congruence.
Defined.
End Typography.

Module Spacing.
(** The [padding] object built when [node.paddingTop] is defined. *)
Record t := mk {
  top : jsval;
  right : option jsval;
  bottom : option jsval;
  left : option jsval
}.
#[global] Instance eq_dec : EqDecision t.
Proof.
  intros [a b c d] [a' b' c' d'].
  destruct (decide (a = a')) as [Ha|Ha]; [|right; congruence].
  destruct (decide (b = b')) as [Hb|Hb]; [|right; congruence].
  destruct (decide (c = c')) as [Hc|Hc]; [|right; congruence].
  destruct (decide (d = d')) as [Hd|Hd]; [|right; congruence].
  left. congruence.
Defined.
End Spacing.

Module Props.
(** The properties of a node that [traverseNodes] reads; [None] is a
    property the node lacks. *)
Record t := mk {
  fills : option (list Fill.t);
  style : option Typography.t;
  paddingTop : option jsval;
  paddingRight : option jsval;
  paddingBottom : option jsval;
  paddingLeft : option jsval;
  effects : option (list jsval)
}.
End Props.

(** A node of the file's document tree. *)
Inductive node :=
| Node (props : Props.t) (children : option (list node)).

Module Tokens.
(** The four [Set]s, each as the list of its members in insertion order. *)
Record t := mk {
  colors : list string;
  typography : list Typography.t;
  spacing : list Spacing.t;
  effects : list jsval
}.
Definition empty : t := mk [] [] [] [].
Definition set_colors (v : list string) (k : t) : t :=
  mk v (typography k) (spacing k) (effects k).
Definition set_typography (v : list Typography.t) (k : t) : t :=
  mk (colors k) v (spacing k) (effects k).
Definition set_spacing (v : list Spacing.t) (k : t) : t :=
  mk (colors k) (typography k) v (effects k).
Definition set_effects (v : list jsval) (k : t) : t :=
  mk (colors k) (typography k) (spacing k) v.
End Tokens.

Module FigmaService.

(** [Set.prototype.add]: a member already present is not added again. *)
Definition setAdd {A} `{EqDecision A} (x : A) (s : list A) : list A :=
  if decide (x ∈ s) then s else s ++ [x].

(** *** [rgbToHex] *)

(** [Math.round] of a number: not a number, an infinity, or an integer
    (the nearest one, a tie going up). *)
Inductive Rounded := RNaN | RPosInf | RNegInf | RInt (z : Z).

Definition Math_round (x : float) : Rounded :=
  match Prim2SF x with
  | S754_nan => RNaN
  | S754_infinity s => if s then RNegInf else RPosInf
  | S754_zero _ => RInt 0
  | S754_finite s m e =>
      let v := if s then Z.neg m else Z.pos m in
      RInt (if Z.leb 0 e then v * 2 ^ e
            else (2 * v + 2 ^ (- e)) / 2 ^ (- e + 1))
  end.

(** [ToInt32], which [<<] applies to its left operand and to its result. *)
Definition wrap32 (z : Z) : Z := (z + 2 ^ 31) mod 2 ^ 32 - 2 ^ 31.

Definition toInt32 (x : Rounded) : Z :=
  match x with
  | RInt z => wrap32 z
  | _ => 0
  end.

(** [x << k]. *)
Definition shiftLeft (x : Rounded) (k : Z) : Z :=
  wrap32 (Z.shiftl (toInt32 x) k).

(** [n.toString(16)] for an integer [n]. *)
Definition toString16 (n : Z) : string :=
  match n with
  | Z0 => "0"
  | Zpos p => HexString.Raw.of_pos p ""
  | Zneg p => String "-" (HexString.Raw.of_pos p "")
  end.

(** [s.slice(1)]. *)
Definition slice1 (s : string) : string :=
  match s with
  | EmptyString => EmptyString
  | String _ s' => s'
  end.

(** [rgbToHex(color)].  The sum is exact as long as the blue channel
    stays below 2^52 in size, far beyond any colour. *)
Definition rgbToHex (color : Color.t) : string :=
  let r := Math_round (PrimFloat.mul (Color.r color) 255%float) in
  let g := Math_round (PrimFloat.mul (Color.g color) 255%float) in
  let b := Math_round (PrimFloat.mul (Color.b color) 255%float) in
  let high := Z.shiftl 1 24 + shiftLeft r 16 + shiftLeft g 8 in
  "#" +:+ slice1 match b with
                 | RInt z => toString16 (high + z)
                 | RNaN => "NaN"
                 | RPosInf => "Infinity"
                 | RNegInf => "-Infinity"
                 end.

(** *** [extractDesignTokens] *)

(** [node.fills.forEach(fill => { if (fill.type === 'SOLID')
    tokens.colors.add(this.rgbToHex(fill.color)); })]; a solid fill
    without a colour makes [rgbToHex] read [r] off [undefined]. *)
Fixpoint addFills (fills : list Fill.t) (colors : list string)
    : Error + list string :=
  match fills with
  | [] => inr colors
  | fill :: fills' =>
      if String.eqb (Fill.type fill) "SOLID" then
        match Fill.color fill with
        | None => inl TypeError
        | Some c => addFills fills' (setAdd (rgbToHex c) colors)
        end
      else addFills fills' colors
  end.

Definition addEffects (effects : list jsval) (seen : list jsval)
    : list jsval :=
  fold_left (fun acc effect => setAdd effect acc) effects seen.

(** The part of [traverseNodes] before [// Traverse children]. *)
Definition visit (node : Props.t) (tokens : Tokens.t) : Error + Tokens.t :=
  match match Props.fills node with
        | Some fs => addFills fs (Tokens.colors tokens)
        | None => inr (Tokens.colors tokens)
        end with
  | inl e => inl e
  | inr colors =>
      let tokens := Tokens.set_colors colors tokens in
      let tokens :=
        match Props.style node with
        | Some st =>
            Tokens.set_typography (setAdd st (Tokens.typography tokens))
              tokens
        | None => tokens
        end in
      let tokens :=
        match Props.paddingTop node with
        | Some top =>
            Tokens.set_spacing
              (setAdd (Spacing.mk top (Props.paddingRight node)
                         (Props.paddingBottom node) (Props.paddingLeft node))
                 (Tokens.spacing tokens))
              tokens
        | None => tokens
        end in
      let tokens :=
        match Props.effects node with
        | Some es =>
            Tokens.set_effects (addEffects es (Tokens.effects tokens)) tokens
        | None => tokens
        end in
      inr tokens
  end.

(** [traverseNodes]: the node itself, then its children in order. *)
Fixpoint traverseNodes (n : node) (tokens : Tokens.t) : Error + Tokens.t :=
  match n with
  | Node props children =>
      match visit props tokens with
      | inl e => inl e
      | inr tokens1 =>
          match children with
          | None => inr tokens1
          | Some cs =>
              (fix each (cs : list node) (acc : Tokens.t)
                 : Error + Tokens.t :=
                 match cs with
                 | [] => inr acc
                 | c :: cs' =>
                     match traverseNodes c acc with
                     | inl e => inl e
                     | inr acc' => each cs' acc'
                     end
                 end) cs tokens1
          end
      end
  end.

(** [handleError(error)]: by the status of the upstream response, if there
    is one.  In the default case the message is
    [error.response.data.message || 'Unknown Figma API error']: an absent
    message and an empty one both give way to the default text. *)
Definition handleError (response : option (Z * option string)) : Error :=
  match response with
  | Some (401, _) => APIError "Unauthorized: Invalid Figma access token" 401
  | Some (403, _) => APIError "Forbidden: Insufficient permissions" 403
  | Some (404, _) => APIError "Not found: Invalid file or node ID" 404
  | Some (429, _) => APIError "Too many requests: Rate limit exceeded" 429
  | Some (status, message) =>
      APIError ("Figma API Error: "
                +:+ (if truthy message then default "" message
                     else "Unknown Figma API error")) status
  | None => APIError "Error connecting to Figma API" 500
  end.

(** The outcome of the request behind [getFile]: the file data with its
    [document], or a failure with the upstream response if one came. *)
Inductive FileResult :=
| FileData (document : option node)
| FileError (response : option (Z * option string)).

(** [getFile(fileId)]. *)
Definition getFile (res : FileResult) : Error + option node :=
  match res with
  | FileData document => inr document
  | FileError response => inl (handleError response)
  end.

(** [extractDesignTokens(fileId)].  Whatever is thrown inside, the
    [APIError] of [getFile] included, carries no [response] when the
    [catch] hands it to [handleError]. *)
Definition extractDesignTokens (res : FileResult) : Error + Tokens.t :=
  match getFile res with
  | inl _ => inl (handleError None)
  | inr None => inl (handleError None)
  | inr (Some document) =>
      match traverseNodes document Tokens.empty with
      | inl _ => inl (handleError None)
      | inr tokens => inr tokens
      end
  end.

End FigmaService.

(** ** The analytics controller ([controllers/analyticsController.js]) *)

Module AnalyticsController.

(** [calculatePercentageChange(oldValue, newValue)]. *)
Definition calculatePercentageChange (oldValue newValue : float) : float :=
  if PrimFloat.eqb oldValue 0%float
  then (if PrimFloat.eqb newValue 0%float then 0%float else 100%float)
  else PrimFloat.mul
         (PrimFloat.div (PrimFloat.sub newValue oldValue) oldValue)
         100%float.

(** [x || 0] for [x] a number or absent: zero and not-a-number are falsy. *)
Definition orZero (x : option float) : float :=
  match x with
  | None => 0%float
  | Some v =>
      if PrimFloat.is_nan v || PrimFloat.eqb v 0%float then 0%float else v
  end.

Module Period.
(** The one group a period's aggregation yields. *)
Record t := mk { total : float; average : float }.
End Period.

(** The [percentageChange] object of [compareAnalytics]; [period1Data[0]]
    and [period2Data[0]] are absent when nothing matched the period. *)
Definition percentageChange (period1 period2 : option Period.t)
    : float * float :=
  (calculatePercentageChange (orZero (Period.total <$> period1))
                             (orZero (Period.total <$> period2)),
   calculatePercentageChange (orZero (Period.average <$> period1))
                             (orZero (Period.average <$> period2))).

End AnalyticsController.

(** * Notions the properties are stated with *)

(** A store keeps every content document under its own [_id]. *)
Definition keyed (s : Store.t) : Prop :=
  ∀ id c, Store.contents s !! id = Some c → Content._id c = id.

(** The requests that change the body of one artifact: improve, update and
    restore. *)
Definition editOf (req : Request) : option ObjectId :=
  match req with
  | Improve id _ => Some id
  | UpdateContent id _ _ => Some id
  | RestoreContentVersion id _ _ => Some id
  | _ => None
  end.

(** The change note each of them hands to [addRevision]. *)
Definition changeLogOf (req : Request) : string :=
  match req with
  | Improve _ feedback => "Improved based on feedback: " +:+ feedback
  | UpdateContent _ _ _ => "Manual update"
  | RestoreContentVersion _ rawVersion _ =>
      "Restored to version " +:+ rawVersion
  | _ => ""
  end.

(** What brings a call of improve, update or restore on the stored
    artifact [c] as far as an [addRevision] whose [save()] goes through:
    for improve the caller is the author and the outbound call returns a
    body that is not empty, for update the caller is the author, for
    restore the version asked for is in the log. *)
Definition reachesAddRevision (improve : string → string → option string)
    (user : ReqUser.t) (req : Request) (c : Content.t) : Prop :=
  match req with
  | Improve _ feedback =>
      Content.author c = ReqUser._id user
      ∧ ∃ body, improve (Content.content c) feedback = Some body
                ∧ body ≠ ""
  | UpdateContent _ _ _ => Content.author c = ReqUser._id user
  | RestoreContentVersion _ _ version =>
      is_Some (ContentController.findVersion version c)
  | _ => False
  end.

(** The requests that publish an artifact, alone or among others. *)
Definition publishes (req : Request) (id : ObjectId) : Prop :=
  match req with
  | PublishContent id' _ => id' = id
  | BulkPublish contentIds _ => id ∈ contentIds
  | _ => False
  end.

(** The nodes of a document tree in the order [traverseNodes] meets them. *)
Fixpoint flatten (n : node) : list Props.t :=
  match n with
  | Node props children =>
      props ::
      match children with
      | None => []
      | Some cs =>
          (fix each (cs : list node) : list Props.t :=
             match cs with
             | [] => []
             | c :: cs' => (flatten c ++ each cs')%list
             end) cs
      end
  end.

(** The solid fills of a node, and of a whole tree. *)
Definition solidFills (node : Props.t) : list Fill.t :=
  List.filter (fun fill => String.eqb (Fill.type fill) "SOLID")
              (default [] (Props.fills node)).

Definition solidFillsOf (document : node) : list Fill.t :=
  flat_map solidFills (flatten document).

(** A byte as two hexadecimal digits, and the six-digit form of a colour. *)
Definition hexDigit (d : Z) : ascii :=
  match d with
  | 0 => "0" | 1 => "1" | 2 => "2" | 3 => "3" | 4 => "4" | 5 => "5"
  | 6 => "6" | 7 => "7" | 8 => "8" | 9 => "9" | 10 => "a" | 11 => "b"
  | 12 => "c" | 13 => "d" | 14 => "e" | _ => "f"
  end%char.

Definition hexByte (v : Z) : string :=
  String (hexDigit (v / 16)) (String (hexDigit (v mod 16)) EmptyString).

Definition sixDigitHex (r g b : Z) : string :=
  "#" +:+ hexByte r +:+ hexByte g +:+ hexByte b.

(** The byte a channel stands for, when [Math.round(channel * 255)] is a
    whole number from 0 to 255. *)
Definition byteOf (channel : float) : option Z :=
  match FigmaService.Math_round (PrimFloat.mul channel 255%float) with
  | FigmaService.RInt z =>
      if Z.leb 0 z && Z.leb z 255 then Some z else None
  | _ => None
  end.

(** The rollup of an analytics record is fresh when today's bucket, in
    [aggregates.daily] and in [timeSeriesData], holds what
    [updateAggregates] would compute from the raw logs as they stand. *)
Definition rollupFresh (clk : Clock) (a : Analytics.t) : Prop :=
  let today := JsDate.setHours0 (tz clk) (now clk) in
  ∃ l s c,
    Analytics.countEngagement (tz clk) today (Analytics.likes a) = inr l
    ∧ Analytics.countEngagement (tz clk) today (Analytics.shares a) = inr s
    ∧ Analytics.countEngagement (tz clk) today (Analytics.comments a) = inr c
    ∧ Analytics.daily a
      = Some (Daily.mk today
                (Analytics.countViews (tz clk) today (Analytics.views a))
                l s c (Overall.score (Analytics.overall a)))
    ∧ DayMetrics.mk today
        (Analytics.countViews (tz clk) today (Analytics.views a))
        l s c (Overall.score (Analytics.overall a))
      ∈ Analytics.timeSeriesData a.

(** The overall sentiment is the mean of the whole history. *)
Definition overallIsMean (a : Analytics.t) : Prop :=
  ∃ m, Analytics.mean (map Sample.score (Analytics.history a)) = inr m
       ∧ Overall.score (Analytics.overall a) = Some m.

(** The running example: one draft of author 7 in company 100, with its
    analytics record, on the first millisecond of day 1000. *)
Definition draft1 : Content.t :=
  Content.mk 1 "blog" "first body" "draft" 7 100 [] None 1 [] false 0
    "Launch" "Announce v2" "gpt-4".
Definition store1 : Store.t :=
  Store.mk {[ 1%nat := draft1 ]} [Analytics.create 1 100].
Definition clock1 : Clock := Build_Clock 86400000000 0.
Definition author7 : ReqUser.t := ReqUser.mk 7 (Some 100%nat) "user".
Definition noImprove : string → string → option string := fun _ _ => None.

(** The same author as the router serves it: a document of the [User]
    model, with no company id to read; and an outbound call that answers
    an improve. *)
Definition member7 : ReqUser.t := ReqUser.mk 7 None "user".
Definition improveOk : string → string → option string :=
  fun content feedback => Some (content +:+ ", improved").

(** The same artifact after one manual update, with one view rolled up,
    and an account of another company. *)
Definition revision1 : Revision.t :=
  Revision.mk "first body" 7 0 1 "Manual update".
Definition draft2 : Content.t :=
  Content.mk 1 "blog" "second body" "draft" 7 100 [] None 2 [revision1]
    false 0 "Launch" "Announce v2" "gpt-4".
Definition analytics2 : Analytics.t :=
  Analytics.mk 1 100 [View.mk 86400000000 (Some "api") None] [] [] []
    (Overall.mk None None) []
    [DayMetrics.mk 86400000000 1 0 0 0 None]
    (Some (Daily.mk 86400000000 1 0 0 0 None)).
Definition store2 : Store.t :=
  Store.mk {[ 1%nat := draft2 ]} [analytics2].
Definition outsider8 : ReqUser.t := ReqUser.mk 8 (Some 200%nat) "user".


(** An archived artifact of author 7. *)
Definition archived3 : Content.t :=
  Content.mk 1 "blog" "old news" "archived" 7 100 [] None 1 [] false 0
    "Launch" "Announce v2" "gpt-4".
Definition store3 : Store.t :=
  Store.mk {[ 1%nat := archived3 ]} [Analytics.create 1 100].

(** Every stored status is one of the schema's three. *)
Definition statusValid (s : Store.t) : Prop :=
  ∀ id c, Store.contents s !! id = Some c →
          Content.status c ∈ Content.statusEnum.

(** What one request may do to the status of the artifact stored under
    [id]: leave it, publish it, or set it to the status an update names. *)
Definition statusStep (req : Request) (id : ObjectId)
    (before after : string) : Prop :=
  after = before
  ∨ (publishes req id ∧ after = "published")
  ∨ (∃ body st, req = UpdateContent id body (Some st) ∧ after = st).

(** Requests in a row, each by its own caller. *)
Fixpoint runRequests (clk : Clock)
    (improve : string → string → option string)
    (reqs : list (ReqUser.t * Request)) (s : Store.t) : Store.t :=
  match reqs with
  | [] => s
  | (user, req) :: rest =>
      runRequests clk improve rest (fst (route clk improve user req s))
  end.

(** What a request does to one key of the content collection. *)
Definition keyStep (req : Request) (k : ObjectId)
    (o o' : option Content.t) : Prop :=
  match o, o' with
  | None, None => True
  | Some c, Some c' =>
      Content._id c' = Content._id c
      ∧ Content.status c' ∈ Content.statusEnum
      ∧ statusStep req k (Content.status c) (Content.status c')
  | _, _ => False
  end.

(** The transitions of the status the specification allows, a status
    that stays as it is being none. *)
Definition specTransition (before after : string) : Prop :=
  before = after
  ∨ (before = "draft" ∧ after = "published")
  ∨ (before = "draft" ∧ after = "archived")
  ∨ (before = "published" ∧ after = "archived").

(** A name between an opening and a closing character, as a placeholder
    is between braces. *)
Definition braced (open_ close : ascii) (k : list ascii) : list ascii :=
  open_ :: (k ++ [close])%list.

(** The parameters the content controller hands to the AI service for a
    request that names a topic only: the request's own, then [prompt] and
    [tone]. *)
Definition topicOnly : list (string * string) :=
  [("topic", "the v2 launch"); ("prompt", "Announce v2 launch");
   ("tone", "professional")].

(** An outbound call that succeeds. *)
Definition completes : option string → AIService.Completion :=
  fun _ => AIService.Completed "Here is the post." 42.

(** A parameter whose key is plain, no quantifier and not the
    placeholder's name, and whose value holds no dollar sign, so that
    [replace] reads neither the key nor the value as a pattern. *)
Definition sparesPlaceholder (p : string) (kv : string * string) : Prop :=
  AIService.plainKey (fst kv) = true
  ∧ AIService.isQuantifier (fst kv) = false
  ∧ fst kv ≠ p
  ∧ "$"%char ∉ list_ascii_of_string (snd kv).

(** Two artifacts of company 100, the second one archived. *)
Definition shelved2 : Content.t :=
  Content.mk 2 "blog" "gone" "draft" 7 100 [] None 1 [] true 5
    "Retired" "Announce v1" "gpt-4".
Definition store4 : Store.t :=
  Store.mk (<[ 2%nat := shelved2 ]> {[ 1%nat := draft1 ]}) [].

(** A serialized account is clean when none of the sensitive names is a
    key of it, at the top or anywhere inside a value. *)
Definition clean (obj : gmap string jsval) : Prop :=
  ∀ k, k ∈ sensitiveKeys →
       obj !! k = None ∧ ∀ f v, obj !! f = Some v → k ∉ keysOf v.

(** An account with every optional path set. *)
Definition fullUser : User.t :=
  User.mk 7 "ann@example.com" (Some "$2a$10$hash") "Ann" "admin" "Acme"
    (Some "CTO") "professional" "en" true true true
    (Some (FigmaIntegration.mk (Some "figd_access") (Some "figd_refresh")
             (Some 99) (Some 98)))
    (Some "0123abcd") (Some 50) true 10 20.

(** [traverseNodes] over nodes that are already laid out in a row. *)
Fixpoint visitAll (nodes : list Props.t) (tokens : Tokens.t)
    : Error + Tokens.t :=
  match nodes with
  | [] => inr tokens
  | node :: rest =>
      match FigmaService.visit node tokens with
      | inl e => inl e
      | inr tokens' => visitAll rest tokens'
      end
  end.

(** Adding the members of a list to a set one after the other, and the
    list without its duplicates: what is left when its members are added
    to the empty set, each at its first occurrence. *)
Definition addAll {A} `{EqDecision A} (xs : list A) (s : list A) : list A :=
  fold_left (fun acc x => FigmaService.setAdd x acc) xs s.

Definition dedupe {A} `{EqDecision A} (xs : list A) : list A :=
  addAll xs [].

(** What a tree offers to each category, duplicates included, in the
    order of the traversal: the hex form of the colour of every solid
    fill, every node's typography, every node's padding, every effect. *)
Definition hexesOf (nodes : list Props.t) : list string :=
  flat_map (fun node =>
              omap (fun fill => FigmaService.rgbToHex <$> Fill.color fill)
                   (solidFills node))
           nodes.

Definition typographyOf (nodes : list Props.t) : list Typography.t :=
  omap Props.style nodes.

Definition spacingOf (nodes : list Props.t) : list Spacing.t :=
  omap (fun node =>
          (fun top => Spacing.mk top (Props.paddingRight node)
                        (Props.paddingBottom node) (Props.paddingLeft node))
          <$> Props.paddingTop node)
       nodes.

Definition effectsOf (nodes : list Props.t) : list jsval :=
  flat_map (fun node => default [] (Props.effects node)) nodes.

(** A frame with a red solid fill and a child that has the same red fill
    next to an image fill, the two sharing one text style and one drop
    shadow. *)
Definition red : Color.t := Color.mk 1 0 0.
Definition redFill : Fill.t := Fill.mk "SOLID" (Some red).
Definition inter14 : Typography.t :=
  Typography.mk (Some (VStr "Inter")) (Some (VNum (Q2Qc 14))) None None.
Definition shadow : jsval :=
  VObj [("type", VStr "DROP_SHADOW"); ("radius", VNum (Q2Qc 4))].
Definition twoReds : node :=
  Node (Props.mk (Some [redFill]) (Some inter14) None None None None
          (Some [shadow]))
       (Some [Node (Props.mk (Some [redFill; Fill.mk "IMAGE" None])
                      (Some inter14) (Some (VNum (Q2Qc 8))) None None None
                      (Some [shadow]))
                   None]).

(** * Further notions *)

(** What may happen to one stored artifact in the course of a request:
    its identity, type, author, company and creation date stay, its
    revision log is only appended to, its version moves with the length
    of the log, the archive flag is not cleared, and a document that
    passed validation still does. *)
Definition docStep (c c' : Content.t) : Prop :=
  Content._id c' = Content._id c
  ∧ Content.type c' = Content.type c
  ∧ Content.author c' = Content.author c
  ∧ Content.company c' = Content.company c
  ∧ Content.createdAt c' = Content.createdAt c
  ∧ Content.revisions c `prefix_of` Content.revisions c'
  ∧ Content.version c' - Content.version c
    = Z.of_nat (length (Content.revisions c'))
      - Z.of_nat (length (Content.revisions c))
  ∧ (Content.isArchived c = true → Content.isArchived c' = true)
  ∧ (Content.validate c = true → Content.validate c' = true).

Definition docKeyStep (o o' : option Content.t) : Prop :=
  match o, o' with
  | None, None => True
  | Some c, Some c' => docStep c c'
  | _, _ => False
  end.

(** Every stored artifact passes the schema validators. *)
Definition storeValid (s : Store.t) : Prop :=
  ∀ id c, Store.contents s !! id = Some c → Content.validate c = true.

(** The version of every stored artifact is one more than the number of
    its revisions. *)
Definition versionsCount (s : Store.t) : Prop :=
  ∀ id c, Store.contents s !! id = Some c →
          Content.version c = 1 + Z.of_nat (length (Content.revisions c)).

(** A few requests in a row on the running example: the author updates,
    an account of another company restores the first version, the author
    archives. *)
Definition threeRequests : list (ReqUser.t * Request) :=
  [(author7, UpdateContent 1 "third body" None);
   (outsider8, RestoreContentVersion 1 "1" (Some 1));
   (author7, DeleteContent 1)].

(** How many requests of a run are edits of the artifact [id]. *)
Definition editsOn (id : ObjectId) (reqs : list (ReqUser.t * Request))
    : nat :=
  length (List.filter (fun ur => bool_decide (editOf (snd ur) = Some id))
            reqs).

(** Every request of the run is answered, none fails. *)
Fixpoint allSucceed (clk : Clock)
    (improve : string → string → option string)
    (reqs : list (ReqUser.t * Request)) (s : Store.t) : bool :=
  match reqs with
  | [] => true
  | (user, req) :: rest =>
      match route clk improve user req s with
      | (s', inr _) => allSucceed clk improve rest s'
      | (_, inl _) => false
      end
  end.

(** What a request that is answered does to the version and the revision
    log of the artifact stored under [id]: an edit of [id] adds one to
    the version and one revision to the log, any other request leaves
    both. *)
Definition editStep (req : Request) (id : ObjectId) (c c' : Content.t)
    : Prop :=
  let n := if bool_decide (editOf req = Some id) then 1%nat else 0%nat in
  Content.version c' = Content.version c + Z.of_nat n
  ∧ length (Content.revisions c') = (length (Content.revisions c) + n)%nat
  ∧ Content.revisions c `prefix_of` Content.revisions c'.

(** The author improves, publishes and updates the artifact of the
    running example, and an account of another company restores its first
    version. *)
Definition fourRequests : list (ReqUser.t * Request) :=
  [(author7, Improve 1 "shorter");
   (author7, PublishContent 1 ["website"]);
   (author7, UpdateContent 1 "third body" None);
   (outsider8, RestoreContentVersion 1 "1" (Some 1))].

(** Requests on the archived artifact of [store4]: a publish and an
    update back to draft, both by its author. *)
Definition reviveRequests : list (ReqUser.t * Request) :=
  [(author7, PublishContent 2 ["website"]);
   (author7, UpdateContent 2 "back again" (Some "draft"))].

(** The requests that archive: delete and bulk archive. *)
Definition archives (req : Request) : Prop :=
  match req with
  | DeleteContent _ | BulkArchive _ => True
  | _ => False
  end.

(** The bulk requests, with the ids they name. *)
Definition bulkIds (req : Request) : option (list ObjectId) :=
  match req with
  | BulkPublish contentIds _ | BulkArchive contentIds => Some contentIds
  | _ => None
  end.

(** The requests that only read the content collection. *)
Definition readsOnly (req : Request) : Prop :=
  match req with
  | ListContent _ _ _ _ | GetContentAnalytics _ _ _
  | GetContentVersions _ | GetContentVersion _ _ => True
  | _ => False
  end.

(** An administrator of company 100. *)
Definition admin9 : ReqUser.t := ReqUser.mk 9 (Some 100%nat) "admin".


(** The calendar day of a bucket of the time series. *)
Definition dayOf (tz : Z) (d : DayMetrics.t) : Z :=
  JsDate.toDateString tz (DayMetrics.date d).

(** The time series holds at most one bucket for a calendar day. *)
Definition oneBucketPerDay (tz : Z) (ts : list DayMetrics.t) : Prop :=
  NoDup (dayOf tz <$> ts).

(** Every entry of the three engagement logs carries a timestamp. *)
Definition stamped (a : Analytics.t) : Prop :=
  Forall (fun e => is_Some (Engagement.timestamp e)) (Analytics.likes a)
  ∧ Forall (fun e => is_Some (Engagement.timestamp e)) (Analytics.shares a)
  ∧ Forall (fun e => is_Some (Engagement.timestamp e)) (Analytics.comments a).

(** The names of the three engagement logs. *)
Definition engagementTypes : list string := ["likes"; "shares"; "comments"].

(** The number of entries in the three engagement logs together. *)
Definition engagementCount (a : Analytics.t) : nat :=
  (length (Analytics.likes a) + length (Analytics.shares a)
   + length (Analytics.comments a))%nat.

(** A record with a view and a like of day 1000 and a bucket of day 999. *)
Definition analytics3 : Analytics.t :=
  Analytics.mk 1 100
    [View.mk 86400000000 (Some "api") None]
    [Engagement.mk (Some 86400000500) (Some 7%nat) None None] [] []
    (Overall.mk None None) []
    [DayMetrics.mk 86313600000 4 1 0 0 None] None.

(** ** The error middleware ([middlewares/errorHandler.js])

    Every handler hands what it catches to [next], and the server
    installs [errorHandler] after the routes.  The embedding keeps the
    status and the [error] label of the answer; [details], which repeats
    the message or hides it, is left out. *)
Module HttpError.
Record t := mk { status : Z; error : string }.
End HttpError.

(** [errorHandler(err, req, res, next)].  The tests run in the order of
    the source: the name [ValidationError], the two token errors, the
    status code 404, a duplicate key, the status code 429, the names
    [OpenAIError] and [FigmaError], then the default.  An [APIError] is
    named [APIError], so only its status code can match; the server
    error of the embedding is the refusal of a negative skip, which is no
    duplicate key. *)
Definition errorHandler (err : Error) : HttpError.t :=
  match err with
  | ValidationError => HttpError.mk 400 "Validation Error"
  | APIError _ 404 => HttpError.mk 404 "Not Found"
  | APIError _ 429 => HttpError.mk 429 "Too Many Requests"
  | _ => HttpError.mk 500 "Internal Server Error"
  end.

(** The HTTP status a content request is answered with: 200 with
    [res.json], the error middleware's otherwise. *)
Definition statusOf (r : Error + Response) : Z :=
  match r with
  | inl e => HttpError.status (errorHandler e)
  | inr _ => 200
  end.

(** The parameters that make [formatPrompt] throw: any parameter at all
    when the type has no template, and a key that reads as a bare
    quantifier between the braces. *)
Definition breaksPrompt (type : string) (params : list (string * string))
    : Prop :=
  (AIService.promptTemplates type = None ∧ params ≠ [])
  ∨ Exists (fun kv => AIService.isQuantifier (fst kv) = true) params.

(** A parameter with a plain key that the template has no placeholder
    for. *)
Definition unusedIn (template : string) (kv : string * string) : Prop :=
  AIService.plainKey (fst kv) = true
  ∧ AIService.isQuantifier (fst kv) = false
  ∧ AIService.includes template (AIService.placeholder (fst kv)) = false.

(** ** The formatting helpers of the analytics controller
    ([controllers/analyticsController.js]) *)

(** [formatContentMetrics(metrics)]: the groups of an aggregation, each
    with its [_id] and its [count], folded into one object keyed by
    [_id]; the map holds the object's own properties.  Assigning to
    [__proto__] on a plain object sets no own property, and with a number
    on the right it sets nothing at all. *)
Definition formatContentMetrics (metrics : list (string * nat))
    : gmap string nat :=
  fold_left (fun acc curr =>
               if String.eqb (fst curr) "__proto__" then acc
               else <[fst curr := snd curr]> acc)
            metrics ∅.

Module ExportRow.
(** A row of the CSV export, without the fields copied from the populated
    artifact and the creation date. *)
Record t := mk { views : nat; engagement : nat; sentiment : option float }.
End ExportRow.

Module ExportSummary.
Record t := mk {
  totalContent : nat;
  totalViews : nat;
  averageSentiment : float
}.
End ExportSummary.

Inductive Export :=
| ExportCsv (rows : list ExportRow.t)
| ExportPdf (summary : ExportSummary.t) (details : list Analytics.t)
| ExportJson (data : list Analytics.t).

(** [formatExportData(data, format)].  A score that is absent reads
    [undefined], which makes the sum not a number. *)
Definition formatExportData (data : list Analytics.t)
    (format : option string) : Export :=
  if String.eqb (default "" format) "csv" then
    ExportCsv
      (map (fun item =>
              ExportRow.mk
                (length (Analytics.views item))
                (length (Analytics.likes item)
                 + length (Analytics.shares item)
                 + length (Analytics.comments item))
                (Overall.score (Analytics.overall item)))
           data)
  else if String.eqb (default "" format) "pdf" then
    ExportPdf
      (ExportSummary.mk
         (length data)
         (fold_left (fun sum item => (sum + length (Analytics.views item))%nat)
                    data 0%nat)
         (PrimFloat.div
            (fold_left
               (fun sum item =>
                  PrimFloat.add sum
                    (default PrimFloat.nan
                       (Overall.score (Analytics.overall item))))
               data 0%float)
            (Analytics.lengthNumber data)))
      data
  else ExportJson data.
(** * Properties *)

(** ** Revisions and versions *)

Lemma pushRevision_version now userId newContent changeLog this :
  Content.version
    (Content.pushRevision now userId newContent changeLog this)
  = Content.version this + 1.
Proof. reflexivity. Qed.

Lemma pushRevision_revisions now userId newContent changeLog this :
  Content.revisions
    (Content.pushRevision now userId newContent changeLog this)
  = (Content.revisions this
     ++ [Revision.mk (Content.content this) userId now
           (Content.version this) changeLog])%list.
Proof. reflexivity. Qed.

Lemma pushRevision_id now userId newContent changeLog this :
  Content._id (Content.pushRevision now userId newContent changeLog this)
  = Content._id this.
Proof. reflexivity. Qed.

(** A [save()] that succeeds returns the document it was given and stores
    it under its [_id]. *)
Lemma save_inr c s s' c' :
  ContentDb.save c s = (s', inr c') →
  c' = c
  ∧ Content.validate c = true
  ∧ Store.contents s' = <[Content._id c := c]> (Store.contents s)
  ∧ Store.analytics s' = Store.analytics s.
Proof.
  unfold ContentDb.save. destruct (Content.validate c); [|discriminate].
  intros [= <- <-]. auto.
Qed.

Lemma save_inl c s s' e :
  ContentDb.save c s = (s', inl e) → s' = s ∧ e = ValidationError.
Proof.
  unfold ContentDb.save. destruct (Content.validate c); [discriminate|].
  intros [= <- <-]. auto.
Qed.

Lemma addRevision_inr clk userId newContent changeLog this s s' c' :
  ContentDb.addRevision clk userId newContent changeLog this s
  = (s', inr c') →
  c' = Content.pushRevision (now clk) userId newContent changeLog this
  ∧ Store.contents s' = <[Content._id this := c']> (Store.contents s)
  ∧ Store.analytics s' = Store.analytics s.
Proof.
  unfold ContentDb.addRevision. intros H.
  apply save_inr in H as (-> & _ & Hc & Ha). auto.
Qed.

(** Unfolding a handler down to the store. *)
Ltac unfold_handler :=
  unfold route, ContentController.improveContent,
    ContentController.updateContent, ContentController.deleteContent,
    ContentController.publishContent, ContentController.scheduleContent,
    ContentController.getContent, ContentController.getContentVersions,
    ContentController.getContentVersion,
    ContentController.restoreContentVersion,
    ContentController.getContentAnalytics,
    ContentController.load, ContentController.checkOwnership,
    ContentController.checkCompany, ContentDb.findById,
    ContentDb.addRevision, ContentDb.save,
    AnalyticsDb.findOneAndUpdate_pushView,
    AnalyticsDb.getByDateRange, checkRole, publishBulk, throwIf, bind,
    throw, ret
    in *.

(** The outcome of a [save()] in the goal, by cases on its validation. *)
Ltac case_save :=
  let E := fresh "Esave" in
  match goal with
  | |- context [if Content.validate ?d then _ else _] =>
      destruct (Content.validate d) eqn:E; simpl
  end.

(** What [validate] reads of a document. *)
Lemma validate_ext c d :
  Content.content d = Content.content c →
  Content.status d = Content.status c →
  Content.channels d = Content.channels c →
  Content.validateKept d = Content.validateKept c →
  Content.validate d = Content.validate c.
Proof.
  unfold Content.validate, Content.validateWritten. by intros -> -> -> ->.
Qed.

(** A valid document with another body is valid when the body is not
    empty. *)
Lemma validate_set_content c d body :
  Content.validate c = true →
  Content.content d = body →
  Content.status d = Content.status c →
  Content.channels d = Content.channels c →
  Content.validateKept d = Content.validateKept c →
  Content.validate d = negb (String.eqb body "").
Proof.
  unfold Content.validate, Content.validateWritten.
  intros Hv -> -> -> ->.
  apply andb_prop in Hv as [Hv ->]. apply andb_prop in Hv as [Hv ->].
  apply andb_prop in Hv as [_ ->]. by rewrite !andb_true_r.
Qed.

(** A valid document with other channels, and perhaps another status of
    the three, is valid when the channels are. *)
Lemma validate_channels c d :
  Content.validate c = true →
  Content.content d = Content.content c →
  Content.status d ∈ Content.statusEnum →
  Content.validateKept d = Content.validateKept c →
  Content.validate d = forallb Content.validChannel (Content.channels d).
Proof.
  unfold Content.validate, Content.validateWritten.
  intros Hv -> Hs ->.
  apply andb_prop in Hv as [Hv ->]. apply andb_prop in Hv as [Hv _].
  apply andb_prop in Hv as [-> _].
  rewrite (bool_decide_eq_true_2 _ Hs). simpl. by rewrite andb_true_r.
Qed.

Lemma validate_content c :
  Content.validate c = true → Content.content c ≠ "".
Proof.
  unfold Content.validate, Content.validateWritten. intros Hv.
  apply andb_prop in Hv as [Hv _]. apply andb_prop in Hv as [Hv _].
  apply andb_prop in Hv as [Hv _]. apply negb_true_iff in Hv.
  by apply String.eqb_neq.
Qed.

(** C2: for every stored valid artifact and every single call to improve,
    update or restore on it, the call appends a revision exactly when it
    gets as far as [addRevision] with a document that can be saved; the
    revision it appends, and stores, is the last of the log and holds the
    body and the version number the artifact had just before the call,
    with the caller, the time and the change note of the call, never the
    new body; the version is one higher.  A call that does not get that
    far fails and leaves the store as it was, and a call that succeeds
    answers with the artifact as stored. *)
Theorem revision_stores_body_before_call :
  ∀ (clk : Clock) (improve : string → string → option string)
    (user : ReqUser.t) (req : Request) (id : ObjectId) (c : Content.t)
    (s : Store.t),
    editOf req = Some id →
    Store.contents s !! id = Some c →
    Content._id c = id →
    Content.validate c = true →
    ∃ c',
      Store.contents (fst (route clk improve user req s)) !! id = Some c'
      ∧ (reachesAddRevision improve user req c →
         Content.revisions c'
         = (Content.revisions c
            ++ [Revision.mk (Content.content c) (ReqUser._id user) (now clk)
                  (Content.version c) (changeLogOf req)])%list
         ∧ Content.version c' = Content.version c + 1)
      ∧ (¬ reachesAddRevision improve user req c →
         fst (route clk improve user req s) = s
         ∧ ∃ e, snd (route clk improve user req s) = inl e)
      ∧ (∀ r, snd (route clk improve user req s) = inr r →
           reachesAddRevision improve user req c
           ∧ ∃ message, r = RContent message c').
Proof.
  intros clk improve user req id c s Hreq Hc Hid Hv.
  pose proof (validate_content c Hv) as Hbody.
  apply String.eqb_neq in Hbody.
  destruct req; simpl in Hreq; try discriminate; injection Hreq as ->.
  - (* improve *)
    unfold_handler. rewrite Hc. simpl.
    destruct (Content.author c =? ReqUser._id user)%nat eqn:Ea; simpl.
    2:{ apply Nat.eqb_neq in Ea. exists c. split; [done|].
        split; [by intros [? _]|]. split; [eauto|]. intros r [=]. }
    apply Nat.eqb_eq in Ea.
    destruct (improve (Content.content c) feedback) as [body|] eqn:Ei;
      simpl.
    2:{ exists c. split; [done|].
        split; [by intros (_ & b & [=] & _)|]. split; [eauto|].
        intros r [=]. }
    rewrite (validate_set_content c _ body Hv) by reflexivity.
    destruct (String.eqb body "") eqn:Eb; simpl.
    { apply String.eqb_eq in Eb. subst body. exists c. split; [done|].
      split; [intros (_ & b & Hb & Hne); congruence|]. split; [eauto|].
      intros r [=]. }
    apply String.eqb_neq in Eb.
    eexists. split; [rewrite Hid; apply lookup_insert_eq|].
    split; [by intros _|].
    split; [intros Hno; exfalso; apply Hno; eauto|].
    intros r [= <-]. split; [eauto|]. eauto.
  - (* update *)
    unfold_handler. rewrite Hc. simpl.
    destruct (Content.author c =? ReqUser._id user)%nat eqn:Ea; simpl.
    2:{ apply Nat.eqb_neq in Ea. exists c. split; [done|].
        split; [done|]. split; [eauto|]. intros r [=]. }
    apply Nat.eqb_eq in Ea.
    rewrite (validate_set_content c _ (Content.content c) Hv)
      by reflexivity.
    rewrite Hbody. simpl.
    destruct (truthy status); case_save; rewrite ?Hid, ?insert_insert_eq;
      simpl.
    all: eexists; (split; [apply lookup_insert_eq|]);
      (split; [by intros _|]); (split; [done|]).
    all: try (intros r [=]; fail).
    all: intros r [= <-]; split; [done|]; eauto.
  - (* restore *)
    unfold_handler. rewrite Hc. simpl.
    destruct (ContentController.findVersion version c) as [rev|] eqn:Ef;
      simpl.
    2:{ exists c. split; [done|].
        split; [by intros [? [=]]|]. split; [eauto|]. intros r [=]. }
    rewrite (validate_set_content c _ (Content.content c) Hv)
      by reflexivity.
    rewrite Hbody. simpl.
    case_save; rewrite Hid, ?insert_insert_eq; simpl.
    + eexists. split; [apply lookup_insert_eq|].
      split; [by intros _|].
      split; [intros Hno; exfalso; apply Hno; eauto|].
      intros r [= <-]. split; [eauto|]. eauto.
    + eexists. split; [apply lookup_insert_eq|].
      split; [by intros _|].
      split; [intros Hno; exfalso; apply Hno; eauto|]. intros r [=].
Qed.

Lemma revision_stores_body_before_call_witness :
  (∃ c',
     Store.contents
       (fst (route clock1 improveOk author7 (Improve 1 "shorter") store1))
       !! 1%nat = Some c'
     ∧ Content.content c' = "first body, improved"
     ∧ Content.revisions c'
       = [Revision.mk "first body" 7 86400000000 1
            "Improved based on feedback: shorter"])
  ∧ (∃ c',
       Store.contents
         (fst (route clock1 noImprove author7
                 (UpdateContent 1 "second body" None) store1)) !! 1%nat
       = Some c'
       ∧ Content.content c' = "second body"
       ∧ Content.revisions c'
         = [Revision.mk "first body" 7 86400000000 1 "Manual update"])
  ∧ (∃ c',
       Store.contents
         (fst (route clock1 noImprove outsider8
                 (RestoreContentVersion 1 "1" (Some 1)) store2)) !! 1%nat
       = Some c'
       ∧ Content.content c' = "first body"
       ∧ Content.revisions c'
         = [revision1;
            Revision.mk "second body" 8 86400000000 2
              "Restored to version 1"]).
Proof.
  split; [|split].
  - destruct (revision_stores_body_before_call clock1 improveOk author7
                (Improve 1 "shorter") 1%nat draft1 store1
                eq_refl eq_refl eq_refl eq_refl) as (c' & Hc' & Hrev & _).
    exists c'. split; [exact Hc'|]. split.
    + vm_compute in Hc'. by injection Hc' as <-.
    + apply Hrev. split; [reflexivity|]. eexists. split; [reflexivity|].
      discriminate.
  - destruct (revision_stores_body_before_call clock1 noImprove author7
                (UpdateContent 1 "second body" None) 1%nat draft1 store1
                eq_refl eq_refl eq_refl eq_refl) as (c' & Hc' & Hrev & _).
    exists c'. split; [exact Hc'|]. split.
    + vm_compute in Hc'. by injection Hc' as <-.
    + apply Hrev. reflexivity.
  - destruct (revision_stores_body_before_call clock1 noImprove outsider8
                (RestoreContentVersion 1 "1" (Some 1)) 1%nat draft2 store2
                eq_refl eq_refl eq_refl eq_refl) as (c' & Hc' & Hrev & _).
    exists c'. split; [exact Hc'|]. split.
    + vm_compute in Hc'. by injection Hc' as <-.
    + apply Hrev. by eexists.
Defined.

(** ** Rollups *)

Lemma upsertDay_elem tz today entry ts :
  entry ∈ Analytics.upsertDay tz today entry ts.
Proof.
  induction ts as [|d ts IH]; simpl.
  - apply list_elem_of_singleton. reflexivity.
  - destruct (Analytics.sameDay tz today (DayMetrics.date d)).
    + apply list_elem_of_here.
    + apply list_elem_of_further, IH.
Qed.

(** [updateAggregates] leaves the raw logs and the sentiment alone and
    makes the rollup fresh. *)
Lemma updateAggregates_fresh clk a a' :
  Analytics.updateAggregates clk a = inr a' →
  rollupFresh clk a'
  ∧ Analytics.views a' = Analytics.views a
  ∧ Analytics.likes a' = Analytics.likes a
  ∧ Analytics.shares a' = Analytics.shares a
  ∧ Analytics.comments a' = Analytics.comments a
  ∧ Analytics.history a' = Analytics.history a
  ∧ Analytics.overall a' = Analytics.overall a.
Proof.
  unfold Analytics.updateAggregates, Analytics.updateTimeSeriesData.
  destruct (Analytics.countEngagement _ _ (Analytics.likes a))
    as [?|l] eqn:El; [discriminate|].
  destruct (Analytics.countEngagement _ _ (Analytics.shares a))
    as [?|sh] eqn:Es; [discriminate|].
  destruct (Analytics.countEngagement _ _ (Analytics.comments a))
    as [?|cm] eqn:Ec; [discriminate|].
  simpl. rewrite El, Es, Ec. intros [= <-]. simpl.
  split; [|by repeat split].
  exists l, sh, cm. simpl. repeat split; try assumption.
  apply upsertDay_elem.
Qed.

(** The three model methods that append to the raw logs recompute the
    rollup before they return. *)
Lemma addView_fresh clk viewData a a' :
  Analytics.addView clk viewData a = inr a' →
  rollupFresh clk a'
  ∧ Analytics.views a'
    = (Analytics.views a
       ++ [View.mk (default (now clk) (ViewData.timestamp viewData))
             (ViewData.source viewData) (ViewData.userAgent viewData)])%list.
Proof.
  unfold Analytics.addView. intros H.
  apply updateAggregates_fresh in H as (Hf & Hv & _). by rewrite Hv.
Qed.

Lemma addEngagement_fresh clk type data a a' :
  Analytics.addEngagement clk type data a = inr a' → rollupFresh clk a'.
Proof.
  unfold Analytics.addEngagement.
  repeat match goal with
         | |- context [if ?b then _ else _] => destruct b
         end; try discriminate;
    intros H; by apply updateAggregates_fresh in H as (Hf & _).
Qed.

Lemma updateSentiment_fresh clk score source a a' :
  Analytics.updateSentiment clk score source a = inr a' →
  rollupFresh clk a' ∧ overallIsMean a'.
Proof.
  unfold Analytics.updateSentiment. simpl.
  destruct (Analytics.mean _) as [?|m] eqn:Em; [discriminate|].
  destruct (Analytics.updateAggregates _ _) as [?|a2] eqn:Eu; [discriminate|].
  destruct (is_nan score || is_nan m); [discriminate|]. intros [= <-].
  apply updateAggregates_fresh in Eu as (Hf & _ & _ & _ & _ & Hh & Ho).
  split; [assumption|]. exists m. rewrite Hh, Ho. simpl. by split.
Qed.

(** The append of [getContent] touches nothing but [metrics.views]. *)
Lemma pushView_keeps_rollup contentId view docs :
  Forall2 (fun a a' =>
             Analytics.daily a' = Analytics.daily a
             ∧ Analytics.timeSeriesData a' = Analytics.timeSeriesData a
             ∧ Analytics.overall a' = Analytics.overall a
             ∧ (Analytics.views a' = Analytics.views a
                ∨ Analytics.views a' = (Analytics.views a ++ [view])%list))
          docs (AnalyticsDb.pushView contentId view docs).
Proof.
  induction docs as [|a docs IH]; simpl; [constructor|].
  destruct (Analytics.contentId a =? contentId)%nat.
  - constructor; [simpl; auto|].
    clear. induction docs; constructor; auto.
  - constructor; auto.
Qed.

(** C3, at the input where the code departs from it.  Fetching an
    artifact is the one path of the content routes that appends to a raw
    log, and what the claim says of it holds of no fetch.  For an account
    as the router serves it, the company check reads the [_id] of a
    company that has none and throws before the view is pushed: the
    request fails, and neither the view log nor the rollup moves.  The
    push itself, which only an account object with a company id of its
    own reaches, goes past the methods of the model: it appends a view of
    today and returns the artifact, but leaves [aggregates.daily] and
    [timeSeriesData] as they were, here both empty, so the rollup is not
    fresh; appending the same view through [addView] gives the same log
    with a fresh rollup. *)
Theorem getContent_logs_no_view_or_no_rollup :
  (∀ (clk : Clock) (improve : string → string → option string)
     (user : ReqUser.t) (id : ObjectId) (userAgent : option string)
     (s : Store.t) (c : Content.t),
     ReqUser.company user = None →
     Store.contents s !! id = Some c →
     route clk improve user (GetContent id userAgent) s
     = (s, inl TypeError))
  ∧ route clock1 noImprove member7 (GetContent 1 None) store1
    = (store1, inl TypeError)
  ∧ Analytics.views <$> Store.analytics store1 = [[]]
  ∧ ∃ a,
    snd (route clock1 noImprove author7 (GetContent 1 None) store1)
    = inr (RContent None draft1)
    ∧ Store.analytics
        (fst (route clock1 noImprove author7 (GetContent 1 None) store1))
      = [a]
    ∧ Analytics.views a = [View.mk 86400000000 (Some "api") None]
    ∧ Analytics.countViews (tz clock1)
        (JsDate.setHours0 (tz clock1) (now clock1)) (Analytics.views a)
      = 1%nat
    ∧ Analytics.daily a = None
    ∧ Analytics.timeSeriesData a = []
    ∧ ¬ rollupFresh clock1 a
    ∧ ∃ a',
        Analytics.addView clock1 (ViewData.mk None (Some "api") None)
          (Analytics.create 1 100) = inr a'
        ∧ Analytics.views a' = Analytics.views a
        ∧ Daily.views <$> Analytics.daily a' = Some 1%nat
        ∧ rollupFresh clock1 a'.
Proof.
  split.
  { intros clk improve user id userAgent s c Hnone Hc.
    unfold_handler. rewrite Hc. simpl. by rewrite Hnone. }
  split; [reflexivity|]. split; [reflexivity|].
  eexists. split; [reflexivity|]. split; [reflexivity|].
  split; [reflexivity|]. split; [reflexivity|].
  split; [reflexivity|]. split; [reflexivity|]. split.
  - intros (l & s & c & _ & _ & _ & Hd & _). discriminate Hd.
  - eexists. split; [reflexivity|]. split; [reflexivity|].
    split; [reflexivity|].
    eapply addView_fresh with (a := Analytics.create 1 100)
                              (viewData := ViewData.mk None (Some "api") None).
    reflexivity.
Qed.

(** ** Access across companies *)


(** C4, at the inputs where the code departs from it: an account of
    another company, not the author, asks for the versions of the
    artifact of the running example, for one version, for its analytics,
    and for a restore.  No handler of the four checks the caller: the
    first three answer with the artifact's revisions and time series, and
    the restore rewrites the artifact, its body back to the first and its
    version on to 3.  What the account has for a company plays no part:
    with any company id, or with none as the router serves it, the four
    answers are the same. *)
Theorem outsider_reads_and_restores_versions :
  Content.author draft2 ≠ ReqUser._id outsider8
  ∧ ReqUser.company outsider8 ≠ Some (Content.company draft2)
  ∧ route clock1 noImprove outsider8 (GetContentVersions 1) store2
    = (store2, inr (RVersions [revision1]))
  ∧ route clock1 noImprove outsider8 (GetContentVersion 1 (Some 1)) store2
    = (store2, inr (RVersion revision1))
  ∧ route clock1 noImprove outsider8 (GetContentAnalytics 1 None None) store2
    = (store2, inr (RAnalytics [DayMetrics.mk 86400000000 1 0 0 0 None]))
  ∧ (∃ s' c',
       route clock1 noImprove outsider8
         (RestoreContentVersion 1 "1" (Some 1)) store2
       = (s', inr (RContent (Some "Content version restored successfully")
                     c'))
       ∧ Store.contents s' !! 1%nat = Some c'
       ∧ Content.author c' = 7%nat
       ∧ Content.content c' = "first body"
       ∧ Content.version c' = 3
       ∧ Content.revisions c'
         = [revision1;
            Revision.mk "second body" 8 86400000000 2
              "Restored to version 1"])
  ∧ ∀ company : option ObjectId,
      route clock1 noImprove (ReqUser.mk 8 company "user")
        (GetContentVersions 1) store2
      = route clock1 noImprove outsider8 (GetContentVersions 1) store2
      ∧ route clock1 noImprove (ReqUser.mk 8 company "user")
          (GetContentVersion 1 (Some 1)) store2
        = route clock1 noImprove outsider8 (GetContentVersion 1 (Some 1))
            store2
      ∧ route clock1 noImprove (ReqUser.mk 8 company "user")
          (GetContentAnalytics 1 None None) store2
        = route clock1 noImprove outsider8 (GetContentAnalytics 1 None None)
            store2
      ∧ route clock1 noImprove (ReqUser.mk 8 company "user")
          (RestoreContentVersion 1 "1" (Some 1)) store2
        = route clock1 noImprove outsider8
            (RestoreContentVersion 1 "1" (Some 1)) store2.
Proof.
  split; [discriminate|]. split; [discriminate|].
  split; [reflexivity|]. split; [reflexivity|]. split; [reflexivity|].
  split.
  - exists (fst (route clock1 noImprove outsider8
                   (RestoreContentVersion 1 "1" (Some 1)) store2)),
      (Content.mk 1 "blog" "first body" "draft" 7 100 [] None 3
         [revision1;
          Revision.mk "second body" 8 86400000000 2 "Restored to version 1"]
         false 0 "Launch" "Announce v2" "gpt-4").
    split; [reflexivity|]. split; [reflexivity|]. repeat split.
  - intros company. repeat split.
Qed.

(** ** The status of an artifact *)

Lemma keyStep_same req k o o' :
  match o with
  | Some c => Content.status c ∈ Content.statusEnum
  | None => True
  end →
  o' = o → keyStep req k o o'.
Proof.
  intros Hv ->. destruct o as [c|]; simpl; [|done].
  repeat split; [assumption|by left].
Qed.

Lemma validate_status c :
  Content.validate c = true → Content.status c ∈ Content.statusEnum.
Proof.
  unfold Content.validate, Content.validateWritten. intros H.
  apply andb_prop in H as [H _]. apply andb_prop in H as [H _].
  apply andb_prop in H as [_ H]. by apply bool_decide_eq_true in H.
Qed.

Lemma published_in_enum : "published" ∈ Content.statusEnum.
Proof. unfold Content.statusEnum. set_solver. Qed.

(** Writing a valid document back under the key it was loaded from. *)
Lemma keyStep_insert req id c d s k :
  statusValid s →
  Store.contents s !! id = Some c →
  Content._id d = Content._id c →
  Content.status d ∈ Content.statusEnum →
  statusStep req id (Content.status c) (Content.status d) →
  keyStep req k (Store.contents s !! k) (<[id := d]> (Store.contents s) !! k).
Proof.
  intros Hv Hc Hid Hst Hstep.
  destruct (decide (id = k)) as [<-|Hne].
  - rewrite lookup_insert_eq, Hc. simpl. auto.
  - rewrite lookup_insert_ne by done. apply keyStep_same; [|done].
    destruct (Store.contents s !! k) eqn:E; [|done]. eapply Hv, E.
Qed.

Lemma saveAll_lookup ds s k :
  Store.contents (fst (ContentController.saveAll ds s)) !! k
  = Store.contents s !! k
  ∨ ∃ d, d ∈ ds ∧ Content._id d = k ∧ Content.validate d = true
         ∧ Store.contents (fst (ContentController.saveAll ds s)) !! k
           = Some d.
Proof.
  revert s. induction ds as [|d ds IH]; intros s; simpl; [by left|].
  unfold ContentDb.save.
  destruct (Content.validate d) eqn:Ev; simpl.
  - destruct (IH (Store.set_contents
                    (<[Content._id d := d]> (Store.contents s)) s))
      as [H|(d' & Hin & Hid & Hv & H)].
    + rewrite H. simpl.
      destruct (decide (Content._id d = k)) as [<-|Hne].
      * right. exists d. rewrite lookup_insert_eq.
        repeat split; auto. apply list_elem_of_here.
      * left. by rewrite lookup_insert_ne.
    + right. exists d'. repeat split; auto. by apply list_elem_of_further.
  - destruct (IH s) as [H|(d' & Hin & Hid & Hv & H)].
    + by left.
    + right. exists d'. repeat split; auto. by apply list_elem_of_further.
Qed.

Lemma elem_of_all s c :
  c ∈ ContentDb.all s ↔ ∃ k, Store.contents s !! k = Some c.
Proof.
  unfold ContentDb.all. rewrite list_elem_of_fmap. split.
  - intros ([k c'] & -> & H). exists k. by apply elem_of_map_to_list in H.
  - intros (k & H). exists (k, c). split; [done|].
    by apply elem_of_map_to_list.
Qed.

(** One request: the stored statuses stay among the three, and the
    status of an artifact is left, published, or set by an update. *)
Lemma route_status_steps :
  ∀ (clk : Clock) (improve : string → string → option string)
    (user : ReqUser.t) (req : Request) (s : Store.t),
    keyed s → statusValid s →
    keyed (fst (route clk improve user req s))
    ∧ statusValid (fst (route clk improve user req s))
    ∧ ∀ id c,
        Store.contents s !! id = Some c →
        ∃ c',
          Store.contents (fst (route clk improve user req s)) !! id = Some c'
          ∧ statusStep req id (Content.status c) (Content.status c').
Proof.
  intros clk improve user req s Hk Hv.
  assert (Hall : ∀ k, keyStep req k (Store.contents s !! k)
                   (Store.contents (fst (route clk improve user req s)) !! k)).
  2:{ repeat split.
      - intros k c' Hc'. specialize (Hall k). rewrite Hc' in Hall.
        destruct (Store.contents s !! k) as [c|] eqn:Hc; [|done].
        destruct Hall as (Hid & _). rewrite Hid. eapply Hk, Hc.
      - intros k c' Hc'. specialize (Hall k). rewrite Hc' in Hall.
        destruct (Store.contents s !! k) as [c|] eqn:Hc; [|done].
        apply Hall.
      - intros id c Hc. specialize (Hall id). rewrite Hc in Hall.
        destruct (Store.contents _ !! id) as [c'|]; [|done].
        exists c'. split; [done|]. apply Hall. }
  intros k.
  assert (Hsame : keyStep req k (Store.contents s !! k)
                    (Store.contents s !! k)).
  { apply keyStep_same; [|done].
    destruct (Store.contents s !! k) eqn:E; [|done]. eapply Hv, E. }
  assert (Hins : ∀ id c d,
    Store.contents s !! id = Some c →
    Content._id d = Content._id c →
    Content.status d ∈ Content.statusEnum →
    statusStep req id (Content.status c) (Content.status d) →
    keyStep req k (Store.contents s !! k)
      (<[Content._id c := d]> (Store.contents s) !! k)).
  { intros id c d Hc Hid Hst Hstep. rewrite (Hk _ _ Hc).
    by apply keyStep_insert with c. }
  assert (Hold : ∀ id c, Store.contents s !! id = Some c →
                         Content.status c ∈ Content.statusEnum)
    by exact Hv.
  destruct req.
  - (* improve *)
    unfold_handler.
    destruct (Store.contents s !! contentId) as [c|] eqn:Hc; simpl;
      [|exact Hsame].
    destruct (negb _); simpl; [exact Hsame|].
    destruct (improve _ _); simpl; [|exact Hsame].
    case_save; [|exact Hsame].
    eapply Hins; [exact Hc|reflexivity|simpl; eauto|by left].
  - (* list *)
    unfold route, ContentController.listContent.
    destruct (_ <? 0); exact Hsame.
  - (* get *)
    unfold_handler.
    destruct (Store.contents s !! id) as [c|] eqn:Hc; simpl; [|exact Hsame].
    destruct (ReqUser.company user); simpl; [|exact Hsame].
    destruct (negb _); simpl; exact Hsame.
  - (* update *)
    unfold_handler.
    destruct (Store.contents s !! id) as [c|] eqn:Hc; simpl; [|exact Hsame].
    destruct (negb _); simpl; [exact Hsame|].
    case_save; [|exact Hsame].
    destruct status as [st|]; simpl.
    + destruct (negb (st =? "")%string) eqn:Et; case_save;
        rewrite ?insert_insert_eq.
      * eapply Hins; [exact Hc|reflexivity| |].
        -- apply validate_status in Esave0. exact Esave0.
        -- right. right. by exists content, st.
      * eapply Hins; [exact Hc|reflexivity|simpl; eauto|by left].
      * eapply Hins; [exact Hc|reflexivity|simpl; eauto|by left].
      * eapply Hins; [exact Hc|reflexivity|simpl; eauto|by left].
    + case_save; rewrite ?insert_insert_eq;
        (eapply Hins; [exact Hc|reflexivity|simpl; eauto|by left]).
  - (* delete *)
    unfold_handler.
    destruct (Store.contents s !! id) as [c|] eqn:Hc; simpl; [|exact Hsame].
    destruct (negb _); simpl; [exact Hsame|].
    case_save; [|exact Hsame].
    eapply Hins; [exact Hc|reflexivity|simpl; eauto|by left].
  - (* publish *)
    unfold_handler.
    destruct (Store.contents s !! id) as [c|] eqn:Hc; simpl; [|exact Hsame].
    destruct (negb _); simpl; [exact Hsame|].
    case_save; [|exact Hsame].
    eapply Hins; [exact Hc|reflexivity|apply published_in_enum|].
    right. left. by split.
  - (* schedule *)
    unfold_handler.
    destruct (Store.contents s !! id) as [c|] eqn:Hc; simpl; [|exact Hsame].
    destruct (negb _); simpl; [exact Hsame|].
    destruct publishAt; simpl; [|exact Hsame].
    case_save; [|exact Hsame].
    eapply Hins; [exact Hc|reflexivity|simpl; eauto|by left].
  - (* analytics *)
    unfold_handler. simpl.
    destruct (List.find _ _); exact Hsame.
  - (* versions *)
    unfold_handler.
    destruct (Store.contents s !! id) as [c|] eqn:Hc; exact Hsame.
  - (* version *)
    unfold_handler.
    destruct (Store.contents s !! id) as [c|] eqn:Hc; simpl; [|exact Hsame].
    destruct (ContentController.findVersion _ _); exact Hsame.
  - (* restore *)
    unfold_handler.
    destruct (Store.contents s !! id) as [c|] eqn:Hc; simpl; [|exact Hsame].
    destruct (ContentController.findVersion _ _); simpl; [|exact Hsame].
    case_save; [|exact Hsame].
    case_save; rewrite ?insert_insert_eq;
      (eapply Hins; [exact Hc|reflexivity|simpl; eauto|by left]).
  - (* bulk publish *)
    unfold route, publishBulk, throw. exact Hsame.
  - (* bulk archive *)
    unfold route, checkRole, throwIf, bind, throw, ret.
    destruct (negb _); simpl; [exact Hsame|].
    rewrite lookup_fmap.
    destruct (Store.contents s !! k) as [c|] eqn:Hc; simpl; [|done].
    destruct (ContentController.matchesBulk _ _ c); simpl;
      (split; [reflexivity|]); (split; [eauto|by left]).
Qed.

Lemma keyed_singleton c a :
  keyed (Store.mk {[ Content._id c := c ]} a).
Proof.
  intros id c' H. simpl in H.
  apply lookup_singleton_Some in H as [<- <-]. reflexivity.
Qed.

Lemma statusValid_singleton k c a :
  Content.status c ∈ Content.statusEnum →
  statusValid (Store.mk {[ k := c ]} a).
Proof.
  intros Hc id c' H. simpl in H.
  apply lookup_singleton_Some in H as [<- <-]. exact Hc.
Qed.

Lemma archived_in_enum : "archived" ∈ Content.statusEnum.
Proof. unfold Content.statusEnum. set_solver. Qed.

(** Over requests in a row the stored statuses stay among the three. *)
Lemma runRequests_statusValid clk improve reqs s :
  keyed s → statusValid s →
  keyed (runRequests clk improve reqs s)
  ∧ statusValid (runRequests clk improve reqs s).
Proof.
  revert s. induction reqs as [|[user req] rest IH]; intros s Hk Hv; simpl.
  - by split.
  - destruct (route_status_steps clk improve user req s Hk Hv)
      as (Hk' & Hv' & _).
    by apply IH.
Qed.

(** C5, as the code has it: every stored status is one of draft,
    published and archived, before and after any requests in a row, and a
    request changes the status of an artifact in two ways only: publish
    and bulk publish set it to published, and update sets it to the status
    the request names, in both cases whatever the status was before,
    archived included.  Every other request (improve, get, list, delete,
    bulk archive, schedule, the version and analytics requests, restore)
    leaves it as it was. *)
Theorem status_changes_only_by_publish_and_update :
  ∀ (clk : Clock) (improve : string → string → option string)
    (s : Store.t),
    keyed s → statusValid s →
    (∀ reqs, statusValid (runRequests clk improve reqs s))
    ∧ ∀ user req id c,
        Store.contents s !! id = Some c →
        ∃ c',
          Store.contents (fst (route clk improve user req s)) !! id = Some c'
          ∧ Content.status c' ∈ Content.statusEnum
          ∧ statusStep req id (Content.status c) (Content.status c').
Proof.
  intros clk improve s Hk Hv. split.
  - intros reqs. by apply runRequests_statusValid.
  - intros user req id c Hc.
    destruct (route_status_steps clk improve user req s Hk Hv)
      as (_ & Hv' & H).
    destruct (H id c Hc) as (c' & Hc' & Hstep).
    exists c'. repeat split; try assumption. eapply Hv', Hc'.
Qed.

Lemma status_changes_only_by_publish_and_update_witness :
  keyed store3 ∧ statusValid store3
  ∧ ∃ c',
      Store.contents
        (fst (route clock1 noImprove author7 (PublishContent 1 ["website"])
                store3)) !! 1%nat = Some c'
      ∧ statusStep (PublishContent 1 ["website"]) 1 "archived"
          (Content.status c').
Proof.
  pose proof (keyed_singleton archived3 [Analytics.create 1 100]) as Hk.
  pose proof (statusValid_singleton 1%nat archived3 [Analytics.create 1 100]
                archived_in_enum) as Hv.
  split; [exact Hk|]. split; [exact Hv|].
  destruct (status_changes_only_by_publish_and_update clock1 noImprove
              store3 Hk Hv) as (_ & H).
  destruct (H author7 (PublishContent 1 ["website"]) 1%nat archived3 eq_refl)
    as (c' & Hc' & _ & Hstep).
  exists c'. by split.
Defined.

(** C5 as stated fails: the author publishes an archived artifact and its
    status becomes published, and an update takes it from archived to
    draft; neither is a transition the specification allows. *)
Lemma archived_artifact_leaves_archived :
  Content.status <$> Store.contents store3 !! 1%nat = Some "archived"
  ∧ Content.status <$>
      Store.contents
        (fst (route clock1 noImprove author7 (PublishContent 1 ["website"])
                store3)) !! 1%nat
    = Some "published"
  ∧ Content.status <$>
      Store.contents
        (fst (route clock1 noImprove author7
                (UpdateContent 1 "old news" (Some "draft")) store3)) !! 1%nat
    = Some "draft"
  ∧ ¬ specTransition "archived" "published"
  ∧ ¬ specTransition "archived" "draft".
Proof.
  split; [reflexivity|]. split; [reflexivity|]. split; [reflexivity|].
  split; intros [H|[[H _]|[[H _]|[H _]]]]; discriminate H.
Qed.

(** ** Prompt templates *)

Import AIService.

Lemma isPrefix_spec p s :
  isPrefix p s = true ↔ ∃ t, s = (p ++ t)%list.
Proof.
  revert s. induction p as [|a p IH]; intros s; simpl.
  - split; [intros _; by exists s|done].
  - destruct s as [|b s]; simpl.
    + split; [done|]. intros (t & H). discriminate H.
    + rewrite andb_true_iff, IH. split.
      * intros [Hab (t & ->)]. apply Ascii.eqb_eq in Hab as ->. by exists t.
      * intros (t & [= -> ->]). split; [apply Ascii.eqb_refl|by exists t].
Qed.

Lemma includesFrom_spec needle s :
  includesFrom needle s = true
  ↔ ∃ pre post, s = (pre ++ needle ++ post)%list.
Proof.
  induction s as [|c s IH]; simpl.
  - rewrite orb_false_r, isPrefix_spec. split.
    + intros (t & H). by exists [], t.
    + intros (pre & post & H). symmetry in H.
      apply app_eq_nil in H as [-> H]. apply app_eq_nil in H as [-> ->].
      by exists [].
  - rewrite orb_true_iff, IH, isPrefix_spec. split.
    + intros [(t & H)|(pre & post & ->)].
      * by exists [], t.
      * by exists (c :: pre), post.
    + intros ([|c' pre] & post & H).
      * left. by exists post.
      * injection H as -> ->. right. by exists pre, post.
Qed.

Lemma replaceAllFrom_skip pat rep n s :
  replaceAllFrom pat rep n s = replaceAllFrom pat rep 0 (drop n s).
Proof.
  revert n. induction s as [|c s IH]; intros n.
  - by destruct n.
  - destruct n as [|n]; [done|]. simpl. apply IH.
Qed.

Lemma replaceAllFrom_match a pat rep t :
  replaceAllFrom (a :: pat) rep 0 ((a :: pat) ++ t)
  = (rep ++ replaceAllFrom (a :: pat) rep 0 t)%list.
Proof.
  simpl. rewrite Ascii.eqb_refl. simpl.
  assert (H : isPrefix pat (pat ++ t) = true)
    by (apply isPrefix_spec; by exists t).
  rewrite H, Nat.sub_0_r, replaceAllFrom_skip.
  by rewrite drop_app_length.
Qed.

Lemma replaceAllFrom_miss pat rep c s :
  isPrefix pat (c :: s) = false →
  replaceAllFrom pat rep 0 (c :: s) = c :: replaceAllFrom pat rep 0 s.
Proof. intros H. simpl replaceAllFrom. by rewrite H. Qed.

Lemma replaceAllFrom_copy a pat rep u t :
  a ∉ u →
  replaceAllFrom (a :: pat) rep 0 (u ++ t)
  = (u ++ replaceAllFrom (a :: pat) rep 0 t)%list.
Proof.
  induction u as [|c u IH]; intros Hu; [done|].
  apply not_elem_of_cons in Hu as [Hc Hu].
  rewrite <- app_comm_cons, replaceAllFrom_miss.
  - by rewrite IH.
  - simpl. destruct (Ascii.eqb a c) eqn:E; [|done].
    apply Ascii.eqb_eq in E. congruence.
Qed.

(** Two brace-free names that are closed by the same brace are one. *)
Lemma closing_brace_inj (k p t t' : list ascii) (close : ascii) :
  close ∉ k → close ∉ p →
  (k ++ close :: t = p ++ close :: t')%list → k = p.
Proof.
  revert p. induction k as [|a k IH]; intros [|b p] Hk Hp H; simpl in H.
  - done.
  - injection H as -> _. exfalso. apply Hp, list_elem_of_here.
  - injection H as -> _. exfalso. apply Hk, list_elem_of_here.
  - injection H as -> H. f_equal.
    apply not_elem_of_cons in Hk as [_ Hk].
    apply not_elem_of_cons in Hp as [_ Hp]. by apply IH.
Qed.


Lemma replaceAllFrom_keeps (open_ close : ascii) k p rep :
  open_ ≠ close →
  open_ ∉ k → close ∉ k → open_ ∉ p → close ∉ p → k ≠ p →
  ∀ n s,
    (length s ≤ n)%nat →
    (∃ pre post, s = (pre ++ braced open_ close p ++ post)%list) →
    ∃ pre post,
      replaceAllFrom (braced open_ close k) rep 0 s
      = (pre ++ braced open_ close p ++ post)%list.
Proof.
  intros Hoc Hok Hck Hop Hcp Hkp.
  induction n as [|n IH]; intros s Hlen (pre & post & ->).
  { rewrite !length_app in Hlen. simpl in Hlen. lia. }
  destruct pre as [|c pre].
  - (* the placeholder opens the text *)
    simpl app at 1.
    assert (Hmiss : isPrefix (braced open_ close k)
                      (braced open_ close p ++ post) = false).
    { destruct (isPrefix _ _) eqn:E; [|done].
      apply isPrefix_spec in E as (t & E). unfold braced in E.
      simpl in E. injection E as E. rewrite <- !app_assoc in E. simpl in E.
      symmetry in E. by apply closing_brace_inj in E. }
    change (braced open_ close p ++ post)%list
      with (open_ :: (p ++ [close]) ++ post)%list in *.
    rewrite replaceAllFrom_miss by exact Hmiss.
    unfold braced at 1. rewrite replaceAllFrom_copy.
    + by exists [], (replaceAllFrom (open_ :: (k ++ [close])%list) rep 0 post).
    + rewrite elem_of_app, list_elem_of_singleton. intros [H|H]; auto.
  - destruct (isPrefix (braced open_ close k)
                ((c :: pre) ++ braced open_ close p ++ post)) eqn:E.
    + (* a match before the placeholder ends before it *)
      apply isPrefix_spec in E as (t & E).
      assert (Ht : ∃ pre', t = (pre' ++ braced open_ close p ++ post)%list).
      { unfold braced at 2 in E. simpl in E. injection E as -> E.
        apply app_eq_app in E as [l [[E1 E2]|[E1 E2]]].
        - by exists l.
        - destruct l as [|a l].
          + exists []. simpl in E2. by rewrite <- E2.
          + exfalso. unfold braced in E2. simpl in E2. injection E2 as <- _.
            assert (Hin : open_ ∈ (k ++ [close])%list).
            { rewrite E1, elem_of_app. right. apply list_elem_of_here. }
            rewrite elem_of_app, list_elem_of_singleton in Hin.
            destruct Hin; auto. }
      destruct Ht as (pre' & ->).
      rewrite E. unfold braced at 1 2. rewrite replaceAllFrom_match.
      fold (braced open_ close k).
      destruct (IH (pre' ++ braced open_ close p ++ post)%list)
        as (pre1 & post1 & H1).
      * apply (f_equal length) in E. rewrite E in Hlen. clear -Hlen.
        unfold braced in Hlen. simpl in Hlen.
        repeat (rewrite !length_app in *; simpl in * ). lia.
      * by exists pre', post.
      * rewrite H1. exists (rep ++ pre1)%list, post1.
        by rewrite <- app_assoc.
    + change ((c :: pre) ++ braced open_ close p ++ post)%list
        with (c :: (pre ++ braced open_ close p ++ post))%list in *.
      rewrite replaceAllFrom_miss by exact E.
      destruct (IH (pre ++ braced open_ close p ++ post)%list)
        as (pre1 & post1 & H1).
      * simpl in Hlen. apply le_S_n, Hlen.
      * by exists pre, post.
      * rewrite H1. by exists (c :: pre1), post1.
Qed.

Lemma list_ascii_of_string_app a b :
  list_ascii_of_string (a +:+ b)
  = (list_ascii_of_string a ++ list_ascii_of_string b)%list.
Proof. induction a as [|c a IH]; simpl; [done|]. by rewrite IH. Qed.

Lemma placeholder_braced key :
  list_ascii_of_string (placeholder key)
  = braced "{" "}" (list_ascii_of_string key).
Proof.
  unfold placeholder, braced.
  change ("{" +:+ key +:+ "}")
    with (String "{" (key +:+ "}")).
  simpl. by rewrite list_ascii_of_string_app.
Qed.

Lemma plainKey_not_special key c :
  plainKey key = true → regexSpecial c = true →
  c ∉ list_ascii_of_string key.
Proof.
  unfold plainKey. intros Hk Hc Hin.
  apply list_elem_of_In in Hin.
  rewrite forallb_forall in Hk. specialize (Hk c Hin).
  by rewrite Hc in Hk.
Qed.

(** One replacement leaves the placeholder of another name in the text. *)
Lemma replaceAll_keeps_placeholder key value p t :
  plainKey key = true → plainKey p = true → key ≠ p →
  includes t (placeholder p) = true →
  includes (replaceAll (placeholder key) value t) (placeholder p) = true.
Proof.
  intros Hk Hp Hne. unfold includes, replaceAll.
  rewrite list_ascii_of_string_of_list_ascii, !placeholder_braced,
    !includesFrom_spec.
  intros Hin.
  eapply (replaceAllFrom_keeps "{" "}"); try exact Hin; try done.
  - by apply plainKey_not_special.
  - by apply plainKey_not_special.
  - by apply plainKey_not_special.
  - by apply plainKey_not_special.
  - intros E. apply Hne.
    rewrite <- (string_of_list_ascii_of_string key),
      <- (string_of_list_ascii_of_string p). by rewrite E.
Qed.

Lemma formatSteps_keep_placeholder p params t :
  plainKey p = true →
  Forall (sparesPlaceholder p) params →
  includes t (placeholder p) = true →
  ∃ prompt,
    fold_left formatStep params (inr (Some t)) = inr (Some prompt)
    ∧ includes prompt (placeholder p) = true.
Proof.
  intros Hp Hall. revert t.
  induction Hall as [|[key value] params (Hk & Hq & Hne & _) _ IH];
    intros t Ht.
  - by exists t.
  - simpl in *. rewrite Hq. apply IH.
    by apply replaceAll_keeps_placeholder.
Qed.

(** C6, as the code has it: a placeholder left without a value is no
    error.  Whatever the type and the parameter map, [generateContent]
    never fails with a [ValidationError]: what it throws is an [APIError]
    with status 500, when the prompt cannot be built or the outbound call
    fails without a response, or with status 503, when the completion API
    answers with an error; or it is the [TypeError] of reading the
    message of an error response that has none.  And when the template of the type holds the
    placeholder of a name that no key of the map is, the name and the
    keys being free of the characters special to [RegExp], no key a bare
    quantifier and no value holding a dollar sign, the prompt handed to
    the outbound call and returned in the metadata still holds that
    placeholder, and the outcome is the outbound call's alone. *)
Theorem unresolved_placeholder_stays_in_prompt :
  ∀ (create : option string → Completion) (type : string)
    (params : list (string * string)),
    (∀ e, generateContent create type params = inl e →
          e ≠ ValidationError
          ∧ (e = APIError "Error generating content" 500
             ∨ (∃ message,
                  e = APIError ("OpenAI API Error: " +:+ message) 503)
             ∨ e = TypeError))
    ∧ (∀ template p,
         promptTemplates type = Some template →
         includes template (placeholder p) = true →
         plainKey p = true →
         Forall (sparesPlaceholder p) params →
         ∃ prompt,
           formatPrompt type params = inr (Some prompt)
           ∧ includes prompt (placeholder p) = true
           ∧ generateContent create type params
             = match create (Some prompt) with
               | Completed content tokens =>
                   inr (Generated.mk content (Some prompt) "gpt-4" tokens)
               | ErrorResponse (Some message) =>
                   inl (APIError ("OpenAI API Error: " +:+ message) 503)
               | ErrorResponse None => inl TypeError
               | Failure => inl (APIError "Error generating content" 500)
               end).
Proof.
  intros create type params. split.
  - intros e. unfold generateContent.
    destruct (formatPrompt type params) as [?|prompt].
    + intros [= <-]. split; [discriminate|by left].
    + destruct (create prompt) as [content tokens|[message|]|];
        intros [= <-]; (split; [discriminate|]);
        [right; left; by exists message|by do 2 right|by left].
  - intros template p Ht Hin Hp Hall.
    destruct (formatSteps_keep_placeholder p params template Hp Hall Hin)
      as (prompt & Hf & Hprompt).
    exists prompt. unfold generateContent, formatPrompt. rewrite Ht, Hf.
    repeat split; assumption.
Qed.

Lemma unresolved_placeholder_stays_in_prompt_witness :
  (∃ prompt,
     formatPrompt "blog" topicOnly = inr (Some prompt)
     ∧ includes prompt "{audience}" = true
     ∧ generateContent completes "blog" topicOnly
       = inr (Generated.mk "Here is the post." (Some prompt) "gpt-4" 42))
  ∧ generateContent (fun _ => Failure) "blog" topicOnly ≠ inl ValidationError.
Proof.
  assert (Hall : Forall (sparesPlaceholder "audience") topicOnly).
  { repeat constructor; try discriminate;
      intros H; vm_compute in H;
      repeat (apply elem_of_cons in H as [H|H]; [discriminate H|]);
      by apply elem_of_nil in H. }
  destruct (unresolved_placeholder_stays_in_prompt completes "blog"
              topicOnly) as [_ H].
  destruct (H template_blog "audience" eq_refl eq_refl eq_refl Hall)
    as (prompt & Hf & Hin & Hg).
  split.
  - exists prompt. repeat split; assumption.
  - destruct (unresolved_placeholder_stays_in_prompt (fun _ => Failure)
                "blog" topicOnly) as [He _].
    intros E. by destruct (He _ E) as [Hne _].
Defined.

(** C6 as stated fails: the blog template holds the placeholder
    [{audience}], the parameter map gives no value for it, and
    [generateContent] succeeds, with a prompt that still holds
    [{audience}] and [{points}]. *)
Lemma generateContent_accepts_unresolved_placeholder :
  includes template_blog "{audience}" = true
  ∧ (∀ value, ("audience", value) ∉ topicOnly)
  ∧ ∃ g,
      generateContent completes "blog" topicOnly = inr g
      ∧ Generated.prompt g
        = Some "Write a professional blog post about the v2 launch. 
                  Tone: professional
                  Target audience: {audience}
                  Key points to cover: {points}"
      ∧ includes (default "" (Generated.prompt g)) "{audience}" = true
      ∧ includes (default "" (Generated.prompt g)) "{points}" = true.
Proof.
  split; [reflexivity|]. split.
  - intros value H. unfold topicOnly in H.
    repeat (apply elem_of_cons in H as [H|H]; [discriminate H|]).
    by apply elem_of_nil in H.
  - eexists. split; [reflexivity|]. repeat split.
Qed.

(** ** Percentage change *)

(** C7: for every pair of numbers, the percentage change is 0 when both
    are zero, 100 when the old one is zero and the new one is not, and
    ((new - old) / old) * 100 when the old one is not zero; the
    comparisons are those of [===] on numbers, which take the two zeros
    for equal. *)
Theorem calculatePercentageChange_cases :
  ∀ oldValue newValue : float,
    (PrimFloat.eqb oldValue 0 = true → PrimFloat.eqb newValue 0 = true →
     AnalyticsController.calculatePercentageChange oldValue newValue
     = 0%float)
    ∧ (PrimFloat.eqb oldValue 0 = true → PrimFloat.eqb newValue 0 = false →
       AnalyticsController.calculatePercentageChange oldValue newValue
       = 100%float)
    ∧ (PrimFloat.eqb oldValue 0 = false →
       AnalyticsController.calculatePercentageChange oldValue newValue
       = PrimFloat.mul
           (PrimFloat.div (PrimFloat.sub newValue oldValue) oldValue)
           100%float).
Proof.
  intros oldValue newValue.
  unfold AnalyticsController.calculatePercentageChange.
  repeat split.
  - intros -> ->. reflexivity.
  - intros -> ->. reflexivity.
  - intros ->. reflexivity.
Qed.

Lemma calculatePercentageChange_cases_witness :
  AnalyticsController.calculatePercentageChange 0 0 = 0%float
  ∧ AnalyticsController.calculatePercentageChange (-0) 8 = 100%float
  ∧ AnalyticsController.calculatePercentageChange 50 75 = 50%float.
Proof.
  destruct (calculatePercentageChange_cases 0 0) as (H1 & _ & _).
  destruct (calculatePercentageChange_cases (-0) 8) as (_ & H2 & _).
  destruct (calculatePercentageChange_cases 50 75) as (_ & _ & H3).
  split; [exact (H1 eq_refl eq_refl)|].
  split; [exact (H2 eq_refl eq_refl)|].
  exact (H3 eq_refl).
Defined.

(** In [compareAnalytics] a period without data counts as zero: no data
    in either period is a change of 0, and data in the second only is a
    change of 100. *)
Lemma percentageChange_no_data :
  AnalyticsController.percentageChange None None = (0%float, 0%float)
  ∧ AnalyticsController.percentageChange None
      (Some (AnalyticsController.Period.mk 12 4))
    = (100%float, 100%float).
Proof. split; reflexivity. Qed.

(** ** Listing *)

Lemma ofCompany_true user company :
  ReqUser.ofCompany user company = true
  ↔ ReqUser.company user = Some company.
Proof.
  unfold ReqUser.ofCompany. destruct (ReqUser.company user) as [id|].
  - rewrite Nat.eqb_eq. split; [by intros ->|by intros [= ->]].
  - split; discriminate.
Qed.

Lemma cursorLimit_subseteq {A} n (l : list A) :
  ContentController.cursorLimit n l ⊆ l.
Proof.
  unfold ContentController.cursorLimit.
  destruct (n =? 0); [done|apply subseteq_take].
Qed.

Lemma matchesList_true user type status c :
  ContentController.matchesList user type status c = true →
  ReqUser.company user = Some (Content.company c)
  ∧ Content.isArchived c = false.
Proof.
  unfold ContentController.matchesList. intros H.
  apply andb_prop in H as [H _]. apply andb_prop in H as [H _].
  apply andb_prop in H as [Hc Ha].
  apply ofCompany_true in Hc. by apply negb_true_iff in Ha.
Qed.

Lemma filter_length_le {A} (f g : A → bool) (l : list A) :
  (∀ x, f x = true → g x = true) →
  (length (List.filter f l) ≤ length (List.filter g l))%nat.
Proof.
  intros Hfg. induction l as [|x l IH]; simpl; [lia|].
  destruct (f x) eqn:Ef.
  - rewrite (Hfg x Ef). simpl. lia.
  - destruct (g x); simpl; lia.
Qed.

(** C10: the listing leaves the store alone; every artifact of the
    returned page is a stored artifact of the caller's company that is not
    archived, and the reported total counts the stored artifacts that
    match the query, none of which is archived or of another company:
    it is at most the number of the company's artifacts that are not
    archived, and equal to it when the request filters neither by type
    nor by status. *)
Theorem listContent_excludes_archived :
  ∀ (user : ReqUser.t) (type status : option string) (page limit : Z)
    (s s' : Store.t) (contents : list Content.t) (p l : Z) (total : nat)
    (pages : option Z),
    ContentController.listContent user type status page limit s
    = (s', inr (RList contents p l total pages)) →
    s' = s
    ∧ (∀ c, c ∈ contents →
         (∃ id, Store.contents s !! id = Some c)
         ∧ Content.isArchived c = false
         ∧ ReqUser.company user = Some (Content.company c))
    ∧ (∀ c, c ∈ ContentDb.all s → Content.isArchived c = true →
         c ∉ contents)
    ∧ total
      = length (List.filter
                  (ContentController.matchesList user type status)
                  (ContentDb.all s))
    ∧ (total ≤ length
         (List.filter
            (fun c => ReqUser.ofCompany user (Content.company c)
                      && negb (Content.isArchived c))
            (ContentDb.all s)))%nat
    ∧ (truthy type = false → truthy status = false →
       total = length
         (List.filter
            (fun c => ReqUser.ofCompany user (Content.company c)
                      && negb (Content.isArchived c))
            (ContentDb.all s))).
Proof.
  intros user type status page limit s s' contents p l total pages.
  unfold ContentController.listContent.
  destruct ((page - 1) * limit <? 0); [discriminate|].
  intros [= <- <- _ _ <- _].
  assert (Hin : ∀ c,
    c ∈ ContentController.cursorLimit limit
          (drop (Z.to_nat ((page - 1) * limit))
             (merge_sort ContentController.newestFirst
                (List.filter
                   (ContentController.matchesList user type status)
                   (ContentDb.all s)))) →
    c ∈ ContentDb.all s
    ∧ ContentController.matchesList user type status c = true).
  { intros c Hc. apply cursorLimit_subseteq, subseteq_drop in Hc.
    rewrite merge_sort_Permutation in Hc.
    apply list_elem_of_In, List.filter_In in Hc as [Hc Hm].
    by apply list_elem_of_In in Hc. }
  split; [reflexivity|]. split; [|split; [|split; [reflexivity|split]]].
  - intros c Hc. apply Hin in Hc as [Hc Hm].
    apply elem_of_all in Hc. apply matchesList_true in Hm as [? ?]. auto.
  - intros c _ Harch Hc. apply Hin in Hc as [_ Hm].
    apply matchesList_true in Hm as [_ Hm]. congruence.
  - apply filter_length_le. intros c Hm.
    apply matchesList_true in Hm as [Hco ->].
    apply ofCompany_true in Hco. by rewrite Hco.
  - intros Ht Hs. f_equal. apply List.filter_ext. intros c.
    unfold ContentController.matchesList. rewrite Ht, Hs.
    by rewrite !andb_true_r.
Qed.

Lemma listContent_excludes_archived_witness :
  ContentController.listContent author7 None None 1 10 store4
  = (store4, inr (RList [draft1] 1 10 1 (Some 1)))
  ∧ shelved2 ∈ ContentDb.all store4
  ∧ (shelved2 ∉ [draft1])
  ∧ ∀ c, c ∈ [draft1] → Content.isArchived c = false.
Proof.
  assert (E : ContentController.listContent author7 None None 1 10 store4
              = (store4, inr (RList [draft1] 1 10 1 (Some 1))))
    by reflexivity.
  destruct (listContent_excludes_archived author7 None None 1 10 store4
              store4 [draft1] 1 10 1%nat (Some 1) E)
    as (_ & Hpage & Hgone & _).
  assert (Hin : shelved2 ∈ ContentDb.all store4).
  { apply elem_of_all. by exists 2%nat. }
  split; [exact E|]. split; [exact Hin|].
  split; [exact (Hgone shelved2 Hin eq_refl)|].
  intros c Hc. by destruct (Hpage c Hc) as (_ & ? & _).
Defined.

(** ** Serialization of an account *)

Lemma keysOf_reparse toISOString v :
  keysOf (reparse toISOString v) = keysOf v.
Proof.
  induction v as [| | | | |items IH|members IH] using jsval_nested_ind;
    try reflexivity; simpl.
  - induction IH as [|x items Hx _ IHl]; simpl; [done|].
    by rewrite Hx, IHl.
  - induction IH as [|[k x] members Hx _ IHl]; simpl; [done|].
    simpl in Hx. by rewrite Hx, IHl.
Qed.

Lemma clean_toJSON u : clean (User.toJSON u).
Proof.
  intros k Hk. split.
  - destruct u as [id em pw nm rl cn cp tn lg n1 n2 n3 fg ak ll ia ca ua].
    unfold sensitiveKeys in Hk.
    repeat (apply elem_of_cons in Hk as [->|Hk]);
      [..|by apply elem_of_nil in Hk];
      destruct pw, cp, fg, ak, ll; reflexivity.
  - intros f v Hf. unfold User.toJSON, User.deleteSensitive in Hf.
    apply lookup_delete_Some in Hf as [Hf1 Hf].
    apply lookup_delete_Some in Hf as [Hf2 Hf].
    apply lookup_delete_Some in Hf as [Hf3 Hf].
    apply elem_of_list_to_map_2 in Hf.
    destruct u as [id em pw nm rl cn cp tn lg n1 n2 n3 fg ak ll ia ca ua].
    unfold sensitiveKeys in Hk. simpl in Hf.
    destruct pw, cp, fg, ak, ll; simpl in Hf;
      repeat (apply elem_of_cons in Hf as [Hf|Hf];
              [injection Hf as -> ->; try congruence|]);
      try (by apply elem_of_nil in Hf);
      simpl; clear -Hk;
      repeat (apply elem_of_cons in Hk as [->|Hk]);
      try (by apply elem_of_nil in Hk);
      rewrite ?not_elem_of_cons; repeat split;
      try discriminate; try apply not_elem_of_nil.
Qed.

Lemma clean_runPass toISOString p obj :
  clean obj → clean (runPass toISOString p obj).
Proof.
  intros Hc k Hk. destruct (Hc k Hk) as [Hnone Hvals].
  destruct p; simpl.
  - split.
    + by rewrite lookup_fmap, Hnone.
    + intros f v. rewrite lookup_fmap.
      destruct (obj !! f) as [w|] eqn:Ew; [|done].
      intros [= <-]. rewrite keysOf_reparse. by eapply Hvals.
  - unfold User.deleteSensitive. split.
    + rewrite !lookup_delete. repeat case_decide; auto.
    + intros f v Hf.
      apply lookup_delete_Some in Hf as [_ Hf].
      apply lookup_delete_Some in Hf as [_ Hf].
      apply lookup_delete_Some in Hf as [_ Hf].
      by eapply Hvals.
Qed.

(** C9: whatever the account, and however often what [toJSON] returned is
    parsed and printed again or serialized again, the result has no key
    [password], [apiKey], [figmaIntegration], [accessToken] or
    [refreshToken], neither at the top nor anywhere inside a value. *)
Theorem toJSON_never_exposes_credentials :
  ∀ (toISOString : Date → string) (u : User.t) (passes : list Pass)
    (k : string),
    k ∈ sensitiveKeys →
    runPasses toISOString passes (User.toJSON u) !! k = None
    ∧ ∀ f v,
        runPasses toISOString passes (User.toJSON u) !! f = Some v →
        k ∉ keysOf v.
Proof.
  intros toISOString u passes.
  assert (H : clean (runPasses toISOString passes (User.toJSON u))).
  { unfold runPasses. generalize (clean_toJSON u).
    generalize (User.toJSON u). induction passes as [|p passes IH];
      intros obj Hobj; simpl; [exact Hobj|].
    apply IH. by apply clean_runPass. }
  exact H.
Qed.

Lemma toJSON_never_exposes_credentials_witness :
  "password" ∈ sensitiveKeys
  ∧ User.toObject fullUser !! "password" = Some (VStr "$2a$10$hash")
  ∧ runPasses (fun _ => "1970-01-01T00:00:00.000Z")
      [Reparse; Reserialize; Reparse] (User.toJSON fullUser) !! "password"
    = None.
Proof.
  assert (Hk : "password" ∈ sensitiveKeys) by apply list_elem_of_here.
  split; [exact Hk|]. split; [reflexivity|].
  exact (proj1 (toJSON_never_exposes_credentials
                  (fun _ => "1970-01-01T00:00:00.000Z") fullUser
                  [Reparse; Reserialize; Reparse] "password" Hk)).
Defined.

(** ** Design tokens *)

Import FigmaService.

Lemma elem_of_setAdd {A} `{EqDecision A} (x y : A) (s : list A) :
  y ∈ setAdd x s ↔ y ∈ s ∨ y = x.
Proof.
  unfold setAdd. case_decide as Hx.
  - split; [by left|]. intros [?| ->]; assumption.
  - rewrite elem_of_app, list_elem_of_singleton. tauto.
Qed.

Lemma NoDup_setAdd {A} `{EqDecision A} (x : A) (s : list A) :
  NoDup s → NoDup (setAdd x s).
Proof.
  intros Hs. unfold setAdd. case_decide as Hx; [assumption|].
  apply NoDup_app. split; [assumption|]. split.
  - intros y Hy Hyx. apply list_elem_of_singleton in Hyx as ->. by apply Hx.
  - apply NoDup_singleton.
Qed.

Lemma addAll_app {A} `{EqDecision A} (xs ys s : list A) :
  addAll (xs ++ ys) s = addAll ys (addAll xs s).
Proof. unfold addAll. apply fold_left_app. Qed.

Lemma elem_of_addAll {A} `{EqDecision A} (xs s : list A) (y : A) :
  y ∈ addAll xs s ↔ y ∈ s ∨ y ∈ xs.
Proof.
  revert s. induction xs as [|x xs IH]; intros s; simpl.
  - rewrite elem_of_nil. tauto.
  - unfold addAll in *. simpl. rewrite IH, elem_of_setAdd, elem_of_cons.
    tauto.
Qed.

Lemma NoDup_addAll {A} `{EqDecision A} (xs s : list A) :
  NoDup s → NoDup (addAll xs s).
Proof.
  revert s. induction xs as [|x xs IH]; intros s Hs; [assumption|].
  unfold addAll in *. simpl. by apply IH, NoDup_setAdd.
Qed.

Lemma NoDup_dedupe {A} `{EqDecision A} (xs : list A) : NoDup (dedupe xs).
Proof. apply NoDup_addAll, NoDup_nil_2. Qed.

Lemma elem_of_dedupe {A} `{EqDecision A} (xs : list A) (y : A) :
  y ∈ dedupe xs ↔ y ∈ xs.
Proof. unfold dedupe. rewrite elem_of_addAll, elem_of_nil. tauto. Qed.

(** A list without duplicates whose members are all the same has one
    member, if it has any. *)
Lemma NoDup_all_same {A} (l : list A) (h : A) :
  NoDup l → (∀ x, x ∈ l → x = h) → l ≠ [] → l = [h].
Proof.
  intros Hnd Hall Hne. destruct l as [|a l]; [done|].
  rewrite (Hall a) by apply list_elem_of_here.
  destruct l as [|b l]; [done|]. exfalso.
  apply NoDup_cons in Hnd as [Ha _]. apply Ha.
  rewrite (Hall a), <- (Hall b); [apply list_elem_of_here| |].
  - apply list_elem_of_further, list_elem_of_here.
  - apply list_elem_of_here.
Qed.

(** The fills of a node, when every solid one has its colour, add the hex
    forms of the solid ones. *)
Lemma addFills_inr fills colors colors' :
  addFills fills colors = inr colors' →
  colors' =
    addAll (omap (fun fill => rgbToHex <$> Fill.color fill)
                 (List.filter
                    (fun fill => String.eqb (Fill.type fill) "SOLID") fills))
           colors.
Proof.
  revert colors. induction fills as [|fill fills IH]; intros colors; simpl.
  - by intros [= <-].
  - destruct (String.eqb (Fill.type fill) "SOLID"); simpl; [|apply IH].
    destruct (Fill.color fill) as [c|]; simpl; [|discriminate].
    intros H. by apply IH in H.
Qed.

Lemma visit_inr node tokens tokens' :
  visit node tokens = inr tokens' →
  tokens' =
    Tokens.mk (addAll (hexesOf [node]) (Tokens.colors tokens))
              (addAll (typographyOf [node]) (Tokens.typography tokens))
              (addAll (spacingOf [node]) (Tokens.spacing tokens))
              (addAll (effectsOf [node]) (Tokens.effects tokens)).
Proof.
  unfold visit, hexesOf, typographyOf, spacingOf, effectsOf, solidFills.
  simpl. rewrite !app_nil_r.
  destruct node as [fills style pt pr pb pl effects]; simpl.
  destruct tokens as [cs ts ss es]; simpl.
  destruct fills as [fs|]; simpl.
  - destruct (addFills fs cs) as [?|cs'] eqn:E; [discriminate|].
    apply addFills_inr in E as ->. intros [= <-].
    destruct style, pt, effects; reflexivity.
  - intros [= <-]. destruct style, pt, effects; reflexivity.
Qed.

Lemma visitAll_app nodes1 nodes2 tokens :
  visitAll (nodes1 ++ nodes2) tokens
  = match visitAll nodes1 tokens with
    | inl e => inl e
    | inr tokens' => visitAll nodes2 tokens'
    end.
Proof.
  revert tokens. induction nodes1 as [|n ns IH]; intros tokens; simpl.
  - reflexivity.
  - destruct (visit n tokens); [reflexivity|apply IH].
Qed.

Lemma hexesOf_cons n ns :
  hexesOf (n :: ns) = (hexesOf [n] ++ hexesOf ns)%list.
Proof. unfold hexesOf. simpl. by rewrite app_nil_r. Qed.

Lemma typographyOf_cons n ns :
  typographyOf (n :: ns) = (typographyOf [n] ++ typographyOf ns)%list.
Proof. unfold typographyOf. simpl. by destruct (Props.style n). Qed.

Lemma spacingOf_cons n ns :
  spacingOf (n :: ns) = (spacingOf [n] ++ spacingOf ns)%list.
Proof. unfold spacingOf. simpl. by destruct (Props.paddingTop n). Qed.

Lemma effectsOf_cons n ns :
  effectsOf (n :: ns) = (effectsOf [n] ++ effectsOf ns)%list.
Proof. unfold effectsOf. simpl. by rewrite app_nil_r. Qed.

Lemma visitAll_inr nodes tokens tokens' :
  visitAll nodes tokens = inr tokens' →
  tokens' =
    Tokens.mk (addAll (hexesOf nodes) (Tokens.colors tokens))
              (addAll (typographyOf nodes) (Tokens.typography tokens))
              (addAll (spacingOf nodes) (Tokens.spacing tokens))
              (addAll (effectsOf nodes) (Tokens.effects tokens)).
Proof.
  revert tokens. induction nodes as [|n ns IH]; intros tokens.
  - intros [= <-]. by destruct tokens.
  - cbn [visitAll].
    destruct (visit n tokens) as [?|t1] eqn:E; [discriminate|].
    apply visit_inr in E as ->. intros H. apply IH in H as ->.
    cbn [Tokens.colors Tokens.typography Tokens.spacing Tokens.effects].
    rewrite (hexesOf_cons n ns), (typographyOf_cons n ns),
      (spacingOf_cons n ns), (effectsOf_cons n ns), !addAll_app.
    reflexivity.
Qed.

(** Induction on trees, through the children. *)
Lemma node_nested_ind (P : node → Prop) :
  (∀ props, P (Node props None)) →
  (∀ props cs, Forall P cs → P (Node props (Some cs))) →
  ∀ n, P n.
Proof.
  intros Hleaf Hnode. fix IH 1. intros [props [cs|]].
  - apply Hnode. induction cs as [|c cs IHl]; constructor.
    + apply IH.
    + exact IHl.
  - apply Hleaf.
Qed.

(** The traversal is the visit of the nodes in the order [flatten] lists
    them. *)
Lemma traverseNodes_flatten n tokens :
  traverseNodes n tokens = visitAll (flatten n) tokens.
Proof.
  revert tokens.
  induction n as [props|props cs IH] using node_nested_ind; intros tokens;
    simpl.
  - destruct (visit props tokens); reflexivity.
  - destruct (visit props tokens) as [?|t1]; [reflexivity|].
    revert t1. induction IH as [|c cs Hc _ IHl]; intros t1; [reflexivity|].
    rewrite visitAll_app, <- Hc.
    destruct (traverseNodes c t1); [reflexivity|apply IHl].
Qed.

(** *** Six hexadecimal digits *)

Lemma of_pos_hex_digit (q : positive) (d : Z) (rest : string) :
  0 ≤ d < 16 →
  HexString.Raw.of_pos (Z.to_pos (16 * Z.pos q + d)) rest
  = HexString.Raw.of_pos q (String (hexDigit d) rest).
Proof.
  intros Hd.
  assert (H : d = 0 ∨ d = 1 ∨ d = 2 ∨ d = 3 ∨ d = 4 ∨ d = 5 ∨ d = 6 ∨ d = 7
              ∨ d = 8 ∨ d = 9 ∨ d = 10 ∨ d = 11 ∨ d = 12 ∨ d = 13 ∨ d = 14
              ∨ d = 15) by lia.
  repeat (destruct H as [->|H]; [reflexivity|]). subst d. reflexivity.
Qed.

Lemma of_pos_hex_step (m d : Z) (rest : string) :
  0 < m → 0 ≤ d < 16 →
  HexString.Raw.of_pos (Z.to_pos (16 * m + d)) rest
  = HexString.Raw.of_pos (Z.to_pos m) (String (hexDigit d) rest).
Proof.
  intros Hm Hd. destruct m as [|q|q]; try lia. by apply of_pos_hex_digit.
Qed.

Lemma toString16_pos n :
  0 < n → toString16 n = HexString.Raw.of_pos (Z.to_pos n) "".
Proof. intros Hn. destruct n; try lia. reflexivity. Qed.

Lemma wrap32_small z : - 2 ^ 31 ≤ z < 2 ^ 31 → wrap32 z = z.
Proof. intros Hz. unfold wrap32. rewrite Z.mod_small; lia. Qed.

Lemma byteOf_Some channel z :
  byteOf channel = Some z →
  Math_round (PrimFloat.mul channel 255%float) = RInt z ∧ 0 ≤ z ≤ 255.
Proof.
  unfold byteOf. destruct (Math_round _) as [| | |z']; try discriminate.
  destruct (0 <=? z') eqn:E1; [|discriminate].
  destruct (z' <=? 255) eqn:E2; [|discriminate].
  intros [= <-]. split; [reflexivity|]. lia.
Qed.

(** A colour whose channels round to bytes is rendered as [#] and the
    three bytes, two digits each. *)
Lemma rgbToHex_six_digits color r g b :
  byteOf (Color.r color) = Some r →
  byteOf (Color.g color) = Some g →
  byteOf (Color.b color) = Some b →
  rgbToHex color = sixDigitHex r g b.
Proof.
  intros Hr Hg Hb.
  apply byteOf_Some in Hr as [Er Hr], Hg as [Eg Hg], Hb as [Eb Hb].
  unfold rgbToHex. rewrite Er, Eg, Eb. unfold shiftLeft, toInt32.
  rewrite (wrap32_small r), (wrap32_small g) by lia.
  rewrite !Z.shiftl_mul_pow2 by lia.
  rewrite !wrap32_small by lia.
  pose proof (Z.div_mod r 16 ltac:(lia)) as Dr.
  pose proof (Z.div_mod g 16 ltac:(lia)) as Dg.
  pose proof (Z.div_mod b 16 ltac:(lia)) as Db.
  pose proof (Z.mod_pos_bound r 16 ltac:(lia)) as Mr.
  pose proof (Z.mod_pos_bound g 16 ltac:(lia)) as Mg.
  pose proof (Z.mod_pos_bound b 16 ltac:(lia)) as Mb.
  assert (0 ≤ r / 16 < 16) as Qr
    by (split; [apply Z.div_pos; lia|apply Z.div_lt_upper_bound; lia]).
  assert (0 ≤ g / 16 < 16) as Qg
    by (split; [apply Z.div_pos; lia|apply Z.div_lt_upper_bound; lia]).
  assert (0 ≤ b / 16 < 16) as Qb
    by (split; [apply Z.div_pos; lia|apply Z.div_lt_upper_bound; lia]).
  unfold sixDigitHex, hexByte.
  generalize dependent (r / 16). generalize dependent (r mod 16).
  generalize dependent (g / 16). generalize dependent (g mod 16).
  generalize dependent (b / 16). generalize dependent (b mod 16).
  intros b0 Mb b1 Db Qb g0 Mg g1 Dg Qg r0 Mr r1 Dr Qr.
  replace (1 * 2 ^ 24 + r * 2 ^ 16 + g * 2 ^ 8 + b)
    with (16 * (16 * (16 * (16 * (16 * (16 * 1 + r1) + r0) + g1) + g0) + b1)
          + b0) by lia.
  rewrite toString16_pos by lia.
  rewrite !of_pos_hex_step by lia.
  reflexivity.
Qed.

Lemma elem_of_hexesOf nodes h :
  h ∈ hexesOf nodes
  ↔ ∃ fill color,
      fill ∈ flat_map solidFills nodes
      ∧ Fill.color fill = Some color ∧ h = rgbToHex color.
Proof.
  unfold hexesOf. rewrite list_elem_of_In, in_flat_map. split.
  - intros (node & Hnode & Hh).
    apply list_elem_of_In, list_elem_of_omap in Hh as (fill & Hfill & Hc).
    destruct (Fill.color fill) as [color|] eqn:Ec; [|discriminate].
    injection Hc as <-. exists fill, color. repeat split; try done.
    apply list_elem_of_In, in_flat_map. exists node.
    split; [done|by apply list_elem_of_In].
  - intros (fill & color & Hfill & Ec & ->).
    apply list_elem_of_In, in_flat_map in Hfill as (node & Hnode & Hfill).
    exists node. split; [done|].
    apply list_elem_of_In, list_elem_of_omap. exists fill.
    rewrite Ec. split; [by apply list_elem_of_In|done].
Qed.

(** C8: when the file is fetched and the walk goes through, each category
    of the result is what the tree offers to it, in the order of the
    walk, without the duplicates: no member occurs twice, and the members
    are exactly the hex forms of the solid fills' colours, the nodes'
    typography, their padding and their effects, equal values being one
    value.  A solid fill whose channels round to bytes contributes [#]
    and six hexadecimal digits, and solid fills that all have one colour,
    however many they are, yield exactly one hex colour. *)
Theorem extractDesignTokens_deduplicates :
  ∀ (document : node) (tokens : Tokens.t),
    extractDesignTokens (FileData (Some document)) = inr tokens →
    (Tokens.colors tokens = dedupe (hexesOf (flatten document))
     ∧ Tokens.typography tokens = dedupe (typographyOf (flatten document))
     ∧ Tokens.spacing tokens = dedupe (spacingOf (flatten document))
     ∧ Tokens.effects tokens = dedupe (effectsOf (flatten document)))
    ∧ (NoDup (Tokens.colors tokens) ∧ NoDup (Tokens.typography tokens)
       ∧ NoDup (Tokens.spacing tokens) ∧ NoDup (Tokens.effects tokens))
    ∧ ((∀ h, h ∈ Tokens.colors tokens ↔ h ∈ hexesOf (flatten document))
       ∧ (∀ t, t ∈ Tokens.typography tokens
               ↔ t ∈ typographyOf (flatten document))
       ∧ (∀ p, p ∈ Tokens.spacing tokens
               ↔ p ∈ spacingOf (flatten document))
       ∧ (∀ e, e ∈ Tokens.effects tokens
               ↔ e ∈ effectsOf (flatten document)))
    ∧ (∀ fill color r g b,
         fill ∈ solidFillsOf document → Fill.color fill = Some color →
         byteOf (Color.r color) = Some r →
         byteOf (Color.g color) = Some g →
         byteOf (Color.b color) = Some b →
         rgbToHex color = sixDigitHex r g b
         ∧ sixDigitHex r g b ∈ Tokens.colors tokens)
    ∧ (∀ color,
         solidFillsOf document ≠ [] →
         (∀ fill, fill ∈ solidFillsOf document →
                  Fill.color fill = Some color) →
         Tokens.colors tokens = [rgbToHex color]).
Proof.
  intros document tokens. unfold extractDesignTokens. simpl.
  rewrite traverseNodes_flatten.
  destruct (visitAll (flatten document) Tokens.empty) as [?|t] eqn:E;
    [discriminate|].
  intros [= <-]. apply visitAll_inr in E as ->. simpl.
  fold (dedupe (hexesOf (flatten document))).
  fold (dedupe (typographyOf (flatten document))).
  fold (dedupe (spacingOf (flatten document))).
  fold (dedupe (effectsOf (flatten document))).
  split; [by repeat split|].
  split; [repeat split; apply NoDup_dedupe|].
  split; [repeat split; apply elem_of_dedupe|].
  split.
  - intros fill color r g b Hfill Hcolor Hr Hg Hb.
    split; [by apply rgbToHex_six_digits|].
    rewrite <- (rgbToHex_six_digits color r g b) by assumption.
    apply elem_of_dedupe, elem_of_hexesOf. by exists fill, color.
  - intros color Hne Hall. apply NoDup_all_same.
    + apply NoDup_dedupe.
    + intros h Hh.
      apply elem_of_dedupe, elem_of_hexesOf in Hh
        as (fill & color' & Hfill & Hc & ->).
      rewrite (Hall fill Hfill) in Hc. by injection Hc as <-.
    + unfold solidFillsOf in *.
      destruct (flat_map solidFills (flatten document)) as [|fill fills]
        eqn:Ef; [done|].
      intros Hnil.
      assert (Hin : rgbToHex color ∈ dedupe (hexesOf (flatten document))).
      { apply elem_of_dedupe, elem_of_hexesOf. exists fill, color.
        rewrite Ef. split; [apply list_elem_of_here|].
        split; [apply Hall, list_elem_of_here|done]. }
      rewrite Hnil in Hin. by apply elem_of_nil in Hin.
Qed.

(** Equality of effects is that of their [JSON.stringify] renderings,
    which follow the key order of each object: two effects with the same
    members in a different order are two members of the set. *)
Remark effects_compared_in_key_order :
  addEffects
    [VObj [("type", VStr "DROP_SHADOW"); ("radius", VNum (Q2Qc 4))];
     VObj [("radius", VNum (Q2Qc 4)); ("type", VStr "DROP_SHADOW")];
     VObj [("type", VStr "DROP_SHADOW"); ("radius", VNum (Q2Qc 4))]] []
  = [VObj [("type", VStr "DROP_SHADOW"); ("radius", VNum (Q2Qc 4))];
     VObj [("radius", VNum (Q2Qc 4)); ("type", VStr "DROP_SHADOW")]].
Proof. vm_compute. reflexivity. Qed.

Lemma extractDesignTokens_deduplicates_witness :
  extractDesignTokens (FileData (Some twoReds))
  = inr (Tokens.mk ["#ff0000"] [inter14]
           [Spacing.mk (VNum (Q2Qc 8)) None None None] [shadow])
  ∧ solidFillsOf twoReds = [redFill; redFill]
  ∧ rgbToHex red = sixDigitHex 255 0 0
  ∧ Tokens.colors
      (Tokens.mk ["#ff0000"] [inter14]
         [Spacing.mk (VNum (Q2Qc 8)) None None None] [shadow])
    = [rgbToHex red].
Proof.
  assert (E : extractDesignTokens (FileData (Some twoReds))
              = inr (Tokens.mk ["#ff0000"] [inter14]
                       [Spacing.mk (VNum (Q2Qc 8)) None None None] [shadow]))
    by (vm_compute; reflexivity).
  destruct (extractDesignTokens_deduplicates twoReds _ E)
    as (_ & _ & _ & Hsix & Hone).
  split; [exact E|]. split; [reflexivity|]. split.
  - apply (Hsix redFill red 255 0 0); try reflexivity.
    apply list_elem_of_here.
  - apply Hone; [discriminate|].
    intros fill Hfill.
    change (solidFillsOf twoReds) with [redFill; redFill] in Hfill.
    apply elem_of_cons in Hfill as [->|Hfill]; [reflexivity|].
    apply elem_of_cons in Hfill as [->|Hfill]; [reflexivity|].
    by apply elem_of_nil in Hfill.
Defined.

(** * Further properties *)

(** ** What no request does to a stored artifact *)

Lemma docStep_refl c : docStep c c.
Proof. unfold docStep. repeat split; auto; lia. Qed.

Lemma docKeyStep_same o : docKeyStep o o.
Proof. destruct o; simpl; [apply docStep_refl|done]. Qed.

Lemma docKeyStep_insert id c d s k :
  keyed s →
  Store.contents s !! id = Some c →
  docStep c d →
  docKeyStep (Store.contents s !! k)
    (<[Content._id c := d]> (Store.contents s) !! k).
Proof.
  intros Hk Hc Hd. rewrite (Hk _ _ Hc).
  destruct (decide (id = k)) as [<-|Hne].
  - by rewrite lookup_insert_eq, Hc.
  - rewrite lookup_insert_ne by done. apply docKeyStep_same.
Qed.

(** The steps of a document that a handler saves. *)
Ltac doc_step :=
  unfold docStep; simpl;
  repeat match goal with |- _ ∧ _ => split end;
  try reflexivity; try assumption;
  try (by apply prefix_app_r);
  try (rewrite ?length_app; simpl; lia);
  try (intros _; assumption); auto.

(** One request, key by key. *)
Lemma route_doc_steps clk improve user req s :
  keyed s →
  ∀ k, docKeyStep (Store.contents s !! k)
         (Store.contents (fst (route clk improve user req s)) !! k).
Proof.
  intros Hk k.
  pose proof (docKeyStep_same (Store.contents s !! k)) as Hsame.
  assert (Hins : ∀ id c d,
    Store.contents s !! id = Some c → docStep c d →
    docKeyStep (Store.contents s !! k)
      (<[Content._id c := d]> (Store.contents s) !! k))
    by (intros; by eapply docKeyStep_insert).
  destruct req.
  - unfold_handler.
    destruct (Store.contents s !! contentId) as [c|] eqn:Hc; simpl;
      [|exact Hsame].
    destruct (negb _); simpl; [exact Hsame|].
    destruct (improve _ _); simpl; [|exact Hsame].
    case_save; [|exact Hsame].
    eapply Hins; [exact Hc|doc_step].
  - unfold route, ContentController.listContent.
    destruct (_ <? 0); exact Hsame.
  - unfold_handler.
    destruct (Store.contents s !! id) as [c|] eqn:Hc; simpl; [|exact Hsame].
    destruct (ReqUser.company user); simpl; [|exact Hsame].
    destruct (negb _); simpl; exact Hsame.
  - unfold_handler.
    destruct (Store.contents s !! id) as [c|] eqn:Hc; simpl; [|exact Hsame].
    destruct (negb _); simpl; [exact Hsame|].
    case_save; [|exact Hsame].
    destruct (truthy status); case_save; rewrite ?insert_insert_eq;
      (eapply Hins; [exact Hc|doc_step]).
  - unfold_handler.
    destruct (Store.contents s !! id) as [c|] eqn:Hc; simpl; [|exact Hsame].
    destruct (negb _); simpl; [exact Hsame|].
    case_save; [|exact Hsame].
    eapply Hins; [exact Hc|doc_step].
  - unfold_handler.
    destruct (Store.contents s !! id) as [c|] eqn:Hc; simpl; [|exact Hsame].
    destruct (negb _); simpl; [exact Hsame|].
    case_save; [|exact Hsame].
    eapply Hins; [exact Hc|doc_step].
  - unfold_handler.
    destruct (Store.contents s !! id) as [c|] eqn:Hc; simpl; [|exact Hsame].
    destruct (negb _); simpl; [exact Hsame|].
    destruct publishAt; simpl; [|exact Hsame].
    case_save; [|exact Hsame].
    eapply Hins; [exact Hc|doc_step].
  - unfold_handler. simpl.
    destruct (List.find _ _); exact Hsame.
  - unfold_handler.
    destruct (Store.contents s !! id) as [c|] eqn:Hc; exact Hsame.
  - unfold_handler.
    destruct (Store.contents s !! id) as [c|] eqn:Hc; simpl; [|exact Hsame].
    destruct (ContentController.findVersion _ _); exact Hsame.
  - unfold_handler.
    destruct (Store.contents s !! id) as [c|] eqn:Hc; simpl; [|exact Hsame].
    destruct (ContentController.findVersion _ _); simpl; [|exact Hsame].
    case_save; [|exact Hsame].
    case_save; rewrite ?insert_insert_eq;
      (eapply Hins; [exact Hc|doc_step]).
  - unfold route, publishBulk, throw. exact Hsame.
  - unfold route, checkRole, throwIf, bind, throw, ret.
    destruct (negb _); simpl; [exact Hsame|].
    rewrite lookup_fmap.
    destruct (Store.contents s !! k) as [c|] eqn:Hc; simpl; [|done].
    destruct (ContentController.matchesBulk _ _ c); simpl; doc_step.
Qed.

Lemma docStep_trans c1 c2 c3 : docStep c1 c2 → docStep c2 c3 → docStep c1 c3.
Proof.
  unfold docStep.
  intros (A1 & A2 & A3 & A4 & A5 & A6 & A7 & A8 & A9)
         (B1 & B2 & B3 & B4 & B5 & B6 & B7 & B8 & B9).
  repeat split; try congruence; auto.
  - by etrans.
  - lia.
Qed.

Lemma docKeyStep_trans o1 o2 o3 :
  docKeyStep o1 o2 → docKeyStep o2 o3 → docKeyStep o1 o3.
Proof.
  destruct o1, o2, o3; simpl; try done. apply docStep_trans.
Qed.

Lemma docKeyStep_keyed s s' :
  keyed s →
  (∀ k, docKeyStep (Store.contents s !! k) (Store.contents s' !! k)) →
  keyed s'.
Proof.
  intros Hk Hall k c' Hc'. specialize (Hall k). rewrite Hc' in Hall.
  destruct (Store.contents s !! k) as [c|] eqn:Hc; [|done].
  destruct Hall as (Hid & _). rewrite Hid. eapply Hk, Hc.
Qed.

(** Requests in a row, key by key. *)
Lemma runRequests_doc_steps clk improve reqs s :
  keyed s →
  ∀ k, docKeyStep (Store.contents s !! k)
         (Store.contents (runRequests clk improve reqs s) !! k).
Proof.
  revert s. induction reqs as [|[user req] rest IH]; intros s Hk k; simpl.
  - apply docKeyStep_same.
  - eapply docKeyStep_trans; [apply route_doc_steps, Hk|].
    apply IH. eapply docKeyStep_keyed; [exact Hk|].
    apply route_doc_steps, Hk.
Qed.

Lemma keyed_store2 : keyed store2.
Proof. apply (keyed_singleton draft2). Qed.

(** ** Versions and revisions *)

Lemma editStep_insert req id id0 c c0 d s (n : nat) :
  keyed s →
  Store.contents s !! id = Some c →
  Store.contents s !! id0 = Some c0 →
  (editOf req = None ∧ n = 0%nat) ∨ (editOf req = Some id0 ∧ n = 1%nat) →
  Content.version d = Content.version c0 + Z.of_nat n →
  length (Content.revisions d) = (length (Content.revisions c0) + n)%nat →
  Content.revisions c0 `prefix_of` Content.revisions d →
  ∃ c', <[Content._id c0 := d]> (Store.contents s) !! id = Some c'
        ∧ editStep req id c c'.
Proof.
  intros Hk Hc Hc0 Hreq Hv Hl Hp. rewrite (Hk _ _ Hc0).
  destruct (decide (id0 = id)) as [->|Hne].
  - rewrite lookup_insert_eq. rewrite Hc in Hc0. injection Hc0 as <-.
    exists d. split; [done|]. unfold editStep.
    destruct Hreq as [[-> ->]|[-> ->]].
    + rewrite bool_decide_eq_false_2 by done. by rewrite <- Hv, <- Hl.
    + rewrite bool_decide_eq_true_2 by done. by rewrite <- Hv, <- Hl.
  - rewrite lookup_insert_ne by done. exists c. split; [done|].
    unfold editStep. rewrite bool_decide_eq_false_2.
    + simpl. split; [lia|]. split; [lia|done].
    + destruct Hreq as [[-> _]|[-> _]]; congruence.
Qed.

Lemma editStep_none req id c :
  editOf req = None → editStep req id c c.
Proof.
  intros H. unfold editStep. rewrite H, bool_decide_eq_false_2 by done.
  simpl. split; [lia|]. split; [lia|done].
Qed.

(** One answered request, on the artifact under [id]. *)
Lemma route_edit_step clk improve user req s id c r :
  keyed s →
  Store.contents s !! id = Some c →
  snd (route clk improve user req s) = inr r →
  ∃ c', Store.contents (fst (route clk improve user req s)) !! id = Some c'
        ∧ editStep req id c c'.
Proof.
  intros Hk Hc.
  assert (Hsame : editOf req = None →
            ∃ c', Store.contents s !! id = Some c' ∧ editStep req id c c').
  { intros H. exists c. split; [done|]. by apply editStep_none. }
  destruct req.
  - unfold_handler.
    destruct (Store.contents s !! contentId) as [c0|] eqn:Hc0; simpl;
      [|discriminate].
    destruct (negb _); simpl; [discriminate|].
    destruct (improve _ _); simpl; [|discriminate].
    case_save; [|discriminate]. intros _.
    eapply (editStep_insert _ _ _ _ _ _ _ 1); try done; simpl;
      rewrite ?length_app; simpl; try lia; auto.
    by apply prefix_app_r.
  - unfold route, ContentController.listContent.
    destruct (_ <? 0); simpl; [discriminate|]. intros _. by apply Hsame.
  - unfold_handler.
    destruct (Store.contents s !! id0) as [c0|] eqn:Hc0; simpl;
      [|discriminate].
    destruct (ReqUser.company user); simpl; [|discriminate].
    destruct (negb _); simpl; [discriminate|]. intros _. by apply Hsame.
  - unfold_handler.
    destruct (Store.contents s !! id0) as [c0|] eqn:Hc0; simpl;
      [|discriminate].
    destruct (negb _); simpl; [discriminate|].
    case_save; [|discriminate].
    destruct (truthy status); case_save; try discriminate; intros _;
      rewrite ?insert_insert_eq;
      (eapply (editStep_insert _ _ _ _ _ _ _ 1); try done; simpl;
       rewrite ?length_app; simpl; try lia; auto;
       by apply prefix_app_r).
  - unfold_handler.
    destruct (Store.contents s !! id0) as [c0|] eqn:Hc0; simpl;
      [|discriminate].
    destruct (negb _); simpl; [discriminate|].
    case_save; [|discriminate]. intros _.
    eapply (editStep_insert _ _ _ _ _ _ _ 0); try done; simpl;
      try lia; auto.
  - unfold_handler.
    destruct (Store.contents s !! id0) as [c0|] eqn:Hc0; simpl;
      [|discriminate].
    destruct (negb _); simpl; [discriminate|].
    case_save; [|discriminate]. intros _.
    eapply (editStep_insert _ _ _ _ _ _ _ 0); try done; simpl;
      try lia; auto.
  - unfold_handler.
    destruct (Store.contents s !! id0) as [c0|] eqn:Hc0; simpl;
      [|discriminate].
    destruct (negb _); simpl; [discriminate|].
    destruct publishAt; simpl; [|discriminate].
    case_save; [|discriminate]. intros _.
    eapply (editStep_insert _ _ _ _ _ _ _ 0); try done; simpl;
      try lia; auto.
  - unfold_handler. simpl.
    destruct (List.find _ _); simpl; [|discriminate]. intros _.
    by apply Hsame.
  - unfold_handler.
    destruct (Store.contents s !! id0) as [c0|] eqn:Hc0; simpl;
      [|discriminate]. intros _. by apply Hsame.
  - unfold_handler.
    destruct (Store.contents s !! id0) as [c0|] eqn:Hc0; simpl;
      [|discriminate].
    destruct (ContentController.findVersion _ _); simpl; [|discriminate].
    intros _. by apply Hsame.
  - unfold_handler.
    destruct (Store.contents s !! id0) as [c0|] eqn:Hc0; simpl;
      [|discriminate].
    destruct (ContentController.findVersion _ _); simpl; [|discriminate].
    case_save; [|discriminate].
    case_save; [|discriminate]. intros _. rewrite ?insert_insert_eq.
    eapply (editStep_insert _ _ _ _ _ _ _ 1); try done; simpl;
      rewrite ?length_app; simpl; try lia; auto.
    by apply prefix_app_r.
  - unfold route, publishBulk, throw. discriminate.
  - unfold route, checkRole, throwIf, bind, throw, ret.
    destruct (negb _); simpl; [discriminate|]. intros _.
    rewrite lookup_fmap, Hc. simpl. eexists. split; [reflexivity|].
    destruct (ContentController.matchesBulk _ _ c);
      unfold editStep; simpl; (split; [lia|]); (split; [lia|done]).
Qed.

Lemma editStep_cons user req reqs id c c1 c' :
  editStep req id c c1 →
  Content.version c' = Content.version c1 + Z.of_nat (editsOn id reqs) →
  length (Content.revisions c')
  = (length (Content.revisions c1) + editsOn id reqs)%nat →
  Content.revisions c1 `prefix_of` Content.revisions c' →
  Content.version c'
  = Content.version c + Z.of_nat (editsOn id ((user, req) :: reqs))
  ∧ length (Content.revisions c')
    = (length (Content.revisions c) + editsOn id ((user, req) :: reqs))%nat
  ∧ Content.revisions c `prefix_of` Content.revisions c'.
Proof.
  unfold editStep, editsOn. simpl. intros (Hv & Hl & Hp) Hv' Hl' Hp'.
  split; [|split]; [| |by etrans];
    destruct (bool_decide (editOf req = Some id)); simpl in *; lia.
Qed.

Lemma runRequests_edit_steps clk improve reqs s id c :
  keyed s →
  Store.contents s !! id = Some c →
  allSucceed clk improve reqs s = true →
  ∃ c',
    Store.contents (runRequests clk improve reqs s) !! id = Some c'
    ∧ Content.version c' = Content.version c + Z.of_nat (editsOn id reqs)
    ∧ length (Content.revisions c')
      = (length (Content.revisions c) + editsOn id reqs)%nat
    ∧ Content.revisions c `prefix_of` Content.revisions c'.
Proof.
  revert s c. induction reqs as [|[user req] reqs IH]; intros s c Hk Hc Hall;
    simpl in *.
  - exists c. unfold editsOn. simpl. split; [done|].
    split; [lia|]. split; [lia|done].
  - destruct (route clk improve user req s) as [s1 [e|r]] eqn:Er;
      [discriminate|].
    destruct (route_edit_step clk improve user req s id c r Hk Hc)
      as (c1 & Hc1 & Hstep); [by rewrite Er|].
    rewrite Er in Hc1. simpl in Hc1.
    destruct (IH s1 c1) as (c' & Hc' & Hv & Hl & Hp); [|done|done|].
    { replace s1 with (fst (route clk improve user req s))
        by (by rewrite Er).
      eapply docKeyStep_keyed; [exact Hk|]. apply route_doc_steps, Hk. }
    exists c'. split; [done|]. by eapply editStep_cons.
Qed.

(** C1, as the code has it.  Each call of [addRevision] on a valid
    artifact with a new body that is not empty stores the artifact with
    its version incremented by exactly 1 and with exactly one more
    revision, the one that holds the body and the version before the
    call.  Every improve, update and restore that is answered has made
    one such call, whether or not it changed the body, and no other
    request touches the version or the log: after a run of requests that
    are all answered, N of which are an improve, an update or a restore
    of the artifact, the stored version is the one before plus N, and the
    revision log is the one before and N revisions more.  So an artifact
    that starts with version 1 and no revision has version 1 + N and N
    revisions. *)
Theorem version_counts_answered_edits :
  (∀ (clk : Clock) (userId : ObjectId) (newContent changeLog : string)
     (c : Content.t) (s : Store.t),
     Content.validate c = true →
     newContent ≠ "" →
     ∃ s' c',
       ContentDb.addRevision clk userId newContent changeLog c s
       = (s', inr c')
       ∧ Store.contents s' !! Content._id c = Some c'
       ∧ Content.content c' = newContent
       ∧ Content.version c' = Content.version c + 1
       ∧ Content.revisions c'
         = (Content.revisions c
            ++ [Revision.mk (Content.content c) userId (now clk)
                  (Content.version c) changeLog])%list)
  ∧ (∀ (clk : Clock) (improve : string → string → option string)
       (reqs : list (ReqUser.t * Request)) (s : Store.t) (id : ObjectId)
       (c : Content.t),
       keyed s →
       Store.contents s !! id = Some c →
       allSucceed clk improve reqs s = true →
       ∃ c',
         Store.contents (runRequests clk improve reqs s) !! id = Some c'
         ∧ Content.version c'
           = Content.version c + Z.of_nat (editsOn id reqs)
         ∧ length (Content.revisions c')
           = (length (Content.revisions c) + editsOn id reqs)%nat
         ∧ Content.revisions c `prefix_of` Content.revisions c'
         ∧ (Content.version c = 1 → Content.revisions c = [] →
            Content.version c' = 1 + Z.of_nat (editsOn id reqs)
            ∧ length (Content.revisions c') = editsOn id reqs)).
Proof.
  split.
  - intros clk userId newContent changeLog c s Hv Hne.
    unfold ContentDb.addRevision, ContentDb.save.
    rewrite (validate_set_content c _ newContent Hv) by reflexivity.
    apply String.eqb_neq in Hne. rewrite Hne. simpl.
    eexists _, _. split; [reflexivity|]. simpl.
    split; [apply lookup_insert_eq|]. by repeat split.
  - intros clk improve reqs s id c Hk Hc Hall.
    destruct (runRequests_edit_steps clk improve reqs s id c Hk Hc Hall)
      as (c' & Hc' & Hv & Hl & Hp).
    exists c'. split; [done|]. split; [done|]. split; [done|].
    split; [done|]. intros H1 Hnil. rewrite Hv, Hl, H1, Hnil. by split.
Qed.

Lemma version_counts_answered_edits_witness :
  keyed store1
  ∧ allSucceed clock1 improveOk fourRequests store1 = true
  ∧ editsOn 1 fourRequests = 3%nat
  ∧ (∃ c',
       Store.contents (runRequests clock1 improveOk fourRequests store1)
         !! 1%nat = Some c'
       ∧ Content.version c' = 4
       ∧ length (Content.revisions c') = 3%nat)
  ∧ ∃ s' c',
      ContentDb.addRevision clock1 7 "second body" "Manual update" draft1
        store1 = (s', inr c')
      ∧ Store.contents s' !! 1%nat = Some c'
      ∧ Content.version c' = 2
      ∧ Content.revisions c'
        = [Revision.mk "first body" 7 86400000000 1 "Manual update"].
Proof.
  assert (Hk : keyed store1) by apply (keyed_singleton draft1).
  split; [exact Hk|]. split; [reflexivity|]. split; [reflexivity|].
  destruct version_counts_answered_edits as [Hcall H].
  split.
  - destruct (H clock1 improveOk fourRequests store1 1%nat draft1 Hk eq_refl
                eq_refl) as (c' & Hc' & _ & _ & _ & Hone).
    exists c'. split; [exact Hc'|]. exact (Hone eq_refl eq_refl).
  - destruct (Hcall clock1 7%nat "second body" "Manual update" draft1 store1
                eq_refl) as (s' & c' & Hs' & Hc' & _ & Hv & Hr);
      [discriminate|].
    exists s', c'. split; [exact Hs'|]. split; [exact Hc'|].
    split; [exact Hv|exact Hr].
Defined.

(** C1 as stated fails.  The artifact of the running example has version
    1 and no revision.  Its author sends an update with the body it
    already has: the request is answered, no body has changed, and the
    stored version is 2 with one revision.  And the author sends an
    update with an empty body: the request is refused with a
    [ValidationError], yet the revision made before the refusal is
    stored, and the version is 2. *)
Lemma update_counts_without_a_change :
  Content.version draft1 = 1
  ∧ Content.revisions draft1 = []
  ∧ (statusOf (snd (route clock1 noImprove author7
                      (UpdateContent 1 (Content.content draft1) None)
                      store1)) = 200
     ∧ Content.content <$>
         Store.contents
           (fst (route clock1 noImprove author7
                   (UpdateContent 1 (Content.content draft1) None) store1))
           !! 1%nat
       = Some (Content.content draft1)
     ∧ Content.version <$>
         Store.contents
           (fst (route clock1 noImprove author7
                   (UpdateContent 1 (Content.content draft1) None) store1))
           !! 1%nat
       = Some 2
     ∧ Content.revisions <$>
         Store.contents
           (fst (route clock1 noImprove author7
                   (UpdateContent 1 (Content.content draft1) None) store1))
           !! 1%nat
       = Some [Revision.mk "first body" 7 86400000000 1 "Manual update"])
  ∧ (snd (route clock1 noImprove author7 (UpdateContent 1 "" None) store1)
     = inl ValidationError
     ∧ Content.content <$>
         Store.contents
           (fst (route clock1 noImprove author7 (UpdateContent 1 "" None)
                   store1)) !! 1%nat
       = Some (Content.content draft1)
     ∧ Content.version <$>
         Store.contents
           (fst (route clock1 noImprove author7 (UpdateContent 1 "" None)
                   store1)) !! 1%nat
       = Some 2
     ∧ Content.revisions <$>
         Store.contents
           (fst (route clock1 noImprove author7 (UpdateContent 1 "" None)
                   store1)) !! 1%nat
       = Some [Revision.mk "first body" 7 86400000000 1 "Manual update"]).
Proof.
  split; [reflexivity|]. split; [reflexivity|].
  split; repeat split; vm_compute; reflexivity.
Qed.

(** X1: over any requests in a row, the revision log of an artifact is
    only appended to, never rewritten or shortened, and the version grows
    by exactly the number of revisions appended, so it never goes down. *)
Theorem revision_log_is_append_only :
  ∀ (clk : Clock) (improve : string → string → option string)
    (reqs : list (ReqUser.t * Request)) (s : Store.t) (id : ObjectId)
    (c : Content.t),
    keyed s →
    Store.contents s !! id = Some c →
    ∃ c',
      Store.contents (runRequests clk improve reqs s) !! id = Some c'
      ∧ Content.revisions c `prefix_of` Content.revisions c'
      ∧ Content.version c'
        = Content.version c
          + Z.of_nat (length (Content.revisions c')
                      - length (Content.revisions c))
      ∧ Content.version c ≤ Content.version c'.
Proof.
  intros clk improve reqs s id c Hk Hc.
  pose proof (runRequests_doc_steps clk improve reqs s Hk id) as H.
  rewrite Hc in H.
  destruct (Store.contents (runRequests clk improve reqs s) !! id) as [c'|]; [|done].
  destruct H as (_ & _ & _ & _ & _ & Hp & Hv & _).
  exists c'. split; [done|]. split; [done|].
  pose proof (prefix_length _ _ Hp). lia.
Qed.

Lemma revision_log_is_append_only_witness :
  keyed store2
  ∧ ∃ c',
      Store.contents (runRequests clock1 noImprove threeRequests store2)
        !! 1%nat = Some c'
      ∧ [revision1] `prefix_of` Content.revisions c'
      ∧ Content.version c' = 4
      ∧ length (Content.revisions c') = 3%nat.
Proof.
  split; [exact keyed_store2|].
  destruct (revision_log_is_append_only clock1 noImprove threeRequests
              store2 1%nat draft2 keyed_store2 eq_refl)
    as (c' & Hc' & Hp & Hv & _).
  exists c'. split; [exact Hc'|]. split; [exact Hp|].
  vm_compute in Hc'. injection Hc' as <-. split; reflexivity.
Defined.

(** X2: no request to these routes creates or removes an artifact, and
    none changes the identity, the type, the author, the company or the
    creation date of one: deleting is archiving, and ownership is for
    good. *)
Theorem artifacts_are_never_removed_or_reassigned :
  ∀ (clk : Clock) (improve : string → string → option string)
    (reqs : list (ReqUser.t * Request)) (s : Store.t) (id : ObjectId),
    keyed s →
    match Store.contents s !! id with
    | None => Store.contents (runRequests clk improve reqs s) !! id = None
    | Some c =>
        ∃ c',
          Store.contents (runRequests clk improve reqs s) !! id = Some c'
          ∧ Content._id c' = Content._id c
          ∧ Content.type c' = Content.type c
          ∧ Content.author c' = Content.author c
          ∧ Content.company c' = Content.company c
          ∧ Content.createdAt c' = Content.createdAt c
    end.
Proof.
  intros clk improve reqs s id Hk.
  pose proof (runRequests_doc_steps clk improve reqs s Hk id) as H.
  destruct (Store.contents s !! id) as [c|];
    destruct (Store.contents (runRequests clk improve reqs s) !! id)
      as [c'|]; try done.
  destruct H as (H1 & H2 & H3 & H4 & H5 & _). by exists c'.
Qed.

Lemma artifacts_are_never_removed_or_reassigned_witness :
  keyed store2
  ∧ (∃ c',
       Store.contents (runRequests clock1 noImprove threeRequests store2)
         !! 1%nat = Some c'
       ∧ Content.author c' = 7%nat ∧ Content.company c' = 100%nat)
  ∧ Store.contents (runRequests clock1 noImprove threeRequests store2)
      !! 2%nat = None.
Proof.
  split; [exact keyed_store2|]. split.
  - pose proof (artifacts_are_never_removed_or_reassigned clock1 noImprove
                  threeRequests store2 1%nat keyed_store2) as H.
    change (Store.contents store2 !! 1%nat) with (Some draft2) in H.
    destruct H as (c' & Hc' & _ & _ & Ha & Hco & _). by exists c'.
  - exact (artifacts_are_never_removed_or_reassigned clock1 noImprove
             threeRequests store2 2%nat keyed_store2).
Defined.

(** X3: no request clears the archive flag: an artifact that is archived
    stays archived whatever is asked afterwards, publish and update
    included. *)
Theorem archive_flag_is_never_cleared :
  ∀ (clk : Clock) (improve : string → string → option string)
    (reqs : list (ReqUser.t * Request)) (s : Store.t) (id : ObjectId)
    (c : Content.t),
    keyed s →
    Store.contents s !! id = Some c →
    Content.isArchived c = true →
    ∃ c',
      Store.contents (runRequests clk improve reqs s) !! id = Some c'
      ∧ Content.isArchived c' = true.
Proof.
  intros clk improve reqs s id c Hk Hc Ha.
  pose proof (runRequests_doc_steps clk improve reqs s Hk id) as H.
  rewrite Hc in H.
  destruct (Store.contents (runRequests clk improve reqs s) !! id) as [c'|]; [|done].
  destruct H as (_ & _ & _ & _ & _ & _ & _ & H & _).
  exists c'. auto.
Qed.

(** X4: a store whose artifacts all pass the schema validators still is
    one after any requests in a row: body present, status and channel
    platforms and statuses within their enumerations. *)
Theorem stored_artifacts_stay_valid :
  ∀ (clk : Clock) (improve : string → string → option string)
    (reqs : list (ReqUser.t * Request)) (s : Store.t),
    keyed s → storeValid s →
    storeValid (runRequests clk improve reqs s).
Proof.
  intros clk improve reqs s Hk Hv id c' Hc'.
  pose proof (runRequests_doc_steps clk improve reqs s Hk id) as H.
  rewrite Hc' in H.
  destruct (Store.contents s !! id) as [c|] eqn:Hc; [|done].
  destruct H as (_ & _ & _ & _ & _ & _ & _ & _ & H).
  apply H. eapply Hv, Hc.
Qed.

(** X5: if the version of every stored artifact is one more than the
    number of its revisions, it still is after any requests in a row. *)
Theorem version_counts_revisions :
  ∀ (clk : Clock) (improve : string → string → option string)
    (reqs : list (ReqUser.t * Request)) (s : Store.t),
    keyed s → versionsCount s →
    versionsCount (runRequests clk improve reqs s).
Proof.
  intros clk improve reqs s Hk Hv id c' Hc'.
  pose proof (runRequests_doc_steps clk improve reqs s Hk id) as H.
  rewrite Hc' in H.
  destruct (Store.contents s !! id) as [c|] eqn:Hc; [|done].
  destruct H as (_ & _ & _ & _ & _ & _ & H & _).
  pose proof (Hv _ _ Hc). lia.
Qed.

Lemma keyed_store4 : keyed store4.
Proof.
  intros id c H. unfold store4 in H. simpl in H.
  apply lookup_insert_Some in H as [[<- <-]|[_ H]]; [reflexivity|].
  apply lookup_singleton_Some in H as [<- <-]. reflexivity.
Qed.

Lemma archive_flag_is_never_cleared_witness :
  keyed store4
  ∧ Content.isArchived shelved2 = true
  ∧ ∃ c',
      Store.contents (runRequests clock1 noImprove reviveRequests store4)
        !! 2%nat = Some c'
      ∧ Content.status c' = "draft"
      ∧ length (Content.channels c') = 1%nat
      ∧ Content.isArchived c' = true.
Proof.
  split; [exact keyed_store4|]. split; [reflexivity|].
  destruct (archive_flag_is_never_cleared clock1 noImprove reviveRequests
              store4 2%nat shelved2 keyed_store4 eq_refl eq_refl)
    as (c' & Hc' & Ha).
  exists c'. split; [exact Hc'|].
  vm_compute in Hc'. injection Hc' as <-. repeat split.
Defined.

Lemma storeValid_store2 : storeValid store2.
Proof.
  intros id c H. simpl in H.
  apply lookup_singleton_Some in H as [<- <-]. reflexivity.
Qed.

Lemma stored_artifacts_stay_valid_witness :
  keyed store2 ∧ storeValid store2
  ∧ storeValid (runRequests clock1 noImprove threeRequests store2).
Proof.
  split; [exact keyed_store2|]. split; [exact storeValid_store2|].
  exact (stored_artifacts_stay_valid clock1 noImprove threeRequests store2
           keyed_store2 storeValid_store2).
Defined.

Lemma versionsCount_store2 : versionsCount store2.
Proof.
  intros id c H. simpl in H.
  apply lookup_singleton_Some in H as [<- <-]. reflexivity.
Qed.

Lemma version_counts_revisions_witness :
  keyed store2 ∧ versionsCount store2
  ∧ versionsCount (runRequests clock1 noImprove threeRequests store2).
Proof.
  split; [exact keyed_store2|]. split; [exact versionsCount_store2|].
  exact (version_counts_revisions clock1 noImprove threeRequests store2
           keyed_store2 versionsCount_store2).
Defined.

(** ** What single requests do *)

(** X6: archiving, by delete or in bulk, changes nothing of any stored
    artifact but its archive flag: body, status, version, revisions and
    channels are as before. *)
Theorem archiving_changes_only_the_flag :
  ∀ (clk : Clock) (improve : string → string → option string)
    (user : ReqUser.t) (req : Request) (s : Store.t) (k : ObjectId)
    (c : Content.t),
    archives req → keyed s →
    Store.contents s !! k = Some c →
    Store.contents (fst (route clk improve user req s)) !! k = Some c
    ∨ Store.contents (fst (route clk improve user req s)) !! k
      = Some (Content.set_isArchived true c).
Proof.
  intros clk improve user req s k c Hreq Hk Hc.
  destruct req; try done.
  - unfold_handler.
    destruct (Store.contents s !! id) as [c0|] eqn:Hc0; simpl; [|by left].
    destruct (negb _); simpl; [by left|].
    case_save; [|by left].
    rewrite (Hk _ _ Hc0).
    destruct (decide (id = k)) as [->|Hne].
    + right. rewrite lookup_insert_eq. congruence.
    + left. by rewrite lookup_insert_ne.
  - unfold route, checkRole, throwIf, bind, throw, ret.
    destruct (negb _); simpl; [by left|].
    rewrite lookup_fmap, Hc. simpl.
    destruct (ContentController.matchesBulk _ _ c); [by right|by left].
Qed.

Lemma archiving_changes_only_the_flag_witness :
  keyed store2
  ∧ Store.contents
      (fst (route clock1 noImprove author7 (DeleteContent 1) store2))
      !! 1%nat
    = Some (Content.set_isArchived true draft2).
Proof.
  split; [exact keyed_store2|].
  destruct (archiving_changes_only_the_flag clock1 noImprove author7
              (DeleteContent 1) store2 1%nat draft2 I keyed_store2 eq_refl)
    as [H|H]; [discriminate H|exact H].
Defined.

Lemma validChannel_published clk channels :
  forallb Content.validChannel
    (ContentController.publishedChannels clk channels)
  = forallb (fun ch => bool_decide (ch ∈ Content.platformEnum)) channels.
Proof.
  induction channels as [|ch channels IH]; [done|].
  simpl. rewrite IH. unfold Content.validChannel at 1. simpl.
  by rewrite andb_true_r.
Qed.

(** X7: when the author publishes a stored artifact that passes the
    schema validators, the request goes through exactly when every
    channel named is one of the schema's platforms: then the status is
    published and the channel list is replaced by one entry per channel
    named, each published at the time of the request; otherwise the
    request fails with a validation error and nothing is stored. *)
Theorem publish_replaces_channels_or_fails :
  ∀ (clk : Clock) (improve : string → string → option string)
    (user : ReqUser.t) (id : ObjectId) (channels : list string)
    (s : Store.t) (c : Content.t),
    Store.contents s !! id = Some c →
    Content._id c = id →
    Content.author c = ReqUser._id user →
    Content.validate c = true →
    route clk improve user (PublishContent id channels) s
    = if forallb (fun ch => bool_decide (ch ∈ Content.platformEnum)) channels
      then
        let c' :=
          Content.set_status "published"
            (Content.set_channels
               (map (fun ch => Channel.mk ch "published" (Some (now clk)))
                    channels) c) in
        (Store.set_contents (<[id := c']> (Store.contents s)) s,
         inr (RContent (Some "Content published successfully") c'))
      else (s, inl ValidationError).
Proof.
  intros clk improve user id channels s c Hc Hid Ha Hv.
  unfold_handler. rewrite Hc. simpl.
  rewrite Ha, Nat.eqb_refl. simpl.
  rewrite (validate_channels c)
    by (try done; apply published_in_enum).
  simpl. rewrite validChannel_published.
  destruct (forallb _ channels); simpl; [|reflexivity].
  by rewrite Hid.
Qed.

Lemma publish_replaces_channels_or_fails_witness :
  route clock1 noImprove author7 (PublishContent 1 ["website"; "email"])
    store1
  = (Store.mk
       {[ 1%nat :=
            Content.mk 1 "blog" "first body" "published" 7 100
              [Channel.mk "website" "published" (Some 86400000000);
               Channel.mk "email" "published" (Some 86400000000)]
              None 1 [] false 0 "Launch" "Announce v2" "gpt-4" ]}
       [Analytics.create 1 100],
     inr (RContent (Some "Content published successfully")
            (Content.mk 1 "blog" "first body" "published" 7 100
               [Channel.mk "website" "published" (Some 86400000000);
                Channel.mk "email" "published" (Some 86400000000)]
               None 1 [] false 0 "Launch" "Announce v2" "gpt-4")))
  ∧ route clock1 noImprove author7 (PublishContent 1 ["website"; "fax"])
      store1
    = (store1, inl ValidationError).
Proof.
  split.
  - rewrite (publish_replaces_channels_or_fails clock1 noImprove author7
               1%nat ["website"; "email"] store1 draft1
               eq_refl eq_refl eq_refl eq_refl).
    reflexivity.
  - rewrite (publish_replaces_channels_or_fails clock1 noImprove author7
               1%nat ["website"; "fax"] store1 draft1
               eq_refl eq_refl eq_refl eq_refl).
    reflexivity.
Defined.

Lemma validChannel_pending channels :
  forallb Content.validChannel
    (map (fun channel => Channel.mk channel "pending" None) channels)
  = forallb (fun ch => bool_decide (ch ∈ Content.platformEnum)) channels.
Proof.
  induction channels as [|ch channels IH]; [done|].
  simpl. rewrite IH. unfold Content.validChannel at 1. simpl.
  by rewrite andb_true_r.
Qed.

(** X8: when the author schedules a valid artifact for a valid date on
    platforms of the schema, the schedule is set and the channel list is
    replaced by one pending entry per channel named, without publication
    dates; status, body, version and revisions stay, so an artifact that
    was published stays published while all its channels read pending. *)
Theorem schedule_resets_channels_and_keeps_status :
  ∀ (clk : Clock) (improve : string → string → option string)
    (user : ReqUser.t) (id : ObjectId) (publishAt : Date)
    (timezone : string) (channels : list string) (s : Store.t)
    (c : Content.t),
    Store.contents s !! id = Some c →
    Content._id c = id →
    Content.author c = ReqUser._id user →
    Content.validate c = true →
    forallb (fun ch => bool_decide (ch ∈ Content.platformEnum)) channels
    = true →
    ∃ c',
      route clk improve user
        (ScheduleContent id (Some publishAt) timezone channels) s
      = (Store.set_contents (<[id := c']> (Store.contents s)) s,
         inr (RContent (Some "Content scheduled successfully") c'))
      ∧ Content.schedule c' = Some (Schedule.mk publishAt timezone)
      ∧ Content.channels c'
        = map (fun ch => Channel.mk ch "pending" None) channels
      ∧ Content.status c' = Content.status c
      ∧ Content.content c' = Content.content c
      ∧ Content.version c' = Content.version c
      ∧ Content.revisions c' = Content.revisions c.
Proof.
  intros clk improve user id publishAt timezone channels s c
    Hc Hid Ha Hv Hch.
  exists (Content.set_channels
            (map (fun ch => Channel.mk ch "pending" None) channels)
            (Content.set_schedule (Some (Schedule.mk publishAt timezone))
               c)).
  split; [|by repeat split].
  unfold_handler. rewrite Hc. simpl. rewrite Ha, Nat.eqb_refl. simpl.
  rewrite (validate_channels c)
    by (try done; simpl; by apply validate_status).
  simpl. rewrite validChannel_pending, Hch. simpl. by rewrite Hid.
Qed.

Lemma schedule_resets_channels_and_keeps_status_witness :
  ∃ c',
    Store.contents
      (fst (route clock1 noImprove author7
              (ScheduleContent 1 (Some 90000000000) "Europe/Paris"
                 ["twitter"]) store3)) !! 1%nat = Some c'
    ∧ Content.status c' = "archived"
    ∧ Content.channels c' = [Channel.mk "twitter" "pending" None].
Proof.
  destruct (schedule_resets_channels_and_keeps_status clock1 noImprove
              author7 1%nat 90000000000 "Europe/Paris" ["twitter"] store3
              archived3 eq_refl eq_refl eq_refl eq_refl eq_refl)
    as (c' & Hr & _ & Hch & Hst & _).
  exists c'. rewrite Hr. simpl. rewrite lookup_insert_eq.
  split; [reflexivity|]. split; [exact Hst|exact Hch].
Defined.

(** X9: an update by the author whose new body is empty is refused with
    a validation error, but not before [addRevision] has saved: the store
    then holds the artifact with its old body, one more revision and the
    next version number. *)
Theorem rejected_update_still_appends_revision :
  ∀ (clk : Clock) (improve : string → string → option string)
    (user : ReqUser.t) (id : ObjectId) (status : option string)
    (s : Store.t) (c : Content.t),
    Store.contents s !! id = Some c →
    Content._id c = id →
    Content.author c = ReqUser._id user →
    Content.validate c = true →
    route clk improve user (UpdateContent id "" status) s
    = (Store.set_contents
         (<[id := Content.pushRevision (now clk) (ReqUser._id user)
                    (Content.content c) "Manual update" c]>
            (Store.contents s)) s,
       inl ValidationError).
Proof.
  intros clk improve user id status s c Hc Hid Ha Hv.
  unfold_handler. rewrite Hc. simpl. rewrite Ha, Nat.eqb_refl. simpl.
  rewrite (validate_ext c) by reflexivity. rewrite Hv. simpl.
  destruct (truthy status); simpl;
    unfold Content.validate, Content.validateWritten; simpl;
    by rewrite Hid.
Qed.

Lemma rejected_update_still_appends_revision_witness :
  ∃ c',
    route clock1 noImprove author7 (UpdateContent 1 "" None) store1
    = (Store.mk {[ 1%nat := c' ]} [Analytics.create 1 100],
       inl ValidationError)
    ∧ Content.content c' = "first body"
    ∧ Content.version c' = 2
    ∧ length (Content.revisions c') = 1%nat.
Proof.
  exists (Content.pushRevision 86400000000 7 "first body" "Manual update"
            draft1).
  split; [|by repeat split].
  rewrite (rejected_update_still_appends_revision clock1 noImprove author7
             1%nat None store1 draft1 eq_refl eq_refl eq_refl eq_refl).
  reflexivity.
Defined.

Lemma find_app_none {A} (f : A → bool) (l1 l2 : list A) :
  List.find f l1 = None → List.find f (l1 ++ l2) = List.find f l2.
Proof.
  induction l1 as [|x l1 IH]; simpl; [done|].
  destruct (f x); [discriminate|exact IH].
Qed.

Lemma find_none_Forall {A} (f : A → bool) (l : list A) :
  Forall (fun x => f x = false) l → List.find f l = None.
Proof.
  induction 1 as [|x l Hx _ IH]; simpl; [done|]. by rewrite Hx.
Qed.

(** X10: restore goes there and back.  Restoring a version whose body is
    not empty puts that body in place under the next version number, and
    restoring the version number the artifact had before, which no
    earlier revision carries, brings the old body back under the version
    number after that. *)
Theorem restore_there_and_back :
  ∀ (clk clk' : Clock) (improve : string → string → option string)
    (user user' : ReqUser.t) (id : ObjectId) (raw raw' : string) (v : Z)
    (rev : Revision.t) (s : Store.t) (c : Content.t),
    Store.contents s !! id = Some c →
    Content._id c = id →
    Content.validate c = true →
    ContentController.findVersion (Some v) c = Some rev →
    Revision.content rev ≠ "" →
    Forall (fun r => Revision.version r ≠ Content.version c)
           (Content.revisions c) →
    ∃ c1 c2,
      Store.contents
        (fst (route clk improve user
                (RestoreContentVersion id raw (Some v)) s)) !! id = Some c1
      ∧ Content.content c1 = Revision.content rev
      ∧ Content.version c1 = Content.version c + 1
      ∧ Store.contents
          (fst (route clk' improve user'
                  (RestoreContentVersion id raw' (Some (Content.version c)))
                  (fst (route clk improve user
                          (RestoreContentVersion id raw (Some v)) s))))
          !! id = Some c2
      ∧ Content.content c2 = Content.content c
      ∧ Content.version c2 = Content.version c + 2.
Proof.
  intros clk clk' improve user user' id raw raw' v rev s c
    Hc Hid Hv Hfind Hbody Hfresh.
  unfold Content.validate, Content.validateWritten, Content.validateKept
    in Hv.
  apply andb_prop in Hv as [Hw Hk].
  apply andb_prop in Hw as [Hw H3]. apply andb_prop in Hw as [H1 H2].
  apply andb_prop in Hk as [Hk H7]. apply andb_prop in Hk as [Hk H6].
  apply andb_prop in Hk as [H4 H5].
  apply String.eqb_neq in Hbody.
  unfold ContentController.findVersion in Hfind.
  assert (Hfind1 :
    List.find (fun r => Revision.version r =? Content.version c)
      (Content.revisions c
       ++ [Revision.mk (Content.content c) (ReqUser._id user) (now clk)
             (Content.version c) ("Restored to version " +:+ raw)])
    = Some (Revision.mk (Content.content c) (ReqUser._id user) (now clk)
              (Content.version c) ("Restored to version " +:+ raw))).
  { rewrite find_app_none; [simpl; by rewrite Z.eqb_refl|].
    apply find_none_Forall. eapply Forall_impl; [exact Hfresh|].
    intros r Hr. by apply Z.eqb_neq. }
  eexists _, _.
  split.
  { unfold_handler. rewrite Hc. simpl. rewrite Hfind. simpl.
    unfold Content.validate, Content.validateWritten, Content.validateKept.
    simpl.
    repeat (progress (rewrite ?H1, ?H2, ?H3, ?H4, ?H5, ?H6, ?H7, ?Hbody;
                      simpl)).
    rewrite Hid. apply lookup_insert_eq. }
  split; [reflexivity|]. split; [reflexivity|].
  split.
  { unfold_handler. rewrite Hc. simpl. rewrite Hfind. simpl.
    unfold Content.validate, Content.validateWritten, Content.validateKept.
    simpl.
    repeat (progress (rewrite ?H1, ?H2, ?H3, ?H4, ?H5, ?H6, ?H7, ?Hbody;
                      simpl)).
    rewrite Hid, lookup_insert_eq. simpl. rewrite Hfind1. simpl.
    repeat (progress (rewrite ?H1, ?H2, ?H3, ?H4, ?H5, ?H6, ?H7, ?Hbody;
                      simpl)).
    rewrite Hid. apply lookup_insert_eq. }
  split; [reflexivity|]. simpl. lia.
Qed.

Lemma restore_there_and_back_witness :
  ∃ c1 c2,
    Store.contents
      (fst (route clock1 noImprove outsider8
              (RestoreContentVersion 1 "1" (Some 1)) store2)) !! 1%nat
    = Some c1
    ∧ Content.content c1 = "first body"
    ∧ Store.contents
        (fst (route clock1 noImprove author7
                (RestoreContentVersion 1 "2" (Some 2))
                (fst (route clock1 noImprove outsider8
                        (RestoreContentVersion 1 "1" (Some 1)) store2))))
        !! 1%nat
      = Some c2
    ∧ Content.content c2 = "second body"
    ∧ Content.version c2 = 4.
Proof.
  destruct (restore_there_and_back clock1 clock1 noImprove outsider8 author7
              1%nat "1" "2" 1 revision1 store2 draft2
              eq_refl eq_refl eq_refl eq_refl ltac:(discriminate)
              ltac:(repeat constructor; discriminate))
    as (c1 & c2 & H1 & B1 & _ & H2 & B2 & V2).
  exists c1, c2. repeat split; assumption.
Defined.

(** X11: the requests that read, that is the listing, the two version
    reads and the analytics read, leave the whole store as it was,
    whoever asks and whatever they answer. *)
Theorem reads_leave_the_store_alone :
  ∀ (clk : Clock) (improve : string → string → option string)
    (user : ReqUser.t) (req : Request) (s : Store.t),
    readsOnly req →
    fst (route clk improve user req s) = s.
Proof.
  intros clk improve user req s Hreq. destruct req; try done.
  - unfold route, ContentController.listContent.
    by destruct (_ <? 0).
  - unfold_handler. simpl. by destruct (List.find _ _).
  - unfold_handler. by destruct (Store.contents s !! id).
  - unfold_handler. destruct (Store.contents s !! id); [|done]. simpl.
    by destruct (ContentController.findVersion _ _).
Qed.

Lemma reads_leave_the_store_alone_witness :
  fst (route clock1 noImprove outsider8 (GetContentVersion 1 (Some 1))
         store2) = store2
  ∧ snd (route clock1 noImprove outsider8 (GetContentVersion 1 (Some 7))
           store2) = inl ContentController.versionNotFound.
Proof.
  split; [|reflexivity].
  exact (reads_leave_the_store_alone clock1 noImprove outsider8
           (GetContentVersion 1 (Some 1)) store2 I).
Defined.

Lemma pushView_length contentId view docs :
  length (AnalyticsDb.pushView contentId view docs) = length docs.
Proof.
  induction docs as [|a docs IH]; simpl; [done|].
  destruct (_ =? _)%nat; simpl; by rewrite ?IH.
Qed.

Lemma pushView_first contentId view pre a post :
  Forall (fun b => Analytics.contentId b ≠ contentId) pre →
  Analytics.contentId a = contentId →
  AnalyticsDb.pushView contentId view (pre ++ a :: post)
  = (pre ++ Analytics.set_views (Analytics.views a ++ [view]) a :: post)%list.
Proof.
  intros Hpre Ha. induction Hpre as [|b pre Hb _ IH]; simpl.
  - by rewrite Ha, Nat.eqb_refl.
  - apply Nat.eqb_neq in Hb. by rewrite Hb, IH.
Qed.

Lemma pushView_absent contentId view docs :
  Forall (fun b => Analytics.contentId b ≠ contentId) docs →
  AnalyticsDb.pushView contentId view docs = docs.
Proof.
  induction 1 as [|b docs Hb _ IH]; simpl; [done|].
  apply Nat.eqb_neq in Hb. by rewrite Hb, IH.
Qed.

(** X12: what fetching an artifact does, by the caller.  An artifact that
    is not stored is not found.  For an account as the router serves it,
    whose company has no id, the company check throws a [TypeError] and
    nothing is written, whatever the artifact.  For an account object
    with a company id, another company than the artifact's is refused,
    and a member of the artifact's company gets the artifact, while one
    view, stamped with the time of the request and the source [api], is
    appended to the first analytics record of the artifact and to no
    other; when the artifact has no analytics record nothing is written,
    and the artifact is returned all the same.  The content collection
    is left alone in every case, and no analytics record is added or
    removed. *)
Theorem getContent_logs_a_view_past_the_company_check :
  ∀ (clk : Clock) (improve : string → string → option string)
    (user : ReqUser.t) (id : ObjectId) (userAgent : option string)
    (s : Store.t),
    keyed s →
    Store.contents (fst (route clk improve user (GetContent id userAgent) s))
    = Store.contents s
    ∧ length (Store.analytics
                (fst (route clk improve user (GetContent id userAgent) s)))
      = length (Store.analytics s)
    ∧ match Store.contents s !! id, ReqUser.company user with
      | None, _ =>
          route clk improve user (GetContent id userAgent) s
          = (s, inl ContentController.notFound)
      | Some c, None =>
          route clk improve user (GetContent id userAgent) s
          = (s, inl TypeError)
      | Some c, Some company =>
          if decide (Content.company c = company)
          then
            snd (route clk improve user (GetContent id userAgent) s)
            = inr (RContent None c)
            ∧ (Forall (fun b => Analytics.contentId b ≠ id)
                 (Store.analytics s) →
               fst (route clk improve user (GetContent id userAgent) s) = s)
            ∧ (∀ pre a post,
                 Store.analytics s = (pre ++ a :: post)%list →
                 Forall (fun b => Analytics.contentId b ≠ id) pre →
                 Analytics.contentId a = id →
                 Store.analytics
                   (fst (route clk improve user (GetContent id userAgent) s))
                 = (pre
                    ++ Analytics.set_views
                         (Analytics.views a
                          ++ [View.mk (now clk) (Some "api") userAgent]) a
                    :: post)%list)
          else
            route clk improve user (GetContent id userAgent) s
            = (s, inl ContentController.unauthorized)
      end.
Proof.
  intros clk improve user id userAgent s Hk.
  unfold_handler.
  destruct (Store.contents s !! id) as [c|] eqn:Hc; simpl; [|done].
  destruct (ReqUser.company user) as [company|]; simpl; [|done].
  destruct (decide (Content.company c = company)) as [<-|Hne].
  - rewrite Nat.eqb_refl. simpl. rewrite (Hk _ _ Hc).
    split; [done|]. split; [apply pushView_length|].
    split; [done|]. split.
    + intros Hnone. rewrite pushView_absent by done. by destruct s.
    + intros pre a post -> Hpre Ha. by apply pushView_first.
  - apply Nat.eqb_neq in Hne. rewrite Hne. simpl. done.
Qed.

Lemma getContent_logs_a_view_past_the_company_check_witness :
  keyed store2
  ∧ route clock1 noImprove member7 (GetContent 1 (Some "curl")) store2
    = (store2, inl TypeError)
  ∧ route clock1 noImprove outsider8 (GetContent 1 (Some "curl")) store2
    = (store2, inl ContentController.unauthorized)
  ∧ Store.analytics
      (fst (route clock1 noImprove author7 (GetContent 1 (Some "curl"))
              store2))
    = [Analytics.set_views
         [View.mk 86400000000 (Some "api") None;
          View.mk 86400000000 (Some "api") (Some "curl")] analytics2].
Proof.
  split; [exact keyed_store2|]. split; [|split].
  - destruct (getContent_logs_a_view_past_the_company_check clock1 noImprove
                member7 1%nat (Some "curl") store2 keyed_store2)
      as (_ & _ & H).
    exact H.
  - destruct (getContent_logs_a_view_past_the_company_check clock1 noImprove
                outsider8 1%nat (Some "curl") store2 keyed_store2)
      as (_ & _ & H).
    exact H.
  - destruct (getContent_logs_a_view_past_the_company_check clock1 noImprove
                author7 1%nat (Some "curl") store2 keyed_store2)
      as (_ & _ & _ & _ & H).
    exact (H [] analytics2 [] eq_refl (Forall_nil_2 _) eq_refl).
Defined.

Lemma checkRole_admin (user : ReqUser.t) :
  negb (bool_decide (ReqUser.role user ∈ ["admin"])) = false →
  ReqUser.role user = "admin".
Proof.
  intros H. apply negb_false_iff, bool_decide_eq_true in H.
  by apply list_elem_of_singleton in H.
Qed.

(** X13: a bulk request changes no artifact that it does not name, none
    of another company than the caller's, and none at all when the caller
    is no administrator. *)
Theorem bulk_requests_stay_within_their_reach :
  ∀ (clk : Clock) (improve : string → string → option string)
    (user : ReqUser.t) (req : Request) (ids : list ObjectId) (s : Store.t)
    (k : ObjectId) (c : Content.t),
    bulkIds req = Some ids →
    keyed s →
    Store.contents s !! k = Some c →
    ReqUser.role user ≠ "admin" ∨ k ∉ ids
    ∨ ReqUser.company user ≠ Some (Content.company c) →
    Store.contents (fst (route clk improve user req s)) !! k = Some c.
Proof.
  intros clk improve user req ids s k c Hreq Hk Hc Hout.
  assert (Hmiss : ReqUser.role user = "admin" →
                  ContentController.matchesBulk user ids c = false).
  { intros Hrole. unfold ContentController.matchesBulk.
    destruct Hout as [H|[H|H]]; [done| |].
    - rewrite (Hk _ _ Hc). by rewrite bool_decide_eq_false_2.
    - destruct (ReqUser.ofCompany user (Content.company c)) eqn:E;
        [|apply andb_false_r].
      by apply ofCompany_true in E. }
  destruct req; simpl in Hreq; try discriminate; injection Hreq as ->.
  - unfold route, publishBulk, throw. exact Hc.
  - unfold route, checkRole, throwIf, bind, throw, ret.
    destruct (negb _) eqn:Er; simpl; [done|].
    rewrite lookup_fmap, Hc. simpl. by rewrite (Hmiss (checkRole_admin _ Er)).
Qed.

Lemma bulk_requests_stay_within_their_reach_witness :
  keyed store4
  ∧ Store.contents
      (fst (route clock1 noImprove admin9 (BulkArchive [2%nat]) store4))
      !! 1%nat = Some draft1
  ∧ Content.isArchived <$>
      Store.contents
        (fst (route clock1 noImprove admin9 (BulkArchive [2%nat]) store4))
        !! 2%nat = Some true.
Proof.
  split; [exact keyed_store4|]. split; [|reflexivity].
  apply (bulk_requests_stay_within_their_reach clock1 noImprove admin9
           (BulkArchive [2%nat]) [2%nat] store4 1%nat draft1
           eq_refl keyed_store4 eq_refl).
  right. left. intros H. apply list_elem_of_singleton in H. discriminate H.
Defined.

(** ** Listing, page by page *)

Lemma newestFirst_trans : Transitive ContentController.newestFirst.
Proof. unfold ContentController.newestFirst. intros a b c. lia. Qed.

Lemma newestFirst_total : Total ContentController.newestFirst.
Proof. unfold ContentController.newestFirst. intros a b. lia. Qed.

(** The documents the query of a listing matches, newest first. *)
Lemma listContent_inr user type status page limit s s' contents p l total
    pages :
  ContentController.listContent user type status page limit s
  = (s', inr (RList contents p l total pages)) →
  0 ≤ (page - 1) * limit
  ∧ contents
    = ContentController.cursorLimit limit
        (drop (Z.to_nat ((page - 1) * limit))
           (merge_sort ContentController.newestFirst
              (List.filter (ContentController.matchesList user type status)
                 (ContentDb.all s))))
  ∧ total
    = length (List.filter (ContentController.matchesList user type status)
                (ContentDb.all s))
  ∧ pages = (if limit =? 0 then None
             else Some (- (- Z.of_nat total / limit))).
Proof.
  unfold ContentController.listContent.
  destruct ((page - 1) * limit <? 0) eqn:E; [discriminate|].
  intros [= <- <- _ _ <- <-]. apply Z.ltb_ge in E. done.
Qed.

Lemma cursorLimit_sorted {A} (R : relation A) n (l : list A) :
  StronglySorted R l → StronglySorted R (ContentController.cursorLimit n l).
Proof.
  unfold ContentController.cursorLimit. intros H.
  destruct (n =? 0); [done|].
  rewrite <- (take_drop (Z.to_nat (Z.abs n)) l) in H.
  by apply StronglySorted_app_1_l in H.
Qed.

Lemma drop_sorted {A} (R : relation A) n (l : list A) :
  StronglySorted R l → StronglySorted R (drop n l).
Proof.
  intros H. rewrite <- (take_drop n l) in H.
  by apply StronglySorted_app_1_r in H.
Qed.

(** X14: a page of the listing is in order, newest first; it holds no
    more artifacts than the limit asks for, a limit of zero asking for
    all of them; and for a positive limit the number of pages reported is
    the least that holds the total. *)
Theorem listing_page_is_sorted_and_bounded :
  ∀ (user : ReqUser.t) (type status : option string) (page limit : Z)
    (s s' : Store.t) (contents : list Content.t) (p l : Z) (total : nat)
    (pages : option Z),
    ContentController.listContent user type status page limit s
    = (s', inr (RList contents p l total pages)) →
    StronglySorted ContentController.newestFirst contents
    ∧ (length contents ≤ total)%nat
    ∧ (limit ≠ 0 → Z.of_nat (length contents) ≤ Z.abs limit)
    ∧ (limit = 0 → length contents = total ∧ pages = None)
    ∧ (0 < limit →
       ∃ n, pages = Some n
            ∧ (n - 1) * limit < Z.of_nat total ≤ n * limit).
Proof.
  intros user type status page limit s s' contents p l total pages H.
  apply listContent_inr in H as (Hskip & -> & Htotal & ->).
  assert (Hlen : length (merge_sort ContentController.newestFirst
                   (List.filter
                      (ContentController.matchesList user type status)
                      (ContentDb.all s))) = total).
  { by rewrite merge_sort_Permutation. }
  split; [|split; [|split; [|split]]].
  - apply cursorLimit_sorted, drop_sorted.
    apply StronglySorted_merge_sort;
      [apply newestFirst_trans|apply newestFirst_total].
  - unfold ContentController.cursorLimit. destruct (limit =? 0).
    + rewrite length_drop. lia.
    + rewrite length_take, length_drop. lia.
  - intros Hl. unfold ContentController.cursorLimit.
    apply Z.eqb_neq in Hl. rewrite Hl. rewrite length_take. lia.
  - intros ->. split; [|done].
    unfold ContentController.cursorLimit. simpl.
    replace ((page - 1) * 0) with 0 by lia. simpl. by rewrite drop_0.
  - intros Hl. destruct (limit =? 0) eqn:E; [lia|].
    eexists; split; [reflexivity|].
    pose proof (Z.mul_div_le (- Z.of_nat total) limit Hl).
    pose proof (Z.mul_succ_div_gt (- Z.of_nat total) limit Hl).
    nia.
Qed.

Lemma listing_page_is_sorted_and_bounded_witness :
  ContentController.listContent author7 None None 1 10 store4
  = (store4, inr (RList [draft1] 1 10 1 (Some 1)))
  ∧ StronglySorted ContentController.newestFirst [draft1]
  ∧ (10 ≠ 0 → Z.of_nat (length [draft1]) ≤ Z.abs 10).
Proof.
  assert (E : ContentController.listContent author7 None None 1 10 store4
              = (store4, inr (RList [draft1] 1 10 1 (Some 1))))
    by reflexivity.
  destruct (listing_page_is_sorted_and_bounded author7 None None 1 10
              store4 store4 [draft1] 1 10 1%nat (Some 1) E)
    as (Hs & _ & Hb & _).
  split; [exact E|]. split; [exact Hs|exact Hb].
Defined.



(** An archived artifact is on no page of any listing. *)
Lemma archived_not_listed user type status page limit s s' contents p l
    total pages id c :
  keyed s →
  Store.contents s !! id = Some c →
  Content.isArchived c = true →
  ContentController.listContent user type status page limit s
  = (s', inr (RList contents p l total pages)) →
  ∀ c', c' ∈ contents → Content._id c' ≠ id.
Proof.
  intros Hk Hc Ha H c' Hc' Hid.
  apply listContent_inr in H as (_ & -> & _ & _).
  apply cursorLimit_subseteq, subseteq_drop in Hc'.
  rewrite merge_sort_Permutation in Hc'.
  apply list_elem_of_In, List.filter_In in Hc' as [Hin Hm].
  apply list_elem_of_In, elem_of_all in Hin as (k & Hk').
  apply matchesList_true in Hm as [_ Hm].
  rewrite (Hk _ _ Hk') in Hid. subst k. congruence.
Qed.

(** X16: once the author has deleted an artifact, it is on no page of
    any listing, for any caller and any filter, whatever requests are
    served in between. *)
Theorem deleted_artifact_is_never_listed_again :
  ∀ (clk : Clock) (improve : string → string → option string)
    (user : ReqUser.t) (id : ObjectId) (s : Store.t) (r : Response)
    (reqs : list (ReqUser.t * Request))
    (user' : ReqUser.t) (type status : option string) (page limit : Z)
    (s' : Store.t) (contents : list Content.t) (p l : Z) (total : nat)
    (pages : option Z),
    keyed s →
    snd (route clk improve user (DeleteContent id) s) = inr r →
    ContentController.listContent user' type status page limit
      (runRequests clk improve reqs
         (fst (route clk improve user (DeleteContent id) s)))
    = (s', inr (RList contents p l total pages)) →
    ∀ c, c ∈ contents → Content._id c ≠ id.
Proof.
  intros clk improve user id s r reqs user' type status page limit s'
    contents p l total pages Hk Hok Hlist.
  set (s1 := fst (route clk improve user (DeleteContent id) s)) in *.
  assert (Hk1 : keyed s1).
  { eapply docKeyStep_keyed; [exact Hk|]. intros k.
    apply route_doc_steps, Hk. }
  assert (H1 : ∃ c1, Store.contents s1 !! id = Some c1
                     ∧ Content.isArchived c1 = true).
  { subst s1. revert Hok. unfold_handler.
    destruct (Store.contents s !! id) as [c0|] eqn:Hc0; simpl;
      [|discriminate].
    destruct (negb _); simpl; [discriminate|].
    case_save; [|discriminate]. intros _.
    rewrite (Hk _ _ Hc0), lookup_insert_eq. eauto. }
  destruct H1 as (c1 & Hc1 & Ha1).
  pose proof (runRequests_doc_steps clk improve reqs s1 Hk1 id) as Hstep.
  rewrite Hc1 in Hstep.
  destruct (Store.contents (runRequests clk improve reqs s1) !! id)
    as [c2|] eqn:Hc2; [|done].
  destruct Hstep as (_ & _ & _ & _ & _ & _ & _ & Ha & _).
  eapply archived_not_listed; [|exact Hc2|by apply Ha|exact Hlist].
  eapply docKeyStep_keyed; [exact Hk1|]. intros k.
  apply runRequests_doc_steps, Hk1.
Qed.

Lemma deleted_artifact_is_never_listed_again_witness :
  keyed store2
  ∧ snd (route clock1 noImprove author7 (DeleteContent 1) store2)
    = inr (RMessage "Content archived successfully")
  ∧ ∀ c, c ∈ [] → Content._id c ≠ 1%nat.
Proof.
  split; [exact keyed_store2|]. split; [reflexivity|].
  exact (deleted_artifact_is_never_listed_again clock1 noImprove author7
           1%nat store2 (RMessage "Content archived successfully")
           [(author7, PublishContent 1 ["website"])]
           author7 None None 1 10 _ [] 1 10 0%nat (Some 0)
           keyed_store2 eq_refl eq_refl).
Defined.

(** ** The bulk operations *)

Lemma List_filter_nil {A} (f : A → bool) (l : list A) :
  (∀ x, x ∈ l → f x = false) → List.filter f l = [].
Proof.
  induction l as [|x l IH]; intros H; simpl; [done|].
  rewrite (H x) by apply list_elem_of_here.
  apply IH. intros y Hy. apply H. by apply list_elem_of_further.
Qed.

Lemma keyed_ids s :
  keyed s →
  Content._id <$> ContentDb.all s = (map_to_list (Store.contents s)).*1.
Proof.
  intros Hk. unfold ContentDb.all.
  assert (H : ∀ k c, (k, c) ∈ map_to_list (Store.contents s) →
                     Content._id c = k).
  { intros k c Hin. apply elem_of_map_to_list in Hin. by apply Hk. }
  induction (map_to_list (Store.contents s)) as [|[k c] l IH]; [done|].
  simpl. f_equal.
  - apply H, list_elem_of_here.
  - apply IH. intros k' c' Hin. apply H. by apply list_elem_of_further.
Qed.

Lemma NoDup_fmap_filter {A B} (g : A → B) (f : A → bool) (l : list A) :
  NoDup (g <$> l) → NoDup (g <$> List.filter f l).
Proof.
  induction l as [|x l IH]; simpl; [done|].
  intros H. apply NoDup_cons in H as [Hx Hl].
  destruct (f x); simpl; [|by apply IH].
  apply NoDup_cons. split; [|by apply IH].
  intros Hin. apply Hx.
  apply list_elem_of_fmap in Hin as (y & -> & Hy).
  apply list_elem_of_fmap. exists y. split; [done|].
  apply list_elem_of_In, List.filter_In in Hy as [Hy _].
  by apply list_elem_of_In.
Qed.

Lemma bulk_matches_bounded user ids (f : Content.t → bool) s :
  keyed s →
  (∀ c, f c = true → ContentController.matchesBulk user ids c = true) →
  (length (List.filter f (ContentDb.all s)) ≤ length ids)%nat.
Proof.
  intros Hk Hf.
  rewrite <- (length_fmap Content._id (List.filter f (ContentDb.all s))).
  apply submseteq_length, NoDup_submseteq.
  - apply NoDup_fmap_filter. rewrite keyed_ids by done.
    apply NoDup_fst_map_to_list.
  - intros k Hin. apply list_elem_of_fmap in Hin as (c & -> & Hc).
    apply list_elem_of_In, List.filter_In in Hc as [_ Hc].
    apply Hf in Hc. unfold ContentController.matchesBulk in Hc.
    apply andb_prop in Hc as [Hc _]. by apply bool_decide_eq_true in Hc.
Qed.

Lemma List_filter_Permutation {A} (f : A → bool) (l1 l2 : list A) :
  l1 ≡ₚ l2 → List.filter f l1 ≡ₚ List.filter f l2.
Proof.
  induction 1 as [|x l1 l2 _ IH|x y l|l1 l2 l3 _ IH1 _ IH2]; simpl.
  - done.
  - destruct (f x); [by constructor|done].
  - destruct (f x), (f y); try done. apply perm_swap.
  - by etrans.
Qed.

Lemma List_filter_fmap_length {A} (f : A → bool) (g : A → A) (l : list A) :
  (∀ x, f (g x) = f x) →
  length (List.filter f (g <$> l)) = length (List.filter f l).
Proof.
  intros Hfg. induction l as [|x l IH]; simpl; [done|].
  rewrite Hfg. destruct (f x); simpl; [f_equal|]; exact IH.
Qed.

Lemma all_fmap (g : Content.t → Content.t) (s : Store.t) :
  ContentDb.all (Store.set_contents (g <$> Store.contents s) s)
  ≡ₚ g <$> ContentDb.all s.
Proof.
  unfold ContentDb.all. simpl. rewrite map_to_list_fmap.
  induction (map_to_list (Store.contents s)) as [|[k c] l IH]; simpl;
    [done|by constructor].
Qed.

Lemma matchesBulk_archived user ids c :
  ContentController.matchesBulk user ids (Content.set_isArchived true c)
  = ContentController.matchesBulk user ids c.
Proof. reflexivity. Qed.

(** X17: a bulk archive by an administrator archives every artifact of
    the administrator's company that it names.  The count it reports is
    the number of stored artifacts the request matches, those archived
    before included, and at most the number of ids named; so the same
    request again leaves every stored artifact as it is and reports the
    same count once more.  For an administrator as the router serves it,
    whose company has no id, the request matches nothing: the count is
    zero and the store stays as it was. *)
Theorem bulkArchive_counts_what_it_matches :
  ∀ (clk : Clock) (improve : string → string → option string)
    (user : ReqUser.t) (ids : list ObjectId) (s : Store.t),
    keyed s →
    ReqUser.role user = "admin" →
    ∃ n : nat,
      snd (route clk improve user (BulkArchive ids) s)
      = inr (RCount "Contents archived successfully" n)
      ∧ n = length (List.filter (ContentController.matchesBulk user ids)
                      (ContentDb.all s))
      ∧ (n ≤ length ids)%nat
      ∧ (∀ k c,
           Store.contents s !! k = Some c → k ∈ ids →
           ReqUser.company user = Some (Content.company c) →
           Store.contents (fst (route clk improve user (BulkArchive ids) s))
             !! k = Some (Content.set_isArchived true c))
      ∧ (ReqUser.company user = None →
         n = 0%nat ∧ fst (route clk improve user (BulkArchive ids) s) = s)
      ∧ route clk improve user (BulkArchive ids)
          (fst (route clk improve user (BulkArchive ids) s))
        = (fst (route clk improve user (BulkArchive ids) s),
           inr (RCount "Contents archived successfully" n)).
Proof.
  intros clk improve user ids s Hk Hrole.
  unfold route, checkRole, throwIf, bind, throw, ret.
  rewrite Hrole. simpl.
  eexists. split; [reflexivity|]. split; [reflexivity|].
  split; [|split; [|split]].
  - by apply (bulk_matches_bounded user).
  - intros k c Hc Hin Hco. rewrite lookup_fmap, Hc. simpl.
    unfold ContentController.matchesBulk.
    rewrite (Hk _ _ Hc), bool_decide_eq_true_2 by done.
    apply ofCompany_true in Hco. by rewrite Hco.
  - intros Hnone.
    assert (Hmiss : ∀ c, ContentController.matchesBulk user ids c = false).
    { intros c. unfold ContentController.matchesBulk, ReqUser.ofCompany.
      rewrite Hnone. apply andb_false_r. }
    split.
    + rewrite List_filter_nil; [done|]. intros c _. apply Hmiss.
    + destruct s as [m an]. unfold Store.set_contents. simpl. f_equal.
      rewrite <- (map_fmap_id m) at 2. apply map_fmap_ext.
      intros k c _. by rewrite Hmiss.
  - unfold ContentController.bulkArchiveContent. simpl. f_equal.
    + destruct s as [m an]. unfold Store.set_contents. simpl. f_equal.
      rewrite <- map_fmap_compose. apply map_fmap_ext.
      intros k c _. simpl.
      destruct (ContentController.matchesBulk user ids c) eqn:E; simpl.
      * by rewrite matchesBulk_archived, E.
      * by rewrite E.
    + do 2 f_equal.
      rewrite (Permutation_length
                 (List_filter_Permutation _ _ _ (all_fmap _ s))).
      apply List_filter_fmap_length. intros c.
      destruct (ContentController.matchesBulk user ids c) eqn:E.
      * by rewrite matchesBulk_archived.
      * done.
Qed.

Lemma bulkArchive_counts_what_it_matches_witness :
  keyed store4
  ∧ (∃ n : nat,
       snd (route clock1 noImprove admin9 (BulkArchive [1; 2; 5]%nat) store4)
       = inr (RCount "Contents archived successfully" n)
       ∧ n = 2%nat
       ∧ Store.contents
           (fst (route clock1 noImprove admin9 (BulkArchive [1; 2; 5]%nat)
                   store4)) !! 1%nat
         = Some (Content.set_isArchived true draft1))
  ∧ route clock1 noImprove (ReqUser.mk 9 None "admin")
      (BulkArchive [1; 2; 5]%nat) store4
    = (store4, inr (RCount "Contents archived successfully" 0)).
Proof.
  split; [exact keyed_store4|]. split.
  - destruct (bulkArchive_counts_what_it_matches clock1 noImprove admin9
                [1; 2; 5]%nat store4 keyed_store4 eq_refl)
      as (n & Hn & _ & _ & Harch & _).
    exists n. split; [exact Hn|]. split.
    + vm_compute in Hn. by injection Hn as <-.
    + apply Harch; [reflexivity| |reflexivity]. apply list_elem_of_here.
  - destruct (bulkArchive_counts_what_it_matches clock1 noImprove
                (ReqUser.mk 9 None "admin") [1; 2; 5]%nat store4
                keyed_store4 eq_refl) as (n & Hn & _ & _ & _ & Hnone & _).
    destruct (Hnone eq_refl) as [-> Hs].
    rewrite (surjective_pairing (route _ _ _ _ _)). by rewrite Hn, Hs.
Defined.

Lemma saveAll_invalid ds s :
  Forall (fun d => Content.validate d = false) ds →
  fst (ContentController.saveAll ds s) = s.
Proof.
  induction 1 as [|d ds Hd _ IH]; simpl; [done|].
  unfold ContentDb.save. rewrite Hd. simpl. exact IH.
Qed.

Lemma saveAll_valid ds s :
  Forall (fun d => Content.validate d = true) ds →
  snd (ContentController.saveAll ds s) = inr tt.
Proof.
  intros H. revert s. induction H as [|d ds Hd _ IH]; intros s; simpl;
    [done|].
  unfold ContentDb.save. rewrite Hd. simpl. apply IH.
Qed.

Lemma saveAll_error ds s e :
  snd (ContentController.saveAll ds s) = inl e → e = ValidationError.
Proof.
  revert s. induction ds as [|d ds IH]; intros s; simpl; [discriminate|].
  unfold ContentDb.save. destruct (Content.validate d); simpl.
  - apply IH.
  - congruence.
Qed.

Lemma saveAll_valid_lookup ds s d :
  Forall (fun d => Content.validate d = true) ds →
  d ∈ ds →
  (∀ d', d' ∈ ds → Content._id d' = Content._id d → d' = d) →
  Store.contents (fst (ContentController.saveAll ds s)) !! Content._id d
  = Some d.
Proof.
  intros Hv. revert s. induction Hv as [|d0 ds Hd0 Hv IH]; intros s Hin Huniq.
  - by apply elem_of_nil in Hin.
  - simpl. unfold ContentDb.save. rewrite Hd0. simpl.
    apply elem_of_cons in Hin as [->|Hin].
    + destruct (saveAll_lookup ds
                  (Store.set_contents
                     (<[Content._id d0 := d0]> (Store.contents s)) s)
                  (Content._id d0)) as [H|(d' & Hin' & Hid & _ & H)].
      * rewrite H. simpl. by rewrite lookup_insert_eq.
      * rewrite H. f_equal. apply Huniq; [|done].
        by apply list_elem_of_further.
    + apply IH; [done|].
      intros d' Hd' Hid. apply Huniq; [|done].
      by apply list_elem_of_further.
Qed.

(** X18: the bulk publish handler, over a store of valid artifacts, is
    all or nothing.  When it fails, for ids that name nothing of the
    caller's company or for a channel outside the schema's platforms,
    nothing is stored; when it goes through, every artifact of the
    company that it names, archived or not, is stored as published on the
    channels named, and the count is that of these artifacts, at most the
    number of ids.  For a caller whose company has no id, as every
    account the router serves, it finds nothing.  The router itself never
    calls the handler: a bulk publish request is taken by the route of
    the single publish and ends in a [CastError], the store untouched. *)
Theorem bulkPublish_is_all_or_nothing :
  ∀ (clk : Clock) (improve : string → string → option string)
    (user : ReqUser.t) (ids : list ObjectId) (channels : list string)
    (s : Store.t),
    keyed s → storeValid s →
    route clk improve user (BulkPublish ids channels) s = (s, inl CastError)
    ∧ (ReqUser.company user = None →
       ContentController.bulkPublishContent clk user ids channels s
       = (s, inl (APIError "No content found" 404)))
    ∧ match snd (ContentController.bulkPublishContent clk user ids channels s)
      with
      | inl e =>
          fst (ContentController.bulkPublishContent clk user ids channels s)
          = s
          ∧ (e = APIError "No content found" 404 ∨ e = ValidationError)
      | inr r =>
          ∃ n : nat,
            r = RCount "Contents published successfully" n
            ∧ (0 < n ≤ length ids)%nat
            ∧ ∀ k c,
                Store.contents s !! k = Some c → k ∈ ids →
                ReqUser.company user = Some (Content.company c) →
                Store.contents
                  (fst (ContentController.bulkPublishContent clk user ids
                          channels s)) !! k
                = Some (Content.set_status "published"
                          (Content.set_channels
                             (ContentController.publishedChannels clk
                                channels) c))
      end.
Proof.
  intros clk improve user ids channels s Hk Hv.
  split; [reflexivity|].
  unfold ContentController.bulkPublishContent.
  set (matched := List.filter (ContentController.matchesBulk user ids)
                    (ContentDb.all s)).
  set (publish := fun content =>
         Content.set_status "published"
           (Content.set_channels
              (ContentController.publishedChannels clk channels) content)).
  split.
  { intros Hnone. replace matched with (@nil Content.t); [done|].
    symmetry. apply List_filter_nil. intros c _.
    unfold ContentController.matchesBulk, ReqUser.ofCompany.
    rewrite Hnone. apply andb_false_r. }
  assert (Hin : ∀ c, c ∈ matched →
            ContentController.matchesBulk user ids c = true
            ∧ Store.contents s !! Content._id c = Some c).
  { intros c Hc. apply list_elem_of_In, List.filter_In in Hc as [Hc Hm].
    split; [done|].
    apply list_elem_of_In, elem_of_all in Hc as (k & Hc).
    by rewrite (Hk _ _ Hc). }
  assert (Hval : ∀ c, c ∈ matched →
            Content.validate (publish c)
            = forallb (fun ch => bool_decide (ch ∈ Content.platformEnum))
                channels).
  { intros c Hc. apply Hin in Hc as [_ Hc]. apply Hv in Hc.
    rewrite (validate_channels c) by (try done; apply published_in_enum).
    apply validChannel_published. }
  destruct matched as [|c0 cs] eqn:Em; [simpl; split; [done|by left]|].
  rewrite <- Em in *. unfold bind, ret.
  destruct (forallb (fun ch => bool_decide (ch ∈ Content.platformEnum))
              channels) eqn:Ech.
  - assert (Hall : Forall (fun d => Content.validate d = true)
                     (map publish matched)).
    { apply Forall_forall. intros d Hd.
      apply list_elem_of_fmap in Hd as (c & -> & Hc). by apply Hval. }
    pose proof (saveAll_valid _ s Hall) as Hok.
    destruct (ContentController.saveAll (map publish matched) s)
      as [s1 [e|[]]] eqn:Es; simpl in Hok; [discriminate|]. simpl.
    eexists. split; [reflexivity|]. split.
    + split; [rewrite Em; simpl; lia|].
      by apply (bulk_matches_bounded user).
    + intros k c Hc Hkin Hco.
      replace s1 with (fst (ContentController.saveAll (map publish matched) s))
        by (by rewrite Es).
      assert (Hm : c ∈ matched).
      { apply list_elem_of_In, List.filter_In. split.
        - apply list_elem_of_In, elem_of_all. eauto.
        - unfold ContentController.matchesBulk.
          rewrite (Hk _ _ Hc), bool_decide_eq_true_2 by done.
          apply ofCompany_true in Hco. by rewrite Hco. }
      replace k with (Content._id (publish c)) by apply (Hk _ _ Hc).
      apply saveAll_valid_lookup; [done| |].
      * apply list_elem_of_fmap. eauto.
      * intros d' Hd' Hid.
        apply list_elem_of_fmap in Hd' as (c' & -> & Hc').
        simpl in Hid. apply Hin in Hc' as [_ Hc'].
        rewrite Hid, (Hk _ _ Hc), Hc in Hc'. by injection Hc' as <-.
  - assert (Hall : Forall (fun d => Content.validate d = false)
                     (map publish matched)).
    { apply Forall_forall. intros d Hd.
      apply list_elem_of_fmap in Hd as (c & -> & Hc). by apply Hval. }
    pose proof (saveAll_invalid _ s Hall) as Hs.
    destruct (ContentController.saveAll (map publish matched) s)
      as [s1 [e|[]]] eqn:Es; simpl in *.
    + split; [done|]. right.
      apply (saveAll_error (map publish matched) s). by rewrite Es.
    + exfalso. rewrite Em in Es. simpl in Es.
      unfold ContentDb.save in Es.
      rewrite (Hval c0) in Es by (rewrite Em; apply list_elem_of_here).
      simpl in Es. discriminate.
Qed.

Lemma bulkPublish_is_all_or_nothing_witness :
  keyed store4 ∧ storeValid store4
  ∧ route clock1 noImprove admin9 (BulkPublish [1; 2]%nat ["website"]) store4
    = (store4, inl CastError)
  ∧ ContentController.bulkPublishContent clock1 admin9 [1; 2]%nat
      ["website"; "fax"] store4
    = (store4, inl ValidationError)
  ∧ Content.status <$>
      Store.contents
        (fst (ContentController.bulkPublishContent clock1 admin9 [1; 2]%nat
                ["website"] store4)) !! 2%nat
    = Some "published".
Proof.
  assert (Hv : storeValid store4).
  { intros id c H. unfold store4 in H. simpl in H.
    apply lookup_insert_Some in H as [[<- <-]|[_ H]]; [reflexivity|].
    apply lookup_singleton_Some in H as [<- <-]. reflexivity. }
  split; [exact keyed_store4|]. split; [exact Hv|].
  destruct (bulkPublish_is_all_or_nothing clock1 noImprove admin9
              [1; 2]%nat ["website"] store4 keyed_store4 Hv)
    as (Hroute & _ & H).
  split; [exact Hroute|]. split; [reflexivity|].
  change (snd (ContentController.bulkPublishContent clock1 admin9
                 [1; 2]%nat ["website"] store4))
    with (@inr Error Response
            (RCount "Contents published successfully" 2)) in H.
  destruct H as (n & _ & _ & H).
  rewrite (H 2%nat shelved2 eq_refl); [reflexivity| |reflexivity].
  apply list_elem_of_further, list_elem_of_here.
Defined.

(** ** The analytics model *)

Lemma toDateString_setHours0 tz d :
  JsDate.toDateString tz (JsDate.setHours0 tz d) = JsDate.toDateString tz d.
Proof.
  unfold JsDate.toDateString, JsDate.setHours0, JsDate.msPerDay.
  replace ((d + tz) / 86400000 * 86400000 - tz + tz)
    with ((d + tz) / 86400000 * 86400000) by lia.
  by rewrite Z.div_mul.
Qed.

Lemma countEngagement_stamped tz today es :
  Forall (fun e => is_Some (Engagement.timestamp e)) es →
  ∃ n, Analytics.countEngagement tz today es = inr n.
Proof.
  induction 1 as [|e es [d Hd] _ [n IH]]; simpl; [eauto|].
  rewrite Hd, IH. eauto.
Qed.

Lemma countEngagement_unstamped tz today es e :
  Engagement.timestamp e = None →
  Analytics.countEngagement tz today (es ++ [e]) = inl TypeError.
Proof.
  intros He. induction es as [|e0 es IH]; simpl.
  - by rewrite He.
  - rewrite IH. by destruct (Engagement.timestamp e0).
Qed.

Lemma countEngagement_inr tz today es n :
  Analytics.countEngagement tz today es = inr n →
  Forall (fun e => is_Some (Engagement.timestamp e)) es.
Proof.
  revert n. induction es as [|e es IH]; intros n; simpl; [constructor|].
  destruct (Engagement.timestamp e) eqn:He; [|discriminate].
  destruct (Analytics.countEngagement tz today es) eqn:Ec; [discriminate|].
  intros _. constructor; [by rewrite He|]. by eapply IH.
Qed.

Lemma updateAggregates_stamped clk a :
  stamped a → ∃ a', Analytics.updateAggregates clk a = inr a'.
Proof.
  intros (Hl & Hs & Hc).
  unfold Analytics.updateAggregates, Analytics.updateTimeSeriesData.
  destruct (countEngagement_stamped (tz clk)
              (JsDate.setHours0 (tz clk) (now clk)) _ Hl) as [l El].
  destruct (countEngagement_stamped (tz clk)
              (JsDate.setHours0 (tz clk) (now clk)) _ Hs) as [sh Es].
  destruct (countEngagement_stamped (tz clk)
              (JsDate.setHours0 (tz clk) (now clk)) _ Hc) as [cm Ec].
  rewrite El, Es, Ec. simpl. rewrite El, Es, Ec. eauto.
Qed.

Lemma updateAggregates_inr_stamped clk a a' :
  Analytics.updateAggregates clk a = inr a' → stamped a'.
Proof.
  intros H. pose proof (updateAggregates_fresh _ _ _ H)
    as ((l & s & c & Hl & Hs & Hc & _) & _).
  repeat split; by eapply countEngagement_inr.
Qed.

Lemma updateAggregates_error clk a e :
  Analytics.updateAggregates clk a = inl e → e = TypeError.
Proof.
  assert (H : ∀ tz today es e,
            Analytics.countEngagement tz today es = inl e → e = TypeError).
  { intros tz today es. induction es as [|x es IH]; intros e'; simpl;
      [discriminate|].
    destruct (Engagement.timestamp x); [|congruence].
    destruct (Analytics.countEngagement tz today es); [|discriminate].
    intros [= <-]. by apply IH. }
  unfold Analytics.updateAggregates, Analytics.updateTimeSeriesData.
  destruct (Analytics.countEngagement _ _ (Analytics.likes a))
    as [?|l] eqn:El; [intros [= <-]; by eapply H|].
  destruct (Analytics.countEngagement _ _ (Analytics.shares a))
    as [?|sh] eqn:Es; [intros [= <-]; by eapply H|].
  destruct (Analytics.countEngagement _ _ (Analytics.comments a))
    as [?|cm] eqn:Ec; [intros [= <-]; by eapply H|].
  simpl. rewrite El, Es, Ec. discriminate.
Qed.

(** X19: recording an engagement goes through exactly when its type
    names one of the three logs and the entry carries a timestamp; then
    one entry is added, every stored entry still carries a timestamp and
    the rollup is fresh.  Otherwise the method throws a [TypeError]
    before anything is saved. *)
Theorem addEngagement_needs_type_and_timestamp :
  ∀ (clk : Clock) (type : string) (data : Engagement.t) (a : Analytics.t),
    stamped a →
    match Analytics.addEngagement clk type data a with
    | inl e =>
        e = TypeError
        ∧ (type ∉ engagementTypes ∨ Engagement.timestamp data = None)
    | inr a' =>
        type ∈ engagementTypes
        ∧ is_Some (Engagement.timestamp data)
        ∧ engagementCount a' = S (engagementCount a)
        ∧ stamped a'
        ∧ rollupFresh clk a'
    end.
Proof.
  intros clk type data a (Hl & Hs & Hc).
  assert (Hcase : ∀ b (log : list Engagement.t),
            type ∈ engagementTypes →
            engagementCount b = S (engagementCount a) →
            (Engagement.timestamp data = None →
             ∃ e, Analytics.updateAggregates clk b = inl e) →
            (is_Some (Engagement.timestamp data) → stamped b) →
            match Analytics.updateAggregates clk b with
            | inl e =>
                e = TypeError
                ∧ (type ∉ engagementTypes
                   ∨ Engagement.timestamp data = None)
            | inr a' =>
                type ∈ engagementTypes
                ∧ is_Some (Engagement.timestamp data)
                ∧ engagementCount a' = S (engagementCount a)
                ∧ stamped a'
                ∧ rollupFresh clk a'
            end).
  { intros b _ Hty Hcount Hnone Hsome.
    destruct (Engagement.timestamp data) as [d|] eqn:Hd.
    - destruct (updateAggregates_stamped clk b) as [a' Ha'];
        [by apply Hsome|].
      rewrite Ha'. pose proof (updateAggregates_inr_stamped _ _ _ Ha').
      apply updateAggregates_fresh in Ha'
        as (Hf & _ & Hl' & Hs' & Hc' & _).
      split; [done|]. split; [done|]. split; [|by split].
      unfold engagementCount in *. by rewrite Hl', Hs', Hc'.
    - destruct (Hnone eq_refl) as [e He]. rewrite He.
      split; [by eapply updateAggregates_error|by right]. }
  unfold Analytics.addEngagement.
  destruct (String.eqb type "likes") eqn:E1;
    [apply String.eqb_eq in E1; subst type|].
  { apply (Hcase _ []).
    - apply list_elem_of_here.
    - unfold engagementCount. simpl. rewrite length_app. simpl. lia.
    - intros Hd. unfold Analytics.updateAggregates,
        Analytics.updateTimeSeriesData. simpl.
      rewrite countEngagement_unstamped by done. eauto.
    - intros Hd. repeat split; simpl; try done.
      apply Forall_app. split; [done|]. by constructor. }
  destruct (String.eqb type "shares") eqn:E2;
    [apply String.eqb_eq in E2; subst type|].
  { apply (Hcase _ []).
    - apply list_elem_of_further, list_elem_of_here.
    - unfold engagementCount. simpl. rewrite length_app. simpl. lia.
    - intros Hd. unfold Analytics.updateAggregates,
        Analytics.updateTimeSeriesData. simpl.
      rewrite (countEngagement_unstamped _ _ (Analytics.shares a)) by done.
      destruct (Analytics.countEngagement _ _ (Analytics.likes a)); eauto.
    - intros Hd. repeat split; simpl; try done.
      apply Forall_app. split; [done|]. by constructor. }
  destruct (String.eqb type "comments") eqn:E3;
    [apply String.eqb_eq in E3; subst type|].
  { apply (Hcase _ []).
    - do 2 apply list_elem_of_further. apply list_elem_of_here.
    - unfold engagementCount. simpl. rewrite length_app. simpl. lia.
    - intros Hd. unfold Analytics.updateAggregates,
        Analytics.updateTimeSeriesData. simpl.
      rewrite (countEngagement_unstamped _ _ (Analytics.comments a))
        by done.
      destruct (Analytics.countEngagement _ _ (Analytics.likes a)); eauto.
      destruct (Analytics.countEngagement _ _ (Analytics.shares a)); eauto.
    - intros Hd. repeat split; simpl; try done.
      apply Forall_app. split; [done|]. by constructor. }
  split; [done|]. left. unfold engagementTypes.
  apply String.eqb_neq in E1, E2, E3.
  rewrite !elem_of_cons, elem_of_nil. tauto.
Qed.

Lemma addEngagement_needs_type_and_timestamp_witness :
  stamped analytics3
  ∧ Analytics.addEngagement clock1 "likes"
      (Engagement.mk None (Some 7%nat) None None) analytics3
    = inl TypeError
  ∧ Analytics.addEngagement clock1 "claps"
      (Engagement.mk (Some 86400000000) None None None) analytics3
    = inl TypeError
  ∧ ∃ a', Analytics.addEngagement clock1 "shares"
            (Engagement.mk (Some 86400000000) None None None) analytics3
          = inr a'
          ∧ engagementCount a' = 2%nat.
Proof.
  assert (Hs : stamped analytics3).
  { repeat split; repeat constructor; by eexists. }
  split; [exact Hs|]. split; [reflexivity|]. split; [reflexivity|].
  pose proof (addEngagement_needs_type_and_timestamp clock1 "shares"
                (Engagement.mk (Some 86400000000) None None None)
                analytics3 Hs) as H.
  destruct (Analytics.addEngagement clock1 "shares"
              (Engagement.mk (Some 86400000000) None None None) analytics3)
    as [e|a'] eqn:E; [discriminate E|].
  exists a'. split; [reflexivity|]. by destruct H as (_ & _ & H & _).
Defined.

Lemma sameDay_dayOf tz today d :
  Analytics.sameDay tz today (DayMetrics.date d)
  = (dayOf tz d =? JsDate.toDateString tz today).
Proof. reflexivity. Qed.

Lemma upsertDay_days tz today entry ts :
  dayOf tz entry = JsDate.toDateString tz today →
  dayOf tz <$> Analytics.upsertDay tz today entry ts
  = if decide (JsDate.toDateString tz today ∈ dayOf tz <$> ts)
    then dayOf tz <$> ts
    else ((dayOf tz <$> ts) ++ [JsDate.toDateString tz today])%list.
Proof.
  intros He. induction ts as [|d ts IH].
  - rewrite decide_False by apply not_elem_of_nil. simpl. by rewrite He.
  - cbn [Analytics.upsertDay]. rewrite sameDay_dayOf.
    destruct (dayOf tz d =? JsDate.toDateString tz today) eqn:E.
    + apply Z.eqb_eq in E. rewrite !fmap_cons.
      rewrite decide_True by (rewrite E; apply list_elem_of_here).
      congruence.
    + apply Z.eqb_neq in E. rewrite !fmap_cons, IH.
      destruct (decide (JsDate.toDateString tz today ∈ dayOf tz <$> ts))
        as [Hin|Hout].
      * by rewrite decide_True by by apply list_elem_of_further.
      * rewrite decide_False; [done|].
        intros H. apply elem_of_cons in H as [H|H]; congruence.
Qed.

Lemma upsertDay_other tz today entry ts d :
  d ∈ ts → dayOf tz d ≠ JsDate.toDateString tz today →
  d ∈ Analytics.upsertDay tz today entry ts.
Proof.
  intros Hin Hd. induction ts as [|d0 ts IH]; simpl.
  - by apply elem_of_nil in Hin.
  - rewrite sameDay_dayOf. apply elem_of_cons in Hin as [->|Hin].
    + apply Z.eqb_neq in Hd. rewrite Hd. apply list_elem_of_here.
    + destruct (_ =? _).
      * by apply list_elem_of_further.
      * by apply list_elem_of_further, IH.
Qed.

Lemma NoDup_fmap_inj_on {A B} (f : A → B) (l : list A) x y :
  NoDup (f <$> l) → x ∈ l → y ∈ l → f x = f y → x = y.
Proof.
  induction l as [|z l IH]; simpl; intros Hn Hx Hy Hf.
  - by apply elem_of_nil in Hx.
  - apply NoDup_cons in Hn as [Hz Hn].
    apply elem_of_cons in Hx as [->|Hx], Hy as [->|Hy]; auto.
    + exfalso. apply Hz. rewrite Hf. apply list_elem_of_fmap. eauto.
    + exfalso. apply Hz. rewrite <- Hf. apply list_elem_of_fmap. eauto.
Qed.

Lemma updateAggregates_timeSeries clk a a' :
  Analytics.updateAggregates clk a = inr a' →
  ∃ entry,
    DayMetrics.date entry = JsDate.setHours0 (tz clk) (now clk)
    ∧ DayMetrics.views entry
      = Analytics.countViews (tz clk) (JsDate.setHours0 (tz clk) (now clk))
          (Analytics.views a)
    ∧ DayMetrics.sentiment entry = Overall.score (Analytics.overall a)
    ∧ Analytics.timeSeriesData a'
      = Analytics.upsertDay (tz clk) (JsDate.setHours0 (tz clk) (now clk))
          entry (Analytics.timeSeriesData a).
Proof.
  unfold Analytics.updateAggregates, Analytics.updateTimeSeriesData.
  destruct (Analytics.countEngagement _ _ (Analytics.likes a))
    as [?|l] eqn:El; [discriminate|].
  destruct (Analytics.countEngagement _ _ (Analytics.shares a))
    as [?|sh] eqn:Es; [discriminate|].
  destruct (Analytics.countEngagement _ _ (Analytics.comments a))
    as [?|cm] eqn:Ec; [discriminate|].
  simpl. rewrite El, Es, Ec. intros [= <-]. simpl.
  eexists. repeat split; reflexivity.
Qed.

(** X20: recomputing the rollup keeps the time series at one bucket a
    calendar day: today's bucket is overwritten when there is one and
    appended otherwise, so the series grows by at most one entry; the
    buckets of other days are kept as they are, and today's bucket holds
    the number of today's views in the raw log. *)
Theorem time_series_keeps_one_bucket_per_day :
  ∀ (clk : Clock) (a a' : Analytics.t),
    Analytics.updateAggregates clk a = inr a' →
    oneBucketPerDay (tz clk) (Analytics.timeSeriesData a) →
    oneBucketPerDay (tz clk) (Analytics.timeSeriesData a')
    ∧ (length (Analytics.timeSeriesData a)
       ≤ length (Analytics.timeSeriesData a')
       ≤ S (length (Analytics.timeSeriesData a)))%nat
    ∧ (∀ d, d ∈ Analytics.timeSeriesData a →
            dayOf (tz clk) d ≠ JsDate.toDateString (tz clk) (now clk) →
            d ∈ Analytics.timeSeriesData a')
    ∧ (∀ d, d ∈ Analytics.timeSeriesData a' →
            dayOf (tz clk) d = JsDate.toDateString (tz clk) (now clk) →
            DayMetrics.views d
            = Analytics.countViews (tz clk)
                (JsDate.setHours0 (tz clk) (now clk)) (Analytics.views a')).
Proof.
  intros clk a a' H Hone.
  pose proof (updateAggregates_fresh _ _ _ H) as (_ & Hviews & _).
  apply updateAggregates_timeSeries in H
    as (entry & Hdate & Hv & _ & Hts).
  assert (Hday : dayOf (tz clk) entry
                 = JsDate.toDateString (tz clk)
                     (JsDate.setHours0 (tz clk) (now clk))).
  { unfold dayOf. by rewrite Hdate. }
  pose proof (upsertDay_days _ _ _ (Analytics.timeSeriesData a) Hday)
    as Hdays.
  rewrite <- Hts in Hdays.
  assert (Hone' : oneBucketPerDay (tz clk) (Analytics.timeSeriesData a')).
  { unfold oneBucketPerDay in *. rewrite Hdays.
    destruct (decide _) as [Hin|Hout]; [done|].
    apply NoDup_app. split; [done|]. split.
    - intros x Hx Hx'. apply list_elem_of_singleton in Hx'. by subst x.
    - apply NoDup_singleton. }
  split; [exact Hone'|]. split; [|split].
  - apply (f_equal length) in Hdays. rewrite length_fmap in Hdays.
    rewrite Hdays. destruct (decide _).
    + rewrite length_fmap. lia.
    + rewrite length_app, length_fmap. simpl. lia.
  - intros d Hd Hne. rewrite Hts. apply upsertDay_other; [done|].
    by rewrite toDateString_setHours0.
  - intros d Hd Hdd. rewrite Hviews, <- Hv. f_equal.
    apply (NoDup_fmap_inj_on (dayOf (tz clk)) (Analytics.timeSeriesData a'));
      [done|done| |].
    + rewrite Hts. apply upsertDay_elem.
    + by rewrite Hdd, Hday, toDateString_setHours0.
Qed.

Lemma time_series_keeps_one_bucket_per_day_witness :
  oneBucketPerDay 0 (Analytics.timeSeriesData analytics3)
  ∧ ∃ a', Analytics.updateAggregates clock1 analytics3 = inr a'
          ∧ oneBucketPerDay 0 (Analytics.timeSeriesData a')
          ∧ length (Analytics.timeSeriesData a') = 2%nat.
Proof.
  assert (H1 : oneBucketPerDay 0 (Analytics.timeSeriesData analytics3)).
  { apply NoDup_singleton. }
  split; [exact H1|].
  eexists. split; [reflexivity|]. split; [|reflexivity].
  eapply (time_series_keeps_one_bucket_per_day clock1 analytics3);
    [reflexivity|exact H1].
Defined.

Lemma countViews_app tz today vs v :
  Analytics.countViews tz today (vs ++ [v])
  = (Analytics.countViews tz today vs
     + (if Analytics.sameDay tz today (View.timestamp v) then 1 else 0))%nat.
Proof.
  unfold Analytics.countViews. rewrite filter_app, length_app. f_equal.
  rewrite filter_cons, filter_nil.
  by destruct (Analytics.sameDay tz today (View.timestamp v)) eqn:E;
    [rewrite decide_True by done|rewrite decide_False by done].
Qed.

(** X21: on a record whose engagement entries all carry a timestamp,
    [addView] never fails; a view given without a timestamp is stored
    with the time of the call, the other views are kept in order, and
    the number of today's views in the daily aggregate is one more than
    it was in the raw log. *)
Theorem addView_counts_the_view_today :
  ∀ (clk : Clock) (source userAgent : option string) (a : Analytics.t),
    stamped a →
    ∃ a' daily,
      Analytics.addView clk (ViewData.mk None source userAgent) a = inr a'
      ∧ Analytics.views a'
        = (Analytics.views a ++ [View.mk (now clk) source userAgent])%list
      ∧ Analytics.daily a' = Some daily
      ∧ Daily.views daily
        = S (Analytics.countViews (tz clk)
               (JsDate.setHours0 (tz clk) (now clk)) (Analytics.views a))
      ∧ rollupFresh clk a'.
Proof.
  intros clk source userAgent a Hs.
  unfold Analytics.addView. simpl.
  destruct (updateAggregates_stamped clk
              (Analytics.set_views
                 (Analytics.views a ++ [View.mk (now clk) source userAgent])
                 a)) as [a' Ha']; [exact Hs|].
  rewrite Ha'.
  pose proof (updateAggregates_fresh _ _ _ Ha') as (Hf & Hv & _).
  pose proof Hf as (l & s & c & _ & _ & _ & Hd & _).
  simpl in Hv. eexists a', _. split; [done|]. split; [done|].
  split; [exact Hd|]. split; [|exact Hf].
  simpl. rewrite Hv, countViews_app. simpl.
  unfold Analytics.sameDay. rewrite toDateString_setHours0, Z.eqb_refl.
  lia.
Qed.

Lemma addView_counts_the_view_today_witness :
  stamped analytics3
  ∧ ∃ a' daily,
      Analytics.addView clock1 (ViewData.mk None (Some "web") None)
        analytics3 = inr a'
      ∧ Analytics.daily a' = Some daily
      ∧ Daily.views daily = 2%nat.
Proof.
  assert (Hs : stamped analytics3).
  { repeat split; repeat constructor; by eexists. }
  split; [exact Hs|].
  destruct (addView_counts_the_view_today clock1 (Some "web") None
              analytics3 Hs) as (a' & daily & Ha & _ & Hd & Hv & _).
  exists a', daily. split; [exact Ha|]. split; [exact Hd|exact Hv].
Defined.

(** X22: on such a record [updateSentiment] goes through exactly when
    the score is a number and the mean of the history with the new sample
    is one.  Then the sample is appended to the history with the time of
    the call, the overall score becomes that mean, analysed at that time,
    and today's daily aggregate carries the same score.  Otherwise the
    save refuses what is not a number with a validation error, and no
    record is returned. *)
Theorem updateSentiment_sets_overall_to_mean :
  ∀ (clk : Clock) (score : float) (source : string) (a : Analytics.t),
    stamped a →
    ∃ m : float,
      Analytics.mean
        (map Sample.score
           (Analytics.history a ++ [Sample.mk (now clk) score source]))
      = inr m
      ∧ match Analytics.updateSentiment clk score source a with
        | inr a' =>
            PrimFloat.is_nan score = false
            ∧ PrimFloat.is_nan m = false
            ∧ Analytics.history a'
              = (Analytics.history a
                   ++ [Sample.mk (now clk) score source])%list
            ∧ Analytics.overall a' = Overall.mk (Some m) (Some (now clk))
            ∧ ∃ daily,
                Analytics.daily a' = Some daily
                ∧ Daily.sentiment daily = Some m
        | inl e =>
            e = ValidationError
            ∧ (PrimFloat.is_nan score = true ∨ PrimFloat.is_nan m = true)
        end.
Proof.
  intros clk score source a Hs.
  unfold Analytics.updateSentiment. simpl.
  destruct (Analytics.mean
              (map Sample.score
                 (Analytics.history a ++ [Sample.mk (now clk) score source])))
    as [e|m] eqn:Em.
  { exfalso. unfold Analytics.mean, Analytics.reduceSum in Em.
    rewrite map_app in Em. simpl in Em.
    destruct (map Sample.score (Analytics.history a)); discriminate Em. }
  exists m. split; [reflexivity|].
  match goal with
  | |- context [Analytics.updateAggregates clk ?b] =>
      destruct (updateAggregates_stamped clk b) as [a' Ha']; [exact Hs|]
  end.
  rewrite Ha'.
  pose proof (updateAggregates_fresh _ _ _ Ha')
    as ((l & s & c & _ & _ & _ & Hd & _) & _ & _ & _ & _ & Hh & Ho).
  simpl in Hh, Ho.
  destruct (PrimFloat.is_nan score) eqn:Escore; simpl.
  { split; [reflexivity|by left]. }
  destruct (PrimFloat.is_nan m) eqn:Emean.
  { split; [reflexivity|by right]. }
  split; [reflexivity|]. split; [reflexivity|]. split; [exact Hh|].
  split; [exact Ho|]. eexists. split; [exact Hd|]. simpl. by rewrite Ho.
Qed.

Lemma updateSentiment_sets_overall_to_mean_witness :
  stamped analytics3
  ∧ (∃ a', Analytics.updateSentiment clock1 0.5%float "ai" analytics3
           = inr a'
           ∧ Analytics.overall a'
             = Overall.mk (Some 0.5%float) (Some 86400000000))
  ∧ Analytics.updateSentiment clock1 PrimFloat.nan "ai" analytics3
    = inl ValidationError.
Proof.
  assert (Hs : stamped analytics3).
  { repeat split; repeat constructor; by eexists. }
  split; [exact Hs|]. split.
  - destruct (updateSentiment_sets_overall_to_mean clock1 0.5%float "ai"
                analytics3 Hs) as (m & Hm & H).
    vm_compute in Hm. injection Hm as <-.
    destruct (Analytics.updateSentiment clock1 0.5%float "ai" analytics3)
      as [e|a'] eqn:E.
    + destruct H as [_ [H|H]]; vm_compute in H; discriminate H.
    + exists a'. split; [reflexivity|].
      destruct H as (_ & _ & _ & Ho & _). exact Ho.
  - destruct (updateSentiment_sets_overall_to_mean clock1 PrimFloat.nan "ai"
                analytics3 Hs) as (m & _ & H).
    destruct (Analytics.updateSentiment clock1 PrimFloat.nan "ai" analytics3)
      as [e|a'] eqn:E.
    + destruct H as [-> _]. reflexivity.
    + destruct H as (H & _). vm_compute in H. discriminate H.
Defined.


(** ** What a failed request is answered with *)






(** ** Prompts *)

Lemma formatSteps_inl params e :
  fold_left formatStep params (inl e) = inl e.
Proof. induction params as [|kv params IH]; [done|]. exact IH. Qed.

Lemma formatSteps_undefined params :
  params ≠ [] →
  fold_left formatStep params (inr None) = inl TypeError.
Proof.
  destruct params as [|kv params]; [done|]. intros _. simpl.
  apply formatSteps_inl.
Qed.

Lemma formatSteps_quantifier params t :
  Exists (fun kv => isQuantifier (fst kv) = true) params →
  fold_left formatStep params (inr (Some t)) = inl SyntaxError.
Proof.
  intros H. revert t. induction H as [kv params Hq|kv params _ IH];
    intros t; simpl.
  - rewrite Hq. apply formatSteps_inl.
  - destruct (isQuantifier (fst kv)); [apply formatSteps_inl|apply IH].
Qed.

Lemma formatSteps_plain params t :
  ¬ Exists (fun kv => isQuantifier (fst kv) = true) params →
  ∃ prompt, fold_left formatStep params (inr (Some t)) = inr (Some prompt).
Proof.
  revert t. induction params as [|kv params IH]; intros t H; simpl.
  - by exists t.
  - destruct (isQuantifier (fst kv)) eqn:Eq.
    + exfalso. apply H. by left.
    + apply IH. intros H'. apply H. by right.
Qed.

(** X24: [formatPrompt] throws when the type has no template and there
    is a parameter, and when a key reads as a bare quantifier; then
    [generateContent] fails with status 500 whatever the outbound call
    would have answered.  With plain keys these are the only ways for
    [formatPrompt] to throw. *)
Theorem generateContent_fails_before_the_call :
  ∀ (type : string) (params : list (string * string)),
    (breaksPrompt type params →
     (∃ e, formatPrompt type params = inl e)
     ∧ ∀ create : option string → Completion,
         generateContent create type params
         = inl (APIError "Error generating content" 500))
    ∧ (Forall (fun kv => plainKey (fst kv) = true) params →
       (∃ e, formatPrompt type params = inl e) →
       breaksPrompt type params).
Proof.
  intros type params.
  assert (Hfail : breaksPrompt type params →
                  ∃ e, formatPrompt type params = inl e).
  { unfold formatPrompt. intros [[Hnone Hne]|Hq].
    - rewrite Hnone. exists TypeError. by apply formatSteps_undefined.
    - destruct (promptTemplates type) as [t|].
      + exists SyntaxError. by apply formatSteps_quantifier.
      + exists TypeError. apply formatSteps_undefined.
        intros ->. by apply Exists_nil in Hq. }
  split.
  - intros Hb. split; [by apply Hfail|].
    intros create. apply Hfail in Hb as [e He].
    unfold generateContent. by rewrite He.
  - intros _ [e He]. unfold formatPrompt in He.
    destruct (promptTemplates type) as [t|] eqn:Et.
    + right.
      destruct (decide (Exists (fun kv => isQuantifier (fst kv) = true)
                          params)) as [Hq|Hq]; [done|].
      apply (formatSteps_plain _ t) in Hq as [prompt Hp]. congruence.
    + left. split; [done|]. intros ->. discriminate He.
Qed.

Lemma generateContent_fails_before_the_call_witness :
  breaksPrompt "blog" [("topic", "v2"); ("3", "x")]
  ∧ breaksPrompt "poem" [("topic", "v2")]
  ∧ generateContent completes "blog" [("topic", "v2"); ("3", "x")]
    = inl (APIError "Error generating content" 500)
  ∧ generateContent completes "poem" [("topic", "v2")]
    = inl (APIError "Error generating content" 500).
Proof.
  assert (H1 : breaksPrompt "blog" [("topic", "v2"); ("3", "x")]).
  { right. right. left. reflexivity. }
  assert (H2 : breaksPrompt "poem" [("topic", "v2")]).
  { left. split; [reflexivity|discriminate]. }
  split; [exact H1|]. split; [exact H2|]. split.
  - destruct (generateContent_fails_before_the_call "blog"
                [("topic", "v2"); ("3", "x")]) as [H _].
    exact (proj2 (H H1) completes).
  - destruct (generateContent_fails_before_the_call "poem"
                [("topic", "v2")]) as [H _].
    exact (proj2 (H H2) completes).
Defined.

Lemma replaceAllFrom_absent pat rep s :
  includesFrom pat s = false → replaceAllFrom pat rep 0 s = s.
Proof.
  induction s as [|c s IH]; [done|].
  cbn [includesFrom]. intros H. apply orb_false_elim in H as [Hp Hs].
  rewrite replaceAllFrom_miss by done. by rewrite IH.
Qed.

Lemma string_of_list_ascii_app a b :
  string_of_list_ascii (a ++ b)
  = string_of_list_ascii a +:+ string_of_list_ascii b.
Proof. induction a as [|c a IH]; simpl; [done|]. by rewrite IH. Qed.

Lemma replaceAll_absent pat rep s :
  includes s pat = false → replaceAll pat rep s = s.
Proof.
  unfold includes, replaceAll. intros H.
  rewrite replaceAllFrom_absent by done.
  apply string_of_list_ascii_of_string.
Qed.

(** X25: a parameter whose placeholder the prompt does not hold changes
    nothing: when the template of the type holds the placeholder of none
    of the parameters, the prompt is the template itself. *)
Theorem unused_parameters_leave_the_template :
  ∀ (type template : string) (params : list (string * string)),
    promptTemplates type = Some template →
    Forall (unusedIn template) params →
    formatPrompt type params = inr (Some template).
Proof.
  intros type template params Ht Hall. unfold formatPrompt. rewrite Ht.
  induction Hall as [|[key value] params (_ & Hq & Hin) _ IH]; [done|].
  simpl in *. rewrite Hq. by rewrite replaceAll_absent.
Qed.

Lemma unused_parameters_leave_the_template_witness :
  Forall (unusedIn template_design_doc)
    [("tone", "formal"); ("audience", "engineers")]
  ∧ formatPrompt "design_doc" [("tone", "formal"); ("audience", "engineers")]
    = inr (Some template_design_doc).
Proof.
  assert (H : Forall (unusedIn template_design_doc)
                [("tone", "formal"); ("audience", "engineers")]).
  { repeat constructor. }
  split; [exact H|].
  exact (unused_parameters_leave_the_template "design_doc"
           template_design_doc _ eq_refl H).
Defined.

(** X26: where the text holds the placeholder of a plain key that is no
    quantifier once, after a stretch without an opening brace, the step
    of [formatPrompt] for that key and a value free of dollar signs goes
    through, puts the value in the placeholder's place and leaves the
    text before and after as it is. *)
Theorem replaceAll_puts_the_value_in_place :
  ∀ (key value pre post : string),
    plainKey key = true →
    isQuantifier key = false →
    "$"%char ∉ list_ascii_of_string value →
    "{"%char ∉ list_ascii_of_string pre →
    includes post (placeholder key) = false →
    formatStep (inr (Some (pre +:+ placeholder key +:+ post))) (key, value)
    = inr (Some (pre +:+ value +:+ post))
    ∧ replaceAll (placeholder key) value (pre +:+ placeholder key +:+ post)
      = pre +:+ value +:+ post.
Proof.
  intros key value pre post Hk Hq _ Hpre Hpost.
  assert (H : replaceAll (placeholder key) value
                (pre +:+ placeholder key +:+ post)
              = pre +:+ value +:+ post).
  { unfold replaceAll, includes in *.
    rewrite !list_ascii_of_string_app, placeholder_braced in *.
    unfold braced in *.
    rewrite replaceAllFrom_copy by done.
    rewrite replaceAllFrom_match, replaceAllFrom_absent by done.
    rewrite !string_of_list_ascii_app, !string_of_list_ascii_of_string.
    reflexivity. }
  split; [|exact H]. unfold formatStep. cbn [fst snd]. by rewrite Hq, H.
Qed.

Lemma replaceAll_puts_the_value_in_place_witness :
  replaceAll (placeholder "topic") "the v2 launch"
    ("Write about " +:+ placeholder "topic" +:+ ". Tone: {tone}")
  = "Write about the v2 launch. Tone: {tone}".
Proof.
  apply (replaceAll_puts_the_value_in_place "topic" "the v2 launch"
           "Write about " ". Tone: {tone}").
  - reflexivity.
  - reflexivity.
  - intros H. vm_compute in H.
    by repeat (apply elem_of_cons in H as [H|H]; [discriminate H|]);
      apply elem_of_nil in H.
  - intros H. vm_compute in H.
    by repeat (apply elem_of_cons in H as [H|H]; [discriminate H|]);
      apply elem_of_nil in H.
  - reflexivity.
Defined.

(** ** Design tokens: failures and colours *)

Lemma addFills_outcome fills colors :
  match addFills fills colors with
  | inl e =>
      e = TypeError
      ∧ Exists (fun fill => Fill.color fill = None)
          (List.filter (fun fill => String.eqb (Fill.type fill) "SOLID")
             fills)
  | inr _ =>
      Forall (fun fill => is_Some (Fill.color fill))
        (List.filter (fun fill => String.eqb (Fill.type fill) "SOLID")
           fills)
  end.
Proof.
  revert colors. induction fills as [|fill fills IH]; intros colors; simpl.
  - constructor.
  - destruct (String.eqb (Fill.type fill) "SOLID"); [|apply IH].
    destruct (Fill.color fill) as [c|] eqn:Ec.
    + specialize (IH (setAdd (rgbToHex c) colors)).
      destruct (addFills fills _).
      * destruct IH as [-> IH]. split; [done|]. by right.
      * constructor; [by rewrite Ec|done].
    + split; [done|]. by left.
Qed.

Lemma visit_outcome node tokens :
  match visit node tokens with
  | inl e =>
      e = TypeError
      ∧ Exists (fun fill => Fill.color fill = None) (solidFills node)
  | inr _ => Forall (fun fill => is_Some (Fill.color fill)) (solidFills node)
  end.
Proof.
  unfold visit, solidFills.
  destruct (Props.fills node) as [fs|]; simpl; [|constructor].
  pose proof (addFills_outcome fs (Tokens.colors tokens)) as H.
  by destruct (addFills fs (Tokens.colors tokens)).
Qed.

Lemma visitAll_outcome nodes tokens :
  match visitAll nodes tokens with
  | inl e =>
      e = TypeError
      ∧ Exists (fun fill => Fill.color fill = None)
          (flat_map solidFills nodes)
  | inr _ =>
      Forall (fun fill => is_Some (Fill.color fill))
        (flat_map solidFills nodes)
  end.
Proof.
  revert tokens. induction nodes as [|n ns IH]; intros tokens; simpl.
  - constructor.
  - pose proof (visit_outcome n tokens) as Hn.
    destruct (visit n tokens) as [e|t1].
    + destruct Hn as [-> Hn]. split; [done|].
      apply Exists_app. by left.
    + specialize (IH t1). destruct (visitAll ns t1).
      * destruct IH as [-> IH]. split; [done|]. apply Exists_app. by right.
      * apply Forall_app. by split.
Qed.

(** X27: [extractDesignTokens] goes through exactly when the file comes
    with a document in which every solid fill has a colour.  Whatever
    goes wrong otherwise, a solid fill without a colour, a file without
    a document, or a refusal of the file by Figma, the error thrown is
    the one for a lost connection, with status 500: the status Figma
    answered with, which [getFile] keeps, is gone. *)
Theorem extractDesignTokens_reports_every_failure_as_500 :
  ∀ (res : FileResult),
    match extractDesignTokens res with
    | inl e =>
        e = APIError "Error connecting to Figma API" 500
        ∧ ∀ document,
            res = FileData (Some document) →
            Exists (fun fill => Fill.color fill = None)
              (solidFillsOf document)
    | inr _ =>
        ∃ document,
          res = FileData (Some document)
          ∧ Forall (fun fill => is_Some (Fill.color fill))
              (solidFillsOf document)
    end
    ∧ ∀ status message,
        res = FileError (Some (status, message)) →
        ∃ text, getFile res = inl (APIError text status).
Proof.
  intros res. split.
  - unfold extractDesignTokens.
    destruct res as [[document|]|response]; simpl.
    + rewrite traverseNodes_flatten.
      pose proof (visitAll_outcome (flatten document) Tokens.empty) as H.
      destruct (visitAll (flatten document) Tokens.empty).
      * split; [done|]. intros d [= <-]. apply H.
      * exists document. by split.
    + split; [done|]. intros d [=].
    + split; [done|]. intros d [=].
  - intros status message ->. simpl.
    destruct (decide (status = 401)) as [->|?]; [eauto|].
    destruct (decide (status = 403)) as [->|?]; [eauto|].
    destruct (decide (status = 404)) as [->|?]; [eauto|].
    destruct (decide (status = 429)) as [->|?]; [eauto|].
    eexists.
    destruct status as [|p|p]; try reflexivity.
    do 9 (destruct p as [p|p|]; try reflexivity); lia.
Qed.

Lemma extractDesignTokens_reports_every_failure_as_500_witness :
  getFile (FileError (Some (404, None)))
  = inl (APIError "Not found: Invalid file or node ID" 404)
  ∧ extractDesignTokens (FileError (Some (404, None)))
    = inl (APIError "Error connecting to Figma API" 500)
  ∧ extractDesignTokens
      (FileData (Some (Node (Props.mk (Some [Fill.mk "SOLID" None]) None
                               None None None None None) None)))
    = inl (APIError "Error connecting to Figma API" 500)
  ∧ ∃ tokens, extractDesignTokens (FileData (Some twoReds)) = inr tokens.
Proof.
  split; [reflexivity|]. split; [|split].
  - destruct (extractDesignTokens_reports_every_failure_as_500
                (FileError (Some (404, None)))) as [H _].
    destruct (extractDesignTokens (FileError (Some (404, None))))
      as [e|t] eqn:E; [|discriminate E].
    destruct H as [-> _]. reflexivity.
  - reflexivity.
  - eexists. reflexivity.
Defined.

Lemma hexDigit_inj d d' :
  0 ≤ d < 16 → 0 ≤ d' < 16 → hexDigit d = hexDigit d' → d = d'.
Proof.
  intros Hd Hd'.
  assert (H : d = 0 ∨ d = 1 ∨ d = 2 ∨ d = 3 ∨ d = 4 ∨ d = 5 ∨ d = 6 ∨ d = 7
              ∨ d = 8 ∨ d = 9 ∨ d = 10 ∨ d = 11 ∨ d = 12 ∨ d = 13 ∨ d = 14
              ∨ d = 15) by lia.
  assert (H' : d' = 0 ∨ d' = 1 ∨ d' = 2 ∨ d' = 3 ∨ d' = 4 ∨ d' = 5 ∨ d' = 6
               ∨ d' = 7 ∨ d' = 8 ∨ d' = 9 ∨ d' = 10 ∨ d' = 11 ∨ d' = 12
               ∨ d' = 13 ∨ d' = 14 ∨ d' = 15) by lia.
  clear Hd Hd'.
  repeat (destruct H as [->|H]); try subst d;
    repeat (destruct H' as [->|H']); try subst d';
    simpl; intros E; first [reflexivity|discriminate E].
Qed.

Lemma hexByte_inj v v' :
  0 ≤ v ≤ 255 → 0 ≤ v' ≤ 255 → hexByte v = hexByte v' → v = v'.
Proof.
  intros Hv Hv'. unfold hexByte. intros [= Hq Hm].
  apply hexDigit_inj in Hq, Hm;
    try (split; [apply Z.div_pos; lia|apply Z.div_lt_upper_bound; lia]);
    try (apply Z.mod_pos_bound; lia).
  rewrite (Z.div_mod v 16), (Z.div_mod v' 16) by lia. by rewrite Hq, Hm.
Qed.

(** X28: colours whose channels round to bytes get the same hex token
    only when they round to the same three bytes: the token tells any
    two such colours apart. *)
Theorem rgbToHex_tells_colours_apart :
  ∀ (c c' : Color.t) (r g b r' g' b' : Z),
    byteOf (Color.r c) = Some r →
    byteOf (Color.g c) = Some g →
    byteOf (Color.b c) = Some b →
    byteOf (Color.r c') = Some r' →
    byteOf (Color.g c') = Some g' →
    byteOf (Color.b c') = Some b' →
    rgbToHex c = rgbToHex c' ↔ (r = r' ∧ g = g' ∧ b = b').
Proof.
  intros c c' r g b r' g' b' Hr Hg Hb Hr' Hg' Hb'.
  rewrite (rgbToHex_six_digits c r g b),
    (rgbToHex_six_digits c' r' g' b') by done.
  apply byteOf_Some in Hr as [_ Hr], Hg as [_ Hg], Hb as [_ Hb],
    Hr' as [_ Hr'], Hg' as [_ Hg'], Hb' as [_ Hb'].
  split; [|by intros (-> & -> & ->)].
  unfold sixDigitHex.
  change (("#" +:+ hexByte r +:+ hexByte g +:+ hexByte b
           = "#" +:+ hexByte r' +:+ hexByte g' +:+ hexByte b')
          → r = r' ∧ g = g' ∧ b = b').
  unfold hexByte at 1 2 4 5. simpl.
  intros [= Hr1 Hr2 Hg1 Hg2 Hbb].
  repeat split; apply hexByte_inj; try done; unfold hexByte; congruence.
Qed.

Lemma rgbToHex_tells_colours_apart_witness :
  rgbToHex red = "#ff0000"
  ∧ rgbToHex (Color.mk 1 0 0.001953125) = "#ff0000"
  ∧ rgbToHex (Color.mk 1 0 0.00390625) ≠ rgbToHex red.
Proof.
  split; [reflexivity|]. split; [reflexivity|].
  intros H.
  apply (rgbToHex_tells_colours_apart (Color.mk 1 0 0.00390625) red
           255 0 1 255 0 0) in H as (_ & _ & H);
    [discriminate H|reflexivity..].
Defined.

(** ** The formatting helpers of the analytics controller *)

Lemma formatContentMetrics_list_to_map metrics :
  formatContentMetrics metrics
  = list_to_map
      (List.filter (fun kv => negb (String.eqb (fst kv) "__proto__"))
         (reverse metrics)).
Proof.
  unfold formatContentMetrics.
  rewrite <- (reverse_involutive metrics) at 1.
  generalize (reverse metrics) as l. intros l.
  induction l as [|[k n] l IH]; [done|].
  rewrite reverse_cons, fold_left_app. simpl. rewrite IH.
  by destruct (String.eqb k "__proto__").
Qed.

Lemma List_filter_fst_NoDup {A B} (f : A * B → bool) (l : list (A * B)) :
  NoDup l.*1 → NoDup (List.filter f l).*1.
Proof.
  induction l as [|kv l IH]; simpl; [done|].
  intros [Hnot Hnd]%NoDup_cons. destruct (f kv); simpl; [|by apply IH].
  apply NoDup_cons. split; [|by apply IH].
  intros Hin. apply Hnot.
  apply list_elem_of_fmap in Hin as (kv' & -> & Hin).
  apply list_elem_of_fmap. exists kv'. split; [done|].
  apply list_elem_of_In. apply list_elem_of_In in Hin.
  by apply List.filter_In in Hin as [Hin _].
Qed.

(** X29: the object [formatContentMetrics] builds never has a property
    of its own named [__proto__].  For every other key the last group of
    the key is the one that counts; and when no two groups of the
    aggregation share an [_id], as the grouping stage sees to, the object
    reads back exactly the groups with such a key: a key maps to a count
    when, and only when, the key is not [__proto__] and there is a group
    with that key and that count. *)
Theorem formatContentMetrics_reads_back_the_groups :
  ∀ (metrics : list (string * nat)),
    formatContentMetrics metrics !! "__proto__" = None
    ∧ (∀ k n,
         k ≠ "__proto__" →
         formatContentMetrics (metrics ++ [(k, n)]) !! k = Some n)
    ∧ (NoDup metrics.*1 →
       ∀ k n,
         formatContentMetrics metrics !! k = Some n
         ↔ (k, n) ∈ metrics ∧ k ≠ "__proto__").
Proof.
  intros metrics.
  assert (Hin : ∀ k n,
            (k, n) ∈ List.filter
                       (fun kv => negb (String.eqb (fst kv) "__proto__"))
                       (reverse metrics)
            ↔ (k, n) ∈ metrics ∧ k ≠ "__proto__").
  { intros k n. rewrite list_elem_of_In, List.filter_In.
    rewrite <- list_elem_of_In, elem_of_reverse. simpl.
    rewrite negb_true_iff, String.eqb_neq. reflexivity. }
  split; [|split].
  - rewrite formatContentMetrics_list_to_map.
    apply not_elem_of_list_to_map_1. intros H.
    apply list_elem_of_fmap in H as ([k n] & Hk & H). simpl in Hk. subst k.
    apply Hin in H as [_ H]. by apply H.
  - intros k n Hk. unfold formatContentMetrics.
    rewrite fold_left_app. simpl.
    apply String.eqb_neq in Hk. rewrite Hk. apply lookup_insert_eq.
  - intros Hnd k n. rewrite formatContentMetrics_list_to_map.
    rewrite <- elem_of_list_to_map; [apply Hin|].
    apply List_filter_fst_NoDup. by rewrite fmap_reverse, reverse_Permutation.
Qed.

Lemma formatContentMetrics_reads_back_the_groups_witness :
  NoDup [("draft", 3%nat); ("__proto__", 7%nat); ("published", 2%nat)].*1
  ∧ formatContentMetrics
      [("draft", 3%nat); ("__proto__", 7%nat); ("published", 2%nat)]
      !! "published" = Some 2%nat
  ∧ formatContentMetrics
      [("draft", 3%nat); ("__proto__", 7%nat); ("published", 2%nat)]
      !! "__proto__" = None.
Proof.
  assert (Hnd : NoDup [("draft", 3%nat); ("__proto__", 7%nat);
                       ("published", 2%nat)].*1).
  { simpl. apply NoDup_cons.
    split; [|apply NoDup_cons; split; [|apply NoDup_singleton]];
      intros H; repeat (apply elem_of_cons in H as [H|H]; [discriminate H|]);
      by apply elem_of_nil in H. }
  split; [exact Hnd|].
  destruct (formatContentMetrics_reads_back_the_groups
              [("draft", 3%nat); ("__proto__", 7%nat); ("published", 2%nat)])
    as (Hp & _ & H).
  split; [|exact Hp].
  apply (H Hnd). split; [|discriminate].
  do 2 apply list_elem_of_further. apply list_elem_of_here.
Defined.

Lemma fold_left_views data n :
  fold_left (fun sum item => (sum + length (Analytics.views item))%nat)
    data n
  = (n + sum_list (map (fun item => length (Analytics.views item)) data))%nat.
Proof.
  revert n. induction data as [|a data IH]; intros n; simpl; [lia|].
  rewrite IH. lia.
Qed.

(** X30: the export formats agree on the records they are made from.
    The CSV export has one row a record, with the record's numbers of
    views and of engagement entries; the PDF summary counts the same
    records, its total of views is the sum of the rows' views, and its
    details are the records themselves, as is the export in any other
    format, a missing one included.  With no record at all the average
    sentiment of the summary is not a number. *)
Theorem export_formats_agree :
  ∀ (data : list Analytics.t),
    ∃ rows summary,
      formatExportData data (Some "csv") = ExportCsv rows
      ∧ formatExportData data (Some "pdf") = ExportPdf summary data
      ∧ Forall2 (fun a row =>
                   ExportRow.views row = length (Analytics.views a)
                   ∧ ExportRow.engagement row = engagementCount a
                   ∧ ExportRow.sentiment row
                     = Overall.score (Analytics.overall a))
                data rows
      ∧ ExportSummary.totalContent summary = length rows
      ∧ ExportSummary.totalViews summary
        = sum_list (ExportRow.views <$> rows)
      ∧ (data = [] →
         PrimFloat.is_nan (ExportSummary.averageSentiment summary) = true)
      ∧ (∀ format,
           format ≠ Some "csv" → format ≠ Some "pdf" →
           formatExportData data format = ExportJson data).
Proof.
  intros data. eexists _, _.
  split; [reflexivity|]. split; [reflexivity|]. split; [|split; [|split]].
  - induction data as [|a data IH]; constructor; [|exact IH].
    by repeat split.
  - simpl. by rewrite length_map.
  - simpl. rewrite fold_left_views. simpl. f_equal.
    induction data as [|a data IH]; [done|]. simpl. by rewrite IH.
  - split.
    + intros ->. reflexivity.
    + intros format Hcsv Hpdf. unfold formatExportData.
      destruct (String.eqb (default "" format) "csv") eqn:E1.
      { apply String.eqb_eq in E1. destruct format as [f|]; [|done].
        simpl in E1. congruence. }
      destruct (String.eqb (default "" format) "pdf") eqn:E2.
      { apply String.eqb_eq in E2. destruct format as [f|]; [|done].
        simpl in E2. congruence. }
      reflexivity.
Qed.
